(** * WorkFlowPro backend: the authorization-aware data access layer

    A shallow embedding of [crud.py] (with the parts of [schemas.py] and
    [main.py] it relies on) and the properties of the access rules, the
    membership invariants, the project listing, the analytics guard and the
    user search.

    The SQLAlchemy session is modelled as an explicit store that every
    operation receives and returns: four tables kept in insertion order.
    The store is the default one of [database.py], SQLite: it gives a new
    row the key after the largest key in use, reads a negative [LIMIT] as no
    limit and a negative [OFFSET] as none, and matches [LIKE] patterns
    character by character. *)

From Stdlib Require Import ZArith NArith List String Ascii Bool Lia.
Import ListNotations.
Local Open Scope Z_scope.
Local Open Scope bool_scope.

(** ** Column values *)

(** SQL comparison of a nullable column with a value: NULL compares false. *)
Definition col_eqb {A : Type} (eqb : A -> A -> bool) (c : option A) (v : A) : bool :=
  match c with
  | Some x => eqb x v
  | None => false
  end.

(** SQL [IN (...)] on a nullable column. *)
Definition col_in {A : Type} (eqb : A -> A -> bool) (c : option A) (vs : list A) : bool :=
  existsb (col_eqb eqb c) vs.

Module TaskStatus.
Inductive t := PENDING | IN_PROGRESS | COMPLETED | CANCELLED.
Definition eqb (a b : t) : bool :=
  match a, b with
  | PENDING, PENDING | IN_PROGRESS, IN_PROGRESS
  | COMPLETED, COMPLETED | CANCELLED, CANCELLED => true
  | _, _ => false
  end.
Definition eq_dec (a b : t) : {a = b} + {a <> b}.
Proof. decide equality. Defined.
End TaskStatus.

Module TaskPriority.
Inductive t := LOW | MEDIUM | HIGH | URGENT.
Definition eqb (a b : t) : bool :=
  match a, b with
  | LOW, LOW | MEDIUM, MEDIUM | HIGH, HIGH | URGENT, URGENT => true
  | _, _ => false
  end.
Definition eq_dec (a b : t) : {a = b} + {a <> b}.
Proof. decide equality. Defined.
End TaskPriority.

Module ProjectStatus.
Inductive t := PLANNING | ACTIVE | ON_HOLD | COMPLETED.
Definition eq_dec (a b : t) : {a = b} + {a <> b}.
Proof. decide equality. Defined.
End ProjectStatus.

(** A [datetime] value; only carried around, never inspected here. *)
Definition datetime := Z.

(** ** Text

    A Python [str] whose characters the code counts or matches is the list
    of its characters, each one a code point.  The other strings are only
    stored and compared as a whole. *)
Definition codepoint := N.

Definition str := list codepoint.

(** The [str] of a string literal of ASCII characters. *)
Definition text (s : string) : str := map N_of_ascii (list_ascii_of_string s).

Fixpoint str_eqb (a b : str) : bool :=
  match a, b with
  | [], [] => true
  | c :: a', d :: b' => N.eqb c d && str_eqb a' b'
  | _, _ => false
  end.

(** ** models.py

    Modelled from the spec: [models.py] (the ORM classes [User], [Project],
    [TeamMember] and [Task]) is not part of the sources at hand.  The rows
    below carry the columns the data model of the specification lists and
    that [crud.py] reads or writes; credential fields, flags and timestamps
    of the store are left out.  Columns that an update may overwrite with
    [None] are nullable. *)

Module User.
Record row := {
  id : Z;
  email : str;
  username : string;
  full_name : option string
}.
End User.

Module Project.
Record row := {
  id : Z;
  name : option string;
  description : option string;
  status : option ProjectStatus.t;
  owner_id : Z
}.
Definition eq_dec (a b : row) : {a = b} + {a <> b}.
Proof.
  repeat decide equality.
Defined.
End Project.

Module TeamMember.
Record row := {
  id : Z;
  project_id : option Z;
  user_id : Z;
  role : option string
}.
End TeamMember.

Module Task.
Record row := {
  id : Z;
  title : option string;
  description : option string;
  status : option TaskStatus.t;
  priority : option TaskPriority.t;
  project_id : option Z;
  due_date : option datetime;
  assigned_user_id : Z
}.
End Task.

(** What deleting a project does to the rows that reference it.

    Modelled from the spec: the relationships of [models.py] are missing and
    the specification leaves the policy open, so it is a parameter of the
    operations: the referencing rows are left as they are, have their
    reference set to NULL, or are deleted with the project. *)
Inductive OnDelete := NoAction | SetNull | Cascade.

(** ** schemas.py *)

Record TaskCreate := {
  tc_title : string;
  tc_description : option string;
  tc_status : option TaskStatus.t;
  tc_priority : option TaskPriority.t;
  tc_project_id : option Z;
  tc_due_date : option datetime
}.

(** A field of an update schema: [None] when the request left it unset (and
    [model_dump(exclude_unset=True)] drops it), [Some v] when the request
    set it, [v] being [None] for an explicit null. *)
Definition patch (A : Type) := option (option A).

Record TaskUpdate := {
  tu_title : patch string;
  tu_description : patch string;
  tu_status : patch TaskStatus.t;
  tu_priority : patch TaskPriority.t;
  tu_project_id : patch Z;
  tu_due_date : patch datetime
}.

Record ProjectCreate := {
  pc_name : string;
  pc_description : option string;
  pc_status : option ProjectStatus.t
}.

Record ProjectUpdate := {
  pu_name : patch string;
  pu_description : patch string;
  pu_status : patch ProjectStatus.t
}.

Record TeamMemberCreate := {
  role : option string;
  user_id : Z;
  project_id : Z
}.

Record UserCreate := {
  uc_email : str;
  uc_username : string;
  uc_full_name : option string;
  uc_password : string
}.

(** ** The store behind a [Session]

    The tables hold their rows in insertion order. *)

Record Session := {
  users : list User.row;
  projects : list Project.row;
  team_members : list TeamMember.row;
  tasks : list Task.row
}.

Definition empty_db : Session :=
  {| users := []; projects := []; team_members := []; tasks := [] |}.

(** The key the store gives to a new row of a table: one more than the
    largest key in use, and 1 in an empty table.  A key that was deleted is
    handed out again when no larger one is in use. *)
Definition next_key {A : Type} (key : A -> Z) (l : list A) : Z :=
  fold_right (fun r m => Z.max (key r) m) 0 l + 1.

Definition with_users (db : Session) (l : list User.row) : Session :=
  {| users := l; projects := projects db; team_members := team_members db;
     tasks := tasks db |}.

Definition with_projects (db : Session) (l : list Project.row) : Session :=
  {| users := users db; projects := l; team_members := team_members db;
     tasks := tasks db |}.

Definition with_team_members (db : Session) (l : list TeamMember.row) : Session :=
  {| users := users db; projects := projects db; team_members := l;
     tasks := tasks db |}.

Definition with_tasks (db : Session) (l : list Task.row) : Session :=
  {| users := users db; projects := projects db; team_members := team_members db;
     tasks := l |}.

(** [setattr] over the fields of [model_dump(exclude_unset=True)]. *)
Definition setattr {A : Type} (upd : patch A) (old : option A) : option A :=
  match upd with
  | Some v => v
  | None => old
  end.

Definition apply_task_update (u : TaskUpdate) (t : Task.row) : Task.row :=
  {| Task.id := Task.id t;
     Task.title := setattr (tu_title u) (Task.title t);
     Task.description := setattr (tu_description u) (Task.description t);
     Task.status := setattr (tu_status u) (Task.status t);
     Task.priority := setattr (tu_priority u) (Task.priority t);
     Task.project_id := setattr (tu_project_id u) (Task.project_id t);
     Task.due_date := setattr (tu_due_date u) (Task.due_date t);
     Task.assigned_user_id := Task.assigned_user_id t |}.

Definition apply_project_update (u : ProjectUpdate) (p : Project.row) : Project.row :=
  {| Project.id := Project.id p;
     Project.name := setattr (pu_name u) (Project.name p);
     Project.description := setattr (pu_description u) (Project.description p);
     Project.status := setattr (pu_status u) (Project.status p);
     Project.owner_id := Project.owner_id p |}.

(** [.limit(limit)]: the first [limit] rows, and every row for a negative
    [limit]. *)
Definition sql_limit {A : Type} (limit : Z) (l : list A) : list A :=
  if limit <? 0 then l else firstn (Z.to_nat limit) l.

(** [.offset(skip).limit(limit)]: a negative [skip] skips nothing. *)
Definition offset_limit {A : Type} (skip limit : Z) (l : list A) : list A :=
  sql_limit limit (skipn (Z.to_nat skip) l).

(** ** crud.py *)

Module crud.

(** *** Task CRUD operations *)

Definition get_tasks (db : Session) (user_id : Z) (skip limit : Z) : list Task.row :=
  offset_limit skip limit
    (filter (fun t => Task.assigned_user_id t =? user_id) (tasks db)).

Definition get_task (db : Session) (task_id user_id : Z) : option Task.row :=
  find (fun t => (Task.id t =? task_id) && (Task.assigned_user_id t =? user_id))
       (tasks db).

Definition create_task (db : Session) (task : TaskCreate) (user_id : Z)
  : Session * Task.row :=
  let db_task :=
    {| Task.id := next_key Task.id (tasks db);
       Task.title := Some (tc_title task);
       Task.description := tc_description task;
       Task.status := tc_status task;
       Task.priority := tc_priority task;
       Task.project_id := tc_project_id task;
       Task.due_date := tc_due_date task;
       Task.assigned_user_id := user_id |} in
  (with_tasks db (tasks db ++ [db_task]), db_task).

Definition update_task (db : Session) (task_id : Z) (task_update : TaskUpdate)
    (user_id : Z) : Session * option Task.row :=
  match find (fun t => (Task.id t =? task_id) && (Task.assigned_user_id t =? user_id))
             (tasks db) with
  | None => (db, None)
  | Some db_task =>
      let db_task' := apply_task_update task_update db_task in
      (with_tasks db
         (map (fun t => if Task.id t =? Task.id db_task then db_task' else t)
              (tasks db)),
       Some db_task')
  end.

Definition delete_task (db : Session) (task_id user_id : Z) : Session * bool :=
  match find (fun t => (Task.id t =? task_id) && (Task.assigned_user_id t =? user_id))
             (tasks db) with
  | None => (db, false)
  | Some db_task =>
      (with_tasks db
         (filter (fun t => negb (Task.id t =? Task.id db_task)) (tasks db)),
       true)
  end.

(** *** Project CRUD operations *)

(** [db.query(Project).join(TeamMember).filter(TeamMember.user_id == user_id)]:
    one row per pair of a project and a membership row that references it. *)
Definition team_projects (db : Session) (user_id : Z) : list Project.row :=
  flat_map
    (fun p =>
       map (fun _ => p)
           (filter (fun m => col_eqb Z.eqb (TeamMember.project_id m) (Project.id p)
                             && (TeamMember.user_id m =? user_id))
                   (team_members db)))
    (projects db).

Definition owned_projects (db : Session) (user_id : Z) : list Project.row :=
  filter (fun p => Project.owner_id p =? user_id) (projects db).

(** SQL [UNION] keeps one copy of each distinct row.  The order of its
    result is not fixed by SQL; the model takes the order of [nodup]. *)
Definition union (a b : list Project.row) : list Project.row :=
  nodup Project.eq_dec (a ++ b).

Definition get_projects (db : Session) (user_id : Z) (skip limit : Z)
  : list Project.row :=
  offset_limit skip limit (union (owned_projects db user_id) (team_projects db user_id)).

Definition get_project (db : Session) (project_id user_id : Z) : option Project.row :=
  match find (fun p => Project.id p =? project_id) (projects db) with
  | None => None
  | Some project =>
      if Project.owner_id project =? user_id then Some project
      else
        match find (fun m => col_eqb Z.eqb (TeamMember.project_id m) project_id
                             && (TeamMember.user_id m =? user_id))
                   (team_members db) with
        | Some _ => Some project
        | None => None
        end
  end.

Definition create_project (db : Session) (project : ProjectCreate) (user_id : Z)
  : Session * Project.row :=
  let db_project :=
    {| Project.id := next_key Project.id (projects db);
       Project.name := Some (pc_name project);
       Project.description := pc_description project;
       Project.status := pc_status project;
       Project.owner_id := user_id |} in
  let db1 := with_projects db (projects db ++ [db_project]) in
  let team_member :=
    {| TeamMember.id := next_key TeamMember.id (team_members db1);
       TeamMember.project_id := Some (Project.id db_project);
       TeamMember.user_id := user_id;
       TeamMember.role := Some "owner"%string |} in
  (with_team_members db1 (team_members db1 ++ [team_member]), db_project).

Definition update_project (db : Session) (project_id : Z)
    (project_update : ProjectUpdate) (user_id : Z) : Session * option Project.row :=
  match find (fun p => (Project.id p =? project_id) && (Project.owner_id p =? user_id))
             (projects db) with
  | None => (db, None)
  | Some db_project =>
      let db_project' := apply_project_update project_update db_project in
      (with_projects db
         (map (fun p => if Project.id p =? Project.id db_project then db_project' else p)
              (projects db)),
       Some db_project')
  end.

(** The effect of deleting project [pid] on the membership rows. *)
Definition release_team_members (pol : OnDelete) (pid : Z)
    (l : list TeamMember.row) : list TeamMember.row :=
  match pol with
  | NoAction => l
  | SetNull =>
      map (fun m =>
             if col_eqb Z.eqb (TeamMember.project_id m) pid
             then {| TeamMember.id := TeamMember.id m;
                     TeamMember.project_id := None;
                     TeamMember.user_id := TeamMember.user_id m;
                     TeamMember.role := TeamMember.role m |}
             else m) l
  | Cascade =>
      filter (fun m => negb (col_eqb Z.eqb (TeamMember.project_id m) pid)) l
  end.

(** The effect of deleting project [pid] on the tasks. *)
Definition release_tasks (pol : OnDelete) (pid : Z)
    (l : list Task.row) : list Task.row :=
  match pol with
  | NoAction => l
  | SetNull =>
      map (fun t =>
             if col_eqb Z.eqb (Task.project_id t) pid
             then {| Task.id := Task.id t;
                     Task.title := Task.title t;
                     Task.description := Task.description t;
                     Task.status := Task.status t;
                     Task.priority := Task.priority t;
                     Task.project_id := None;
                     Task.due_date := Task.due_date t;
                     Task.assigned_user_id := Task.assigned_user_id t |}
             else t) l
  | Cascade =>
      filter (fun t => negb (col_eqb Z.eqb (Task.project_id t) pid)) l
  end.

Definition delete_project (on_team on_tasks : OnDelete) (db : Session)
    (project_id user_id : Z) : Session * bool :=
  match find (fun p => (Project.id p =? project_id) && (Project.owner_id p =? user_id))
             (projects db) with
  | None => (db, false)
  | Some db_project =>
      let pid := Project.id db_project in
      ({| users := users db;
          projects := filter (fun p => negb (Project.id p =? pid)) (projects db);
          team_members := release_team_members on_team pid (team_members db);
          tasks := release_tasks on_tasks pid (tasks db) |},
       true)
  end.

Record ProjectDetail := {
  pd_project : Project.row;
  pd_team_members : list TeamMember.row;
  pd_tasks_count : Z
}.

(** [.count()] *)
Definition count {A : Type} (f : A -> bool) (l : list A) : Z :=
  Z.of_nat (List.length (filter f l)).

Definition get_project_with_team (db : Session) (project_id user_id : Z)
  : option ProjectDetail :=
  match get_project db project_id user_id with
  | None => None
  | Some project =>
      let team_members :=
        filter (fun m => col_eqb Z.eqb (TeamMember.project_id m) project_id)
               (team_members db) in
      let tasks_count :=
        count (fun t => col_eqb Z.eqb (Task.project_id t) project_id) (tasks db) in
      Some {| pd_project := project;
              pd_team_members := team_members;
              pd_tasks_count := tasks_count |}
  end.

(** *** Team Member CRUD operations *)

(** The membership rows of [project_id] that belong to [user_id]. *)
Definition is_membership (project_id user_id : Z) (m : TeamMember.row) : bool :=
  col_eqb Z.eqb (TeamMember.project_id m) project_id
  && (TeamMember.user_id m =? user_id).

(** The requester's row with a role in [["owner", "admin"]]. *)
Definition is_manager_membership (project_id requester_user_id : Z)
    (m : TeamMember.row) : bool :=
  col_eqb Z.eqb (TeamMember.project_id m) project_id
  && (TeamMember.user_id m =? requester_user_id)
  && col_in String.eqb (TeamMember.role m) ["owner"%string; "admin"%string].

Definition add_team_member (db : Session) (team_member : TeamMemberCreate)
    (requester_user_id : Z) : Session * option TeamMember.row :=
  match find (fun p => Project.id p =? project_id team_member) (projects db) with
  | None => (db, None)
  | Some project =>
      (* the part after the permission check *)
      let add :=
        match find (is_membership (project_id team_member) (user_id team_member))
                   (team_members db) with
        | Some _ => (db, None)
        | None =>
            let db_team_member :=
              {| TeamMember.id := next_key TeamMember.id (team_members db);
                 TeamMember.project_id := Some (project_id team_member);
                 TeamMember.user_id := user_id team_member;
                 TeamMember.role := role team_member |} in
            (with_team_members db (team_members db ++ [db_team_member]),
             Some db_team_member)
        end in
      if negb (Project.owner_id project =? requester_user_id) then
        match find (is_manager_membership (project_id team_member) requester_user_id)
                   (team_members db) with
        | None => (db, None)
        | Some _ => add
        end
      else add
  end.

Definition remove_team_member (db : Session) (project_id user_id requester_user_id : Z)
  : Session * bool :=
  match find (fun p => Project.id p =? project_id) (projects db) with
  | None => (db, false)
  | Some project =>
      (* the part after the permission check *)
      let remove :=
        if Project.owner_id project =? user_id then (db, false)
        else
          match find (is_membership project_id user_id) (team_members db) with
          | Some team_member =>
              (with_team_members db
                 (filter (fun m => negb (TeamMember.id m =? TeamMember.id team_member))
                         (team_members db)),
               true)
          | None => (db, false)
          end in
      if negb (Project.owner_id project =? requester_user_id) then
        match find (is_manager_membership project_id requester_user_id)
                   (team_members db) with
        | None => (db, false)
        | Some _ => remove
        end
      else remove
  end.

Definition get_team_members (db : Session) (project_id user_id : Z)
  : option (list TeamMember.row) :=
  match get_project db project_id user_id with
  | None => None
  | Some _ =>
      Some (filter (fun m => col_eqb Z.eqb (TeamMember.project_id m) project_id)
                   (team_members db))
  end.

(** *** User search *)

Definition percent : codepoint := 37%N.
Definition underscore : codepoint := 95%N.

(** SQL [lower] on one character: the letters [A-Z] are folded, and no
    other character is. *)
Definition lower_char (c : codepoint) : codepoint :=
  if (N.leb 65 c && N.leb c 90)%bool then (c + 32)%N else c.

Definition lower (s : str) : str := map lower_char s.

(** SQL [LIKE]: in the pattern, [%] stands for any run of characters and
    [_] for any one character; every other character stands for itself.
    No escape character is declared by the query. *)
Fixpoint like (pattern : str) : str -> bool :=
  match pattern with
  | [] => fun s => match s with [] => true | _ :: _ => false end
  | c :: pattern' =>
      if N.eqb c percent then
        fix any (s : str) : bool :=
          like pattern' s
          || match s with
             | [] => false
             | _ :: s' => any s'
             end
      else if N.eqb c underscore then
        fun s => match s with
                 | [] => false
                 | _ :: s' => like pattern' s'
                 end
      else
        fun s => match s with
                 | [] => false
                 | d :: s' => N.eqb c d && like pattern' s'
                 end
  end.

(** [column.ilike(pattern)], which is [lower(column) LIKE lower(pattern)]. *)
Definition ilike (column : str) (pattern : str) : bool :=
  like (lower pattern) (lower column).

Definition search_users_by_email (db : Session) (email_query : str) (limit : Z)
  : list User.row :=
  sql_limit limit
    (filter (fun u => ilike (User.email u) ([percent] ++ email_query ++ [percent]))
            (users db)).

(** *** Reporting Functions *)

(** Python raises on a division by zero; a function that divides returns in
    this error monad. *)
Inductive exn := ZeroDivisionError.

Definition result (A : Type) : Type := (exn + A)%type.

Definition ret {A : Type} (a : A) : result A := inr a.

Definition bind {A B : Type} (m : result A) (k : A -> result B) : result B :=
  match m with
  | inl e => inl e
  | inr a => k a
  end.

Notation "x <- m ;; k" := (bind m (fun x => k))
  (at level 61, m at next level, right associativity).

Fixpoint for_each {A B : Type} (body : A -> result B) (l : list A) : result (list B) :=
  match l with
  | [] => ret []
  | a :: l' =>
      b <- body a ;;
      bs <- for_each body l' ;;
      ret (b :: bs)
  end.

Section Reporting.

(** The binary64 arithmetic of the Python runtime is a parameter: the type
    of floats, the quotient of two integers (for a divisor other than
    zero), the product of a float and an integer, and [round(x, ndigits)]
    on a float. *)
Variable float : Type.
Variable int_truediv : Z -> Z -> float.
Variable float_mul : float -> Z -> float.
Variable float_round : float -> Z -> float.

(** A Python number: an [int] or a [float]. *)
Inductive number := Int (n : Z) | Float (x : float).

(** [a / b] on integers. *)
Definition truediv (a b : Z) : result float :=
  if b =? 0 then inl ZeroDivisionError else ret (int_truediv a b).

(** [round(x, ndigits)]: an [int] is returned as it is for [ndigits >= 0]. *)
Definition round (x : number) (ndigits : Z) : number :=
  match x with
  | Int n => Int n
  | Float f => Float (float_round f ndigits)
  end.

(** [(completed_tasks / total_tasks * 100) if total_tasks > 0 else 0], the
    expression the three statistics functions share. *)
Definition completion_rate_expr (completed_tasks total_tasks : Z) : result number :=
  if 0 <? total_tasks then
    q <- truediv completed_tasks total_tasks ;;
    ret (Float (float_mul q 100))
  else ret (Int 0).

Record SystemOverview := {
  so_total_users : Z;
  so_total_projects : Z;
  so_total_tasks : Z;
  so_completed_tasks : Z;
  so_active_tasks : Z;
  so_completion_rate : number
}.

Definition get_system_overview (db : Session) : result SystemOverview :=
  let total_users := count (fun _ => true) (users db) in
  let total_projects := count (fun _ => true) (projects db) in
  let total_tasks := count (fun _ => true) (tasks db) in
  let completed_tasks :=
    count (fun t => col_eqb TaskStatus.eqb (Task.status t) TaskStatus.COMPLETED)
          (tasks db) in
  let active_tasks :=
    count (fun t => col_in TaskStatus.eqb (Task.status t)
                           [TaskStatus.PENDING; TaskStatus.IN_PROGRESS])
          (tasks db) in
  completion_rate <- completion_rate_expr completed_tasks total_tasks ;;
  ret {| so_total_users := total_users;
         so_total_projects := total_projects;
         so_total_tasks := total_tasks;
         so_completed_tasks := completed_tasks;
         so_active_tasks := active_tasks;
         so_completion_rate := round completion_rate 2 |}.

Record UserTaskStats := {
  us_user_id : Z;
  us_user_name : string;
  us_user_email : str;
  us_total_tasks : Z;
  us_completed_tasks : Z;
  us_in_progress_tasks : Z;
  us_pending_tasks : Z;
  us_cancelled_tasks : Z;
  us_completion_rate : number
}.

(** [a or b] on an optional string: [None] and the empty string are false. *)
Definition or_else (a : option string) (b : string) : string :=
  match a with
  | Some s => if String.eqb s EmptyString then b else s
  | None => b
  end.

(** The tasks of a user that are in a given status. *)
Definition user_tasks_in (db : Session) (uid : Z) (st : TaskStatus.t) : Z :=
  count (fun t => (Task.assigned_user_id t =? uid)
                  && col_eqb TaskStatus.eqb (Task.status t) st)
        (tasks db).

Definition get_user_task_statistics (db : Session) : result (list UserTaskStats) :=
  for_each
    (fun user =>
       let total_tasks :=
         count (fun t => Task.assigned_user_id t =? User.id user) (tasks db) in
       let completed_tasks := user_tasks_in db (User.id user) TaskStatus.COMPLETED in
       let in_progress_tasks := user_tasks_in db (User.id user) TaskStatus.IN_PROGRESS in
       let pending_tasks := user_tasks_in db (User.id user) TaskStatus.PENDING in
       let cancelled_tasks := user_tasks_in db (User.id user) TaskStatus.CANCELLED in
       completion_rate <- completion_rate_expr completed_tasks total_tasks ;;
       ret {| us_user_id := User.id user;
              us_user_name := or_else (User.full_name user) (User.username user);
              us_user_email := User.email user;
              us_total_tasks := total_tasks;
              us_completed_tasks := completed_tasks;
              us_in_progress_tasks := in_progress_tasks;
              us_pending_tasks := pending_tasks;
              us_cancelled_tasks := cancelled_tasks;
              us_completion_rate := round completion_rate 2 |})
    (users db).

Record ProjectTaskStats := {
  ps_project_id : Z;
  ps_project_name : option string;
  ps_total_tasks : Z;
  ps_completed_tasks : Z;
  ps_in_progress_tasks : Z;
  ps_pending_tasks : Z;
  ps_cancelled_tasks : Z;
  ps_completion_rate : number;
  ps_team_size : Z
}.

(** The tasks of a project that are in a given status. *)
Definition project_tasks_in (db : Session) (pid : Z) (st : TaskStatus.t) : Z :=
  count (fun t => col_eqb Z.eqb (Task.project_id t) pid
                  && col_eqb TaskStatus.eqb (Task.status t) st)
        (tasks db).

Definition get_project_task_statistics (db : Session) : result (list ProjectTaskStats) :=
  for_each
    (fun project =>
       let total_tasks :=
         count (fun t => col_eqb Z.eqb (Task.project_id t) (Project.id project))
               (tasks db) in
       let completed_tasks := project_tasks_in db (Project.id project) TaskStatus.COMPLETED in
       let in_progress_tasks := project_tasks_in db (Project.id project) TaskStatus.IN_PROGRESS in
       let pending_tasks := project_tasks_in db (Project.id project) TaskStatus.PENDING in
       let cancelled_tasks := project_tasks_in db (Project.id project) TaskStatus.CANCELLED in
       let team_size :=
         count (fun m => col_eqb Z.eqb (TeamMember.project_id m) (Project.id project))
               (team_members db) in
       completion_rate <- completion_rate_expr completed_tasks total_tasks ;;
       ret {| ps_project_id := Project.id project;
              ps_project_name := Project.name project;
              ps_total_tasks := total_tasks;
              ps_completed_tasks := completed_tasks;
              ps_in_progress_tasks := in_progress_tasks;
              ps_pending_tasks := pending_tasks;
              ps_cancelled_tasks := cancelled_tasks;
              ps_completion_rate := round completion_rate 2;
              ps_team_size := team_size |})
    (projects db).

End Reporting.

Arguments Int {float} n.
Arguments Float {float} x.
Arguments so_total_users {float} s.
Arguments so_total_projects {float} s.
Arguments so_total_tasks {float} s.
Arguments so_completed_tasks {float} s.
Arguments so_active_tasks {float} s.
Arguments so_completion_rate {float} s.
Arguments us_user_id {float} u.
Arguments us_user_name {float} u.
Arguments us_user_email {float} u.
Arguments us_total_tasks {float} u.
Arguments us_completed_tasks {float} u.
Arguments us_in_progress_tasks {float} u.
Arguments us_pending_tasks {float} u.
Arguments us_cancelled_tasks {float} u.
Arguments us_completion_rate {float} u.
Arguments ps_project_id {float} p.
Arguments ps_project_name {float} p.
Arguments ps_total_tasks {float} p.
Arguments ps_completed_tasks {float} p.
Arguments ps_in_progress_tasks {float} p.
Arguments ps_pending_tasks {float} p.
Arguments ps_cancelled_tasks {float} p.
Arguments ps_completion_rate {float} p.
Arguments ps_team_size {float} p.

(** The two distributions report one entry per value of the enumeration, in
    the order of the list the function iterates over; an entry is the value
    and the number of tasks that carry it. *)
Definition get_task_priority_distribution (db : Session)
  : list (TaskPriority.t * Z) :=
  map (fun priority =>
         (priority,
          count (fun t => col_eqb TaskPriority.eqb (Task.priority t) priority)
                (tasks db)))
      [TaskPriority.LOW; TaskPriority.MEDIUM; TaskPriority.HIGH;
       TaskPriority.URGENT].

Definition get_task_status_distribution (db : Session)
  : list (TaskStatus.t * Z) :=
  map (fun status =>
         (status,
          count (fun t => col_eqb TaskStatus.eqb (Task.status t) status)
                (tasks db)))
      [TaskStatus.PENDING; TaskStatus.IN_PROGRESS; TaskStatus.COMPLETED;
       TaskStatus.CANCELLED].

End crud.

(** ** main.py *)

Module main.

Record HTTPException := {
  status_code : Z;
  detail : string
}.

(** [POST /register].  The password hash comes from [auth.py] and is stored
    in a column the model leaves out. *)
Definition register_user (db : Session) (user : UserCreate)
  : Session * (HTTPException + User.row) :=
  match find (fun u => str_eqb (User.email u) (uc_email user)) (users db) with
  | Some _ =>
      (db, inl {| status_code := 400; detail := "Email already registered" |})
  | None =>
      match find (fun u => String.eqb (User.username u) (uc_username user)) (users db) with
      | Some _ =>
          (db, inl {| status_code := 400; detail := "Username already taken" |})
      | None =>
          let db_user :=
            {| User.id := next_key User.id (users db);
               User.email := uc_email user;
               User.username := uc_username user;
               User.full_name := uc_full_name user |} in
          (with_users db (users db ++ [db_user]), inr db_user)
      end
  end.

(** [GET /users/search]: the rows are returned as [(id, email, full_name)]. *)
Definition search_users (db : Session) (email : str)
  : HTTPException + list (Z * str * option string) :=
  if (List.length email <? 3)%nat then
    inl {| status_code := 400;
           detail := "Search query must be at least 3 characters" |}
  else
    inr (map (fun user => (User.id user, User.email user, User.full_name user))
             (crud.search_users_by_email db email 10)).

End main.

(** ** The states the operations can reach *)

(** A call of one of the operations that write to the store. *)
Inductive operation :=
| Op_register_user (user : UserCreate)
| Op_create_task (task : TaskCreate) (user_id : Z)
| Op_update_task (task_id : Z) (task_update : TaskUpdate) (user_id : Z)
| Op_delete_task (task_id user_id : Z)
| Op_create_project (project : ProjectCreate) (user_id : Z)
| Op_update_project (project_id : Z) (project_update : ProjectUpdate) (user_id : Z)
| Op_delete_project (project_id user_id : Z)
| Op_add_team_member (team_member : TeamMemberCreate) (requester_user_id : Z)
| Op_remove_team_member (project_id user_id requester_user_id : Z).

(** The user on whose behalf an operation runs ([None] for a registration,
    which runs before there is one). *)
Definition actor (op : operation) : option Z :=
  match op with
  | Op_register_user _ => None
  | Op_create_task _ u | Op_update_task _ _ u | Op_delete_task _ u
  | Op_create_project _ u | Op_update_project _ _ u | Op_delete_project _ u
  | Op_add_team_member _ u | Op_remove_team_member _ _ u => Some u
  end.

Section Store.

(** What the deletion of a project does to its membership rows and to its
    tasks. *)
Variables on_team on_tasks : OnDelete.

Definition run (op : operation) (db : Session) : Session :=
  match op with
  | Op_register_user user => fst (main.register_user db user)
  | Op_create_task task u => fst (crud.create_task db task u)
  | Op_update_task task_id task_update u => fst (crud.update_task db task_id task_update u)
  | Op_delete_task task_id u => fst (crud.delete_task db task_id u)
  | Op_create_project project u => fst (crud.create_project db project u)
  | Op_update_project pid project_update u =>
      fst (crud.update_project db pid project_update u)
  | Op_delete_project pid u => fst (crud.delete_project on_team on_tasks db pid u)
  | Op_add_team_member team_member u => fst (crud.add_team_member db team_member u)
  | Op_remove_team_member pid uid u => fst (crud.remove_team_member db pid uid u)
  end.

(** The state after a sequence of calls, the first one first. *)
Definition run_all (ops : list operation) (db : Session) : Session :=
  fold_left (fun s op => run op s) ops db.

Inductive reachable : Session -> Prop :=
| reachable_empty : reachable empty_db
| reachable_run op db : reachable db -> reachable (run op db).

End Store.

(** ** Well-formed stores *)

(** The number of rows a query selects, as a natural number. *)
Definition rows {A : Type} (f : A -> bool) (l : list A) : nat :=
  List.length (filter f l).

Record wf (db : Session) : Prop := {
  (* primary keys are pairwise distinct *)
  wf_tasks : NoDup (map Task.id (tasks db));
  wf_projects : NoDup (map Project.id (projects db));
  wf_team_members : NoDup (map TeamMember.id (team_members db));
  (* the owner of a project holds a membership row with role "owner" *)
  wf_owner_row :
    forall P, In P (projects db) ->
      exists m, In m (team_members db)
                /\ crud.is_membership (Project.id P) (Project.owner_id P) m = true
                /\ TeamMember.role m = Some "owner"%string
}.

(** The task rows attached to a project: the raw count of the project
    detail and the [total_tasks] of the per-project statistics. *)
Definition tasks_of_project (db : Session) (pid : Z) : Z :=
  crud.count (fun t => col_eqb Z.eqb (Task.project_id t) pid) (tasks db).

(** A task [task_id] that is assigned to [user_id]. *)
Definition assigned_task (db : Session) (task_id user_id : Z) : Prop :=
  exists T, In T (tasks db) /\ Task.id T = task_id
            /\ Task.assigned_user_id T = user_id.

(** A project [project_id] that [user_id] owns. *)
Definition owned_project (db : Session) (project_id user_id : Z) : Prop :=
  exists P, In P (projects db) /\ Project.id P = project_id
            /\ Project.owner_id P = user_id.

(** The membership rows of a project that carry the role "owner". *)
Definition has_owner_role (pid : Z) (m : TeamMember.row) : bool :=
  col_eqb Z.eqb (TeamMember.project_id m) pid
  && col_eqb String.eqb (TeamMember.role m) "owner"%string.

(** The completion rate in the words of the specification: the completed
    count divided by the total count, times 100, rounded to 2 decimals, and
    0 when the total is 0.  The arithmetic is that of the runtime. *)
Definition completion_rate_spec {float : Type} (int_truediv : Z -> Z -> float)
    (float_mul : float -> Z -> float) (float_round : float -> Z -> float)
    (completed total : Z) : crud.number float :=
  if total =? 0 then crud.Int 0
  else crud.Float (float_round (float_mul (int_truediv completed total) 100) 2).

(** The user search in the words of the specification: the users whose
    email contains the fragment, every character of it taken literally and
    letter case ignored, up to the limit. *)
Fixpoint prefixb (q s : str) : bool :=
  match q, s with
  | [], _ => true
  | _ :: _, [] => false
  | c :: q', d :: s' => N.eqb c d && prefixb q' s'
  end.

Fixpoint infixb (q s : str) : bool :=
  prefixb q s
  || match s with
     | [] => false
     | _ :: s' => infixb q s'
     end.

Definition search_users_by_fragment (db : Session) (fragment : str) (limit : Z)
  : list User.row :=
  sql_limit limit
    (filter (fun u => infixb (crud.lower fragment) (crud.lower (User.email u)))
            (users db)).

(** A character that [LIKE] takes literally. *)
Definition literal (c : codepoint) : bool :=
  negb (N.eqb c crud.percent) && negb (N.eqb c crud.underscore).

(** A stand-in for the floats of the runtime that records the operations
    applied, for running the statistics on a sample store. *)
Inductive sym :=
| Quot (a b : Z)
| Mul (x : sym) (k : Z)
| Round (x : sym) (ndigits : Z).

(** The standing the team operations ask of a requester: the owner of the
    project, or the holder of a membership row of the project with the role
    "owner" or "admin". *)
Definition has_standing (db : Session) (pid requester : Z) : bool :=
  existsb (fun p => (Project.id p =? pid) && (Project.owner_id p =? requester))
          (projects db)
  || existsb (crud.is_manager_membership pid requester) (team_members db).

(** An update request that sets no field. *)
Definition no_task_update : TaskUpdate :=
  {| tu_title := None; tu_description := None; tu_status := None;
     tu_priority := None; tu_project_id := None; tu_due_date := None |}.

Definition no_project_update : ProjectUpdate :=
  {| pu_name := None; pu_description := None; pu_status := None |}.

(** A column that holds NULL. *)
Definition is_null {A : Type} (c : option A) : bool :=
  match c with
  | Some _ => false
  | None => true
  end.

(** The sum of the counts of a distribution. *)
Definition total_count {A : Type} (l : list (A * Z)) : Z :=
  fold_right (fun e acc => snd e + acc) 0 l.

(** Emails and user names are registered once, and so are the keys. *)
Record users_wf (db : Session) : Prop := {
  uwf_keys : NoDup (map User.id (users db));
  uwf_emails : NoDup (map User.email (users db));
  uwf_usernames : NoDup (map User.username (users db))
}.

(** ** Sample requests and stores *)

Definition alice : UserCreate :=
  {| uc_email := text "alice@x.com"; uc_username := "alice";
     uc_full_name := Some "Alice"%string; uc_password := "secret-a" |}.

Definition bob : UserCreate :=
  {| uc_email := text "bob@x.com"; uc_username := "bob";
     uc_full_name := None; uc_password := "secret-b" |}.

Definition carol : UserCreate :=
  {| uc_email := text "carol@x.com"; uc_username := "carol";
     uc_full_name := Some "Carol"%string; uc_password := "secret-c" |}.

Definition alpha : ProjectCreate :=
  {| pc_name := "Alpha"; pc_description := None;
     pc_status := Some ProjectStatus.PLANNING |}.

Definition task_in (pid : option Z) : TaskCreate :=
  {| tc_title := "T1"; tc_description := None;
     tc_status := Some TaskStatus.PENDING;
     tc_priority := Some TaskPriority.MEDIUM;
     tc_project_id := pid; tc_due_date := None |}.

Definition member_of (pid uid : Z) (r : string) : TeamMemberCreate :=
  {| role := Some r; user_id := uid; project_id := pid |}.

(** Alice (user 1), Bob (2) and Carol (3) are registered; Alice owns project
    1 and has task 1 in it; Bob is a member of the project with role
    "admin"; Carol has no membership. *)
Definition team_db : Session :=
  run_all NoAction NoAction
    [Op_register_user alice; Op_register_user bob; Op_register_user carol;
     Op_create_project alpha 1; Op_create_task (task_in (Some 1)) 1;
     Op_add_team_member (member_of 1 2 "admin") 1]
    empty_db.

(** The row of project 1 in [team_db]. *)
Definition alpha_row : Project.row :=
  {| Project.id := 1; Project.name := Some "Alpha"%string;
     Project.description := None;
     Project.status := Some ProjectStatus.PLANNING;
     Project.owner_id := 1 |}.

(** A request that renames a task, and one that renames a project. *)
Definition rename_task (title : string) : TaskUpdate :=
  {| tu_title := Some (Some title); tu_description := None; tu_status := None;
     tu_priority := None; tu_project_id := None; tu_due_date := None |}.

Definition rename_project (name : string) : ProjectUpdate :=
  {| pu_name := Some (Some name); pu_description := None; pu_status := None |}.

(** As [team_db] starts, but Alice adds Bob with the role "owner". *)
Definition two_owners_db : Session :=
  run_all NoAction NoAction
    [Op_register_user alice; Op_register_user bob;
     Op_create_project alpha 1;
     Op_add_team_member (member_of 1 2 "owner") 1]
    empty_db.

(** Alice creates project 1 and adds Bob to it, then deletes it; the two
    membership rows stay behind. *)
Definition stale_rows_db : Session :=
  run_all NoAction NoAction
    [Op_register_user alice; Op_register_user bob;
     Op_create_project alpha 1;
     Op_add_team_member (member_of 1 2 "member") 1;
     Op_delete_project 1 1]
    empty_db.

(** Then Bob creates a project, which is given the key 1 again. *)
Definition reused_key_db : Session :=
  run NoAction NoAction (Op_create_project alpha 2) stale_rows_db.

(** Alice creates a project and deletes it, twice; each time the project
    is given the key 1 and the row of its owner stays behind.  Then Bob
    creates a project, which is given the key 1 as well. *)
Definition twice_deleted_db : Session :=
  run_all NoAction NoAction
    [Op_register_user alice; Op_register_user bob;
     Op_create_project alpha 1; Op_delete_project 1 1;
     Op_create_project alpha 1; Op_delete_project 1 1;
     Op_create_project alpha 2]
    empty_db.

(** Alice is registered and has created one hundred projects. *)
Definition hundred_projects_db : Session :=
  run_all NoAction NoAction
    (Op_register_user alice :: repeat (Op_create_project alpha 1) 100)
    empty_db.

(** * Properties *)

(** ** Lists and keys *)

Lemma find_is_Some {A : Type} (f : A -> bool) (l : list A) :
  find f l <> None <-> exists x, In x l /\ f x = true.
Proof.
  split.
  - destruct (find f l) as [x|] eqn:E; [intros _ | congruence].
    exists x. now apply find_some in E.
  - intros [x [Hin Hf]] E.
    rewrite (find_none f l E x Hin) in Hf. discriminate.
Qed.

Lemma NoDup_map_filter {A : Type} (key : A -> Z) (f : A -> bool) (l : list A) :
  NoDup (map key l) -> NoDup (map key (filter f l)).
Proof.
  induction l as [|a l IH]; simpl; intros H; [constructor|].
  inversion H as [|? ? Hnin Hnd]; subst.
  destruct (f a); simpl; auto.
  constructor; auto.
  intros Hin. apply Hnin.
  apply in_map_iff in Hin as [x [Hx Hin]].
  apply filter_In in Hin as [Hin _].
  apply in_map_iff. eauto.
Qed.

Lemma NoDup_key_inj {A : Type} (key : A -> Z) (l : list A) (a b : A) :
  NoDup (map key l) -> In a l -> In b l -> key a = key b -> a = b.
Proof.
  induction l as [|x l IH]; simpl; intros Hnd Ha Hb Hk; [contradiction|].
  inversion Hnd as [|? ? Hnin Hnd']; subst.
  destruct Ha as [<-|Ha], Hb as [<-|Hb]; auto.
  - exfalso. apply Hnin. rewrite Hk. now apply in_map.
  - exfalso. apply Hnin. rewrite <- Hk. now apply in_map.
Qed.

Lemma key_lt_next {A : Type} (key : A -> Z) (l : list A) (r : A) :
  In r l -> key r < next_key key l.
Proof.
  unfold next_key. induction l as [|x l IH]; simpl; intros H; [contradiction|].
  destruct H as [->|H]; [lia|]. specialize (IH H). lia.
Qed.

Lemma next_key_fresh {A : Type} (key : A -> Z) (l : list A) :
  ~ In (next_key key l) (map key l).
Proof.
  intros H. apply in_map_iff in H as [r [E Hr]].
  pose proof (key_lt_next key l r Hr). lia.
Qed.

Lemma NoDup_snoc {A : Type} (l : list A) (a : A) :
  NoDup l -> ~ In a l -> NoDup (l ++ [a]).
Proof.
  intros Hnd Hnin. apply NoDup_app; auto.
  - constructor; [intros [] | constructor].
  - intros x Hx [<-|[]]. contradiction.
Qed.

Lemma keys_app_fresh {A : Type} (key : A -> Z) (l : list A) (r : A) :
  NoDup (map key l) -> key r = next_key key l -> NoDup (map key (l ++ [r])).
Proof.
  intros Hnd Hr. rewrite map_app. simpl. apply NoDup_snoc; auto.
  rewrite Hr. apply next_key_fresh.
Qed.

Lemma keys_map {A : Type} (key : A -> Z) (g : A -> A) (l : list A) :
  (forall r, key (g r) = key r) ->
  NoDup (map key l) -> NoDup (map key (map g l)).
Proof.
  intros Hg Hnd. rewrite map_map. erewrite map_ext; [exact Hnd|]. auto.
Qed.

Lemma rows_app {A : Type} (f : A -> bool) (l l' : list A) :
  rows f (l ++ l') = (rows f l + rows f l')%nat.
Proof. unfold rows. now rewrite filter_app, length_app. Qed.

Lemma rows_filter_le {A : Type} (f g : A -> bool) (l : list A) :
  (rows f (filter g l) <= rows f l)%nat.
Proof.
  unfold rows. induction l as [|a l IH]; simpl; auto.
  destruct (g a), (f a) eqn:E; simpl; rewrite ?E; simpl; lia.
Qed.

Lemma rows_map_le {A : Type} (f : A -> bool) (g : A -> A) (l : list A) :
  (forall x, f (g x) = true -> f x = true) ->
  (rows f (map g l) <= rows f l)%nat.
Proof.
  intros H. unfold rows. induction l as [|a l IH]; simpl; auto.
  destruct (f (g a)) eqn:E.
  - rewrite (H a E). simpl. lia.
  - destruct (f a); simpl; lia.
Qed.

Lemma rows_find_none {A : Type} (f : A -> bool) (l : list A) :
  find f l = None -> rows f l = 0%nat.
Proof.
  unfold rows. induction l as [|a l IH]; simpl; auto.
  destruct (f a); [discriminate | auto].
Qed.

Lemma rows_none {A : Type} (f : A -> bool) (l : list A) :
  (forall x, In x l -> f x = false) -> rows f l = 0%nat.
Proof.
  unfold rows. induction l as [|a l IH]; simpl; intros H; auto.
  rewrite (H a (or_introl eq_refl)). auto.
Qed.

Lemma rows_pos_In {A : Type} (f : A -> bool) (l : list A) (x : A) :
  In x l -> f x = true -> (1 <= rows f l)%nat.
Proof.
  unfold rows. induction l as [|a l IH]; simpl; intros Hin Hf; [contradiction|].
  destruct Hin as [->|Hin].
  - rewrite Hf. simpl. lia.
  - specialize (IH Hin Hf). destruct (f a); simpl; lia.
Qed.

Lemma is_membership_spec (p u : Z) (m : TeamMember.row) :
  crud.is_membership p u m = true <->
  TeamMember.project_id m = Some p /\ TeamMember.user_id m = u.
Proof.
  unfold crud.is_membership, col_eqb.
  destruct (TeamMember.project_id m) as [q|]; simpl.
  - rewrite andb_true_iff, !Z.eqb_eq. split; intros [H1 H2]; split; congruence.
  - split; [discriminate | intros [H _]; discriminate].
Qed.

(** ** Every operation keeps the store well formed *)

Lemma wf_empty_db : wf empty_db.
Proof.
  constructor; simpl; try constructor.
  intros P [].
Qed.

Lemma wf_register_user db user : wf db -> wf (fst (main.register_user db user)).
Proof.
  intros H. unfold main.register_user.
  destruct (find _ (users db)); simpl; auto.
  destruct (find _ (users db)); simpl; auto.
  destruct H. constructor; simpl; auto.
Qed.

Lemma wf_create_task db task u : wf db -> wf (fst (crud.create_task db task u)).
Proof.
  intros H. destruct H. constructor; simpl; auto.
  apply keys_app_fresh; auto.
Qed.

Lemma wf_update_task db task_id task_update u :
  wf db -> wf (fst (crud.update_task db task_id task_update u)).
Proof.
  intros H. unfold crud.update_task.
  destruct (find _ (tasks db)) as [t|]; simpl; auto.
  destruct H. constructor; simpl; auto.
  apply keys_map; auto.
  intros r. destruct (Task.id r =? Task.id t) eqn:E; auto.
  apply Z.eqb_eq in E. simpl. congruence.
Qed.

Lemma wf_delete_task db task_id u :
  wf db -> wf (fst (crud.delete_task db task_id u)).
Proof.
  intros H. unfold crud.delete_task.
  destruct (find _ (tasks db)) as [t|]; simpl; auto.
  destruct H. constructor; simpl; auto.
  now apply NoDup_map_filter.
Qed.

Lemma wf_create_project db project u :
  wf db -> wf (fst (crud.create_project db project u)).
Proof.
  intros H. destruct H. constructor; simpl; auto.
  - apply keys_app_fresh; auto.
  - apply keys_app_fresh; auto.
  - intros P HP. apply in_app_or in HP as [HP|[<-|[]]].
    + destruct (wf_owner_row0 P HP) as [m [Hm [H1 H2]]].
      exists m. split; auto. apply in_or_app. auto.
    + eexists. split; [apply in_or_app; right; left; reflexivity|].
      simpl. split; auto.
      apply is_membership_spec. simpl. auto.
Qed.

Lemma wf_update_project db pid project_update u :
  wf db -> wf (fst (crud.update_project db pid project_update u)).
Proof.
  intros H. unfold crud.update_project.
  destruct (find _ (projects db)) as [P0|] eqn:E; simpl; auto.
  apply find_some in E as [HP0 _].
  destruct H. constructor; simpl; auto.
  - apply keys_map; auto.
    intros r. destruct (Project.id r =? Project.id P0) eqn:E; auto.
    apply Z.eqb_eq in E. simpl. congruence.
  - intros P HP. apply in_map_iff in HP as [r [Hr HP]].
    destruct (Project.id r =? Project.id P0) eqn:E.
    + subst P. simpl. auto.
    + subst P. auto.
Qed.

Lemma release_team_members_keeps pol pid l m :
  In m l -> col_eqb Z.eqb (TeamMember.project_id m) pid = false ->
  In m (crud.release_team_members pol pid l).
Proof.
  intros Hin Hne. destruct pol; simpl; auto.
  - apply in_map_iff. exists m. rewrite Hne. auto.
  - apply filter_In. rewrite Hne. auto.
Qed.

Lemma release_team_members_keys pol pid l :
  NoDup (map TeamMember.id l) ->
  NoDup (map TeamMember.id (crud.release_team_members pol pid l)).
Proof.
  destruct pol; simpl; auto.
  - apply keys_map. intros r.
    destruct (col_eqb Z.eqb (TeamMember.project_id r) pid); reflexivity.
  - apply NoDup_map_filter.
Qed.

Lemma release_tasks_keys pol pid l :
  NoDup (map Task.id l) -> NoDup (map Task.id (crud.release_tasks pol pid l)).
Proof.
  destruct pol; simpl; auto.
  - apply keys_map. intros r.
    destruct (col_eqb Z.eqb (Task.project_id r) pid); reflexivity.
  - apply NoDup_map_filter.
Qed.

Lemma wf_delete_project on_team on_tasks db pid u :
  wf db -> wf (fst (crud.delete_project on_team on_tasks db pid u)).
Proof.
  intros H. unfold crud.delete_project.
  destruct (find _ (projects db)) as [P0|] eqn:E; simpl; auto.
  destruct H. constructor; simpl.
  - now apply release_tasks_keys.
  - now apply NoDup_map_filter.
  - now apply release_team_members_keys.
  - intros P HP. apply filter_In in HP as [HP Hid].
    destruct (wf_owner_row0 P HP) as [m [Hm [H1 H2]]].
    exists m. split; auto.
    apply release_team_members_keeps; auto.
    apply is_membership_spec in H1 as [H1 _]. rewrite H1. simpl.
    now apply negb_true_iff in Hid.
Qed.

Lemma wf_add_team_member db team_member u :
  wf db -> wf (fst (crud.add_team_member db team_member u)).
Proof.
  intros H. unfold crud.add_team_member.
  destruct (find _ (projects db)) as [P0|] eqn:E; simpl; auto.
  assert (Hadd : wf (fst
    match find (crud.is_membership (project_id team_member) (user_id team_member))
               (team_members db) with
    | Some _ => (db, None)
    | None =>
        (with_team_members db
           (team_members db ++
            [{| TeamMember.id := next_key TeamMember.id (team_members db);
                TeamMember.project_id := Some (project_id team_member);
                TeamMember.user_id := user_id team_member;
                TeamMember.role := role team_member |}]),
         Some {| TeamMember.id := next_key TeamMember.id (team_members db);
                 TeamMember.project_id := Some (project_id team_member);
                 TeamMember.user_id := user_id team_member;
                 TeamMember.role := role team_member |})
    end)).
  { destruct (find (crud.is_membership _ _) (team_members db)) eqn:Em; simpl; auto.
    destruct H. constructor; simpl; auto.
    - apply keys_app_fresh; auto.
    - intros P HP. destruct (wf_owner_row0 P HP) as [m [Hm [H1 H2]]].
      exists m. split; auto. apply in_or_app. auto. }
  destruct (negb (Project.owner_id P0 =? u)); auto.
  destruct (find (crud.is_manager_membership _ _) (team_members db)); auto.
Qed.

Lemma wf_remove_team_member db pid uid u :
  wf db -> wf (fst (crud.remove_team_member db pid uid u)).
Proof.
  intros H. unfold crud.remove_team_member.
  destruct (find _ (projects db)) as [P0|] eqn:E; simpl; auto.
  apply find_some in E as [HP0 Hid]. apply Z.eqb_eq in Hid.
  assert (Hrm : wf (fst
    (if Project.owner_id P0 =? uid then (db, false)
     else
       match find (crud.is_membership pid uid) (team_members db) with
       | Some team_member =>
           (with_team_members db
              (filter (fun m => negb (TeamMember.id m =? TeamMember.id team_member))
                      (team_members db)),
            true)
       | None => (db, false)
       end))).
  { destruct (Project.owner_id P0 =? uid) eqn:Eo; simpl; auto.
    destruct (find (crud.is_membership _ _) (team_members db)) as [tm|] eqn:Em;
      simpl; auto.
    apply find_some in Em as [Htm Hmem].
    destruct H. constructor; simpl; auto.
    - now apply NoDup_map_filter.
    - intros P HP. destruct (wf_owner_row0 P HP) as [m [Hm [H1 H2]]].
      exists m. split; auto.
      apply filter_In. split; auto.
      apply negb_true_iff, Z.eqb_neq. intros Heq.
      assert (m = tm) by (eapply NoDup_key_inj; eauto).
      subst m.
      apply is_membership_spec in H1 as [H1 H1'].
      apply is_membership_spec in Hmem as [H3 H3'].
      assert (Project.id P = pid) by congruence.
      assert (P = P0).
      { eapply NoDup_key_inj with (key := Project.id); eauto. congruence. }
      subst P. apply Z.eqb_neq in Eo. congruence. }
  destruct (negb (Project.owner_id P0 =? u)); auto.
  destruct (find (crud.is_manager_membership _ _) (team_members db)); auto.
Qed.

Section Reachable.

Variables on_team on_tasks : OnDelete.

Lemma wf_run op db : wf db -> wf (run on_team on_tasks op db).
Proof.
  destruct op; simpl.
  - apply wf_register_user.
  - apply wf_create_task.
  - apply wf_update_task.
  - apply wf_delete_task.
  - apply wf_create_project.
  - apply wf_update_project.
  - apply wf_delete_project.
  - apply wf_add_team_member.
  - apply wf_remove_team_member.
Qed.

Lemma reachable_wf db : reachable on_team on_tasks db -> wf db.
Proof.
  induction 1; [apply wf_empty_db | now apply wf_run].
Qed.

Lemma reachable_run_all ops db :
  reachable on_team on_tasks db ->
  reachable on_team on_tasks (run_all on_team on_tasks ops db).
Proof.
  revert db. induction ops as [|op ops IH]; simpl; intros db H; auto.
  apply IH. now constructor.
Qed.

End Reachable.

(** ** Task access *)

Lemma task_query_spec (task_id user_id : Z) (t : Task.row) :
  (Task.id t =? task_id) && (Task.assigned_user_id t =? user_id) = true <->
  Task.id t = task_id /\ Task.assigned_user_id t = user_id.
Proof. now rewrite andb_true_iff, !Z.eqb_eq. Qed.

Lemma find_task_iff db task_id user_id :
  find (fun t => (Task.id t =? task_id) && (Task.assigned_user_id t =? user_id))
       (tasks db) <> None
  <-> assigned_task db task_id user_id.
Proof.
  rewrite find_is_Some. unfold assigned_task.
  split; intros [T [Hin H]]; exists T; split; auto; now apply task_query_spec.
Qed.

Lemma get_task_iff db task_id user_id :
  crud.get_task db task_id user_id <> None <-> assigned_task db task_id user_id.
Proof. apply find_task_iff. Qed.

Lemma update_task_iff db task_id task_update user_id :
  snd (crud.update_task db task_id task_update user_id) <> None
  <-> assigned_task db task_id user_id.
Proof.
  rewrite <- find_task_iff. unfold crud.update_task.
  destruct (find _ (tasks db)); simpl; split; congruence.
Qed.

Lemma delete_task_iff db task_id user_id :
  snd (crud.delete_task db task_id user_id) = true
  <-> assigned_task db task_id user_id.
Proof.
  rewrite <- find_task_iff. unfold crud.delete_task.
  destruct (find _ (tasks db)); simpl; split; congruence.
Qed.

Lemma tasks_add_team_member db team_member u :
  tasks (fst (crud.add_team_member db team_member u)) = tasks db.
Proof.
  unfold crud.add_team_member.
  destruct (find _ (projects db)); simpl; auto.
  destruct (negb _); [destruct (find (crud.is_manager_membership _ _) _)|];
    simpl; auto;
    destruct (find (crud.is_membership _ _) _); reflexivity.
Qed.

Lemma tasks_remove_team_member db pid uid u :
  tasks (fst (crud.remove_team_member db pid uid u)) = tasks db.
Proof.
  unfold crud.remove_team_member.
  destruct (find _ (projects db)); simpl; auto.
  destruct (negb _); [destruct (find (crud.is_manager_membership _ _) _)|];
    simpl; auto;
    destruct (_ =? uid); simpl; auto;
    destruct (find (crud.is_membership _ _) _); reflexivity.
Qed.

(** C1.  Reading, updating and deleting a task succeed on exactly the same
    (task, user) pairs: those where a task with that id exists and is
    assigned to the user.  For a task [T] of the store this is
    [T.assigned_user_id == V].  The three answers are a function of the task
    table alone, so no membership row grants access, and adding or removing
    a membership row changes the access of nobody. *)
Theorem task_access_is_assignment on_team on_tasks db task_id V task_update :
  reachable on_team on_tasks db ->
  (crud.get_task db task_id V <> None <-> assigned_task db task_id V)
  /\ (snd (crud.update_task db task_id task_update V) <> None
      <-> assigned_task db task_id V)
  /\ (snd (crud.delete_task db task_id V) = true <-> assigned_task db task_id V)
  /\ (forall T, In T (tasks db) -> Task.id T = task_id ->
        (assigned_task db task_id V <-> Task.assigned_user_id T = V))
  /\ (forall db', tasks db' = tasks db ->
        crud.get_task db' task_id V = crud.get_task db task_id V
        /\ snd (crud.update_task db' task_id task_update V)
           = snd (crud.update_task db task_id task_update V)
        /\ snd (crud.delete_task db' task_id V)
           = snd (crud.delete_task db task_id V))
  /\ (forall team_member pid uid r,
        (assigned_task (fst (crud.add_team_member db team_member r)) task_id V
         <-> assigned_task db task_id V)
        /\ (assigned_task (fst (crud.remove_team_member db pid uid r)) task_id V
            <-> assigned_task db task_id V)).
Proof.
  intros Hreach. apply reachable_wf in Hreach. destruct Hreach as [Hnd _ _ _].
  split; [apply get_task_iff|].
  split; [apply update_task_iff|].
  split; [apply delete_task_iff|].
  split; [|split].
  - intros T HT Hid. split.
    + intros [T' [HT' [Hid' Hu]]].
      assert (T' = T) by (eapply NoDup_key_inj; eauto; congruence).
      congruence.
    + intros Hu. exists T. auto.
  - intros db' E.
    unfold crud.get_task, crud.update_task, crud.delete_task. rewrite E.
    split; [reflexivity|].
    split; destruct (find _ (tasks db)); reflexivity.
  - intros team_member pid uid r. unfold assigned_task.
    rewrite tasks_add_team_member, tasks_remove_team_member.
    split; reflexivity.
Qed.

(** ** Task creation *)

Lemma tasks_run_origin on_team on_tasks op db t :
  In t (tasks (run on_team on_tasks op db)) ->
  (exists t0, In t0 (tasks db) /\ Task.id t0 = Task.id t
              /\ Task.assigned_user_id t0 = Task.assigned_user_id t)
  \/ actor op = Some (Task.assigned_user_id t).
Proof.
  assert (Hold : In t (tasks db) ->
    (exists t0, In t0 (tasks db) /\ Task.id t0 = Task.id t
                /\ Task.assigned_user_id t0 = Task.assigned_user_id t)
    \/ actor op = Some (Task.assigned_user_id t)) by (left; eauto).
  destruct op; simpl.
  - unfold main.register_user.
    destruct (find _ (users db)); simpl; auto.
    destruct (find _ (users db)); simpl; auto.
  - intros H. apply in_app_or in H as [H|[<-|[]]]; auto.
  - unfold crud.update_task.
    destruct (find _ (tasks db)) as [t0|] eqn:E; simpl; auto.
    apply find_some in E as [Ht0 _].
    intros H. apply in_map_iff in H as [x [Hx Hin]].
    destruct (Task.id x =? Task.id t0); subst t; [|auto].
    left. exists t0. auto.
  - unfold crud.delete_task.
    destruct (find _ (tasks db)) as [t0|] eqn:E; simpl; auto.
    intros H. apply filter_In in H as [H _]. auto.
  - auto.
  - unfold crud.update_project.
    destruct (find _ (projects db)); simpl; auto.
  - unfold crud.delete_project.
    destruct (find _ (projects db)); simpl; auto.
    destruct on_tasks; simpl; auto.
    + intros H. apply in_map_iff in H as [x [Hx Hin]].
      left. exists x.
      destruct (col_eqb Z.eqb (Task.project_id x) _); subst t; auto.
    + intros H. apply filter_In in H as [H _]. auto.
  - rewrite tasks_add_team_member. auto.
  - rewrite tasks_remove_team_member. auto.
Qed.

(** C3.  The task [create_task] returns is stored and is assigned to the
    caller, whatever the request carries.  Across every operation, a task
    of the resulting store either was in the store before, with the same
    assignee, or is assigned to the caller of the operation. *)
Theorem create_task_assigns_caller on_team on_tasks db (data : TaskCreate) (U : Z) :
  Task.assigned_user_id (snd (crud.create_task db data U)) = U
  /\ In (snd (crud.create_task db data U)) (tasks (fst (crud.create_task db data U)))
  /\ (forall op t,
        In t (tasks (run on_team on_tasks op db)) ->
        (exists t0, In t0 (tasks db) /\ Task.id t0 = Task.id t
                    /\ Task.assigned_user_id t0 = Task.assigned_user_id t)
        \/ actor op = Some (Task.assigned_user_id t)).
Proof.
  split; [reflexivity|].
  split.
  - simpl. apply in_or_app. right. left. reflexivity.
  - intros op t. apply tasks_run_origin.
Qed.

(** ** Project write access *)

Lemma project_query_spec (project_id user_id : Z) (p : Project.row) :
  (Project.id p =? project_id) && (Project.owner_id p =? user_id) = true <->
  Project.id p = project_id /\ Project.owner_id p = user_id.
Proof. now rewrite andb_true_iff, !Z.eqb_eq. Qed.

Lemma find_owned_project_iff db project_id user_id :
  find (fun p => (Project.id p =? project_id) && (Project.owner_id p =? user_id))
       (projects db) <> None
  <-> owned_project db project_id user_id.
Proof.
  rewrite find_is_Some. unfold owned_project.
  split; intros [P [Hin H]]; exists P; split; auto; now apply project_query_spec.
Qed.

Lemma find_project_by_id db P :
  wf db -> In P (projects db) ->
  find (fun p => Project.id p =? Project.id P) (projects db) = Some P.
Proof.
  intros Hwf HP.
  destruct (find _ (projects db)) as [P0|] eqn:E.
  - apply find_some in E as [HP0 Hid]. apply Z.eqb_eq in Hid.
    f_equal. eapply NoDup_key_inj with (key := Project.id); eauto.
    apply Hwf.
  - apply (find_none _ _ E) in HP. rewrite Z.eqb_refl in HP. discriminate.
Qed.

(** C4.  Updating and deleting a project succeed exactly for its owner.
    Every other caller, a team member with role "admin" included, gets the
    answer a missing project gets ([None], [False]) and the store is left
    as it was. *)
Theorem project_write_is_owner_only on_team on_tasks db pid V project_update :
  reachable on_team on_tasks db ->
  (snd (crud.update_project db pid project_update V) <> None
   <-> owned_project db pid V)
  /\ (snd (crud.delete_project on_team on_tasks db pid V) = true
      <-> owned_project db pid V)
  /\ (forall P, In P (projects db) -> Project.id P = pid ->
        (owned_project db pid V <-> Project.owner_id P = V))
  /\ (~ owned_project db pid V ->
        crud.update_project db pid project_update V = (db, None)
        /\ crud.delete_project on_team on_tasks db pid V = (db, false))
  /\ (forall P m,
        In P (projects db) -> Project.id P = pid -> Project.owner_id P <> V ->
        In m (team_members db) -> crud.is_membership pid V m = true ->
        TeamMember.role m = Some "admin"%string ->
        crud.update_project db pid project_update V = (db, None)
        /\ crud.delete_project on_team on_tasks db pid V = (db, false)).
Proof.
  intros Hreach. apply reachable_wf in Hreach.
  assert (Hupd : snd (crud.update_project db pid project_update V) <> None
                 <-> owned_project db pid V).
  { rewrite <- find_owned_project_iff. unfold crud.update_project.
    destruct (find _ (projects db)); simpl; split; congruence. }
  assert (Hdel : snd (crud.delete_project on_team on_tasks db pid V) = true
                 <-> owned_project db pid V).
  { rewrite <- find_owned_project_iff. unfold crud.delete_project.
    destruct (find _ (projects db)); simpl; split; congruence. }
  assert (Hown : forall P, In P (projects db) -> Project.id P = pid ->
                 (owned_project db pid V <-> Project.owner_id P = V)).
  { intros P HP Hid. split.
    - intros [P' [HP' [Hid' Hu]]].
      assert (P' = P).
      { eapply NoDup_key_inj with (key := Project.id); eauto.
        - apply Hreach.
        - congruence. }
      congruence.
    - intros Hu. exists P. auto. }
  assert (Hdeny : ~ owned_project db pid V ->
                  crud.update_project db pid project_update V = (db, None)
                  /\ crud.delete_project on_team on_tasks db pid V = (db, false)).
  { rewrite <- find_owned_project_iff.
    unfold crud.update_project, crud.delete_project.
    destruct (find _ (projects db)); [intros H; exfalso; apply H; congruence|].
    auto. }
  split; [exact Hupd|]. split; [exact Hdel|].
  split; [exact Hown|]. split; [exact Hdeny|].
  intros P m HP Hid Hne _ _ _. apply Hdeny.
  intros Ho. apply (Hown P HP Hid) in Ho. contradiction.
Qed.

(** ** Removing the owner *)

(** C5.  Removing the owner of a project from its team is refused for every
    requester, the owner included: the answer is [False] and the store,
    its membership rows included, is left as it was. *)
Theorem owner_removal_is_denied on_team on_tasks db P R :
  reachable on_team on_tasks db -> In P (projects db) ->
  crud.remove_team_member db (Project.id P) (Project.owner_id P) R = (db, false).
Proof.
  intros Hreach HP. apply reachable_wf in Hreach.
  unfold crud.remove_team_member.
  rewrite (find_project_by_id db P Hreach HP).
  rewrite Z.eqb_refl.
  destruct (negb _); [destruct (find _ (team_members db))|]; reflexivity.
Qed.

(** ** Adding a member twice *)

Lemma add_team_member_cases db (tm : TeamMemberCreate) r :
  let row := {| TeamMember.id := next_key TeamMember.id (team_members db);
                TeamMember.project_id := Some (project_id tm);
                TeamMember.user_id := user_id tm;
                TeamMember.role := role tm |} in
  crud.add_team_member db tm r = (db, None)
  \/ (find (crud.is_membership (project_id tm) (user_id tm)) (team_members db) = None
      /\ crud.add_team_member db tm r
         = (with_team_members db (team_members db ++ [row]), Some row)).
Proof.
  unfold crud.add_team_member.
  destruct (find _ (projects db)); auto.
  destruct (negb _); [destruct (find (crud.is_manager_membership _ _) _); auto|];
    destruct (find (crud.is_membership _ _) _); auto.
Qed.

Lemma add_team_member_denied db tm r :
  snd (crud.add_team_member db tm r) = None ->
  crud.add_team_member db tm r = (db, None).
Proof.
  destruct (add_team_member_cases db tm r) as [E|[_ E]]; rewrite E; auto.
  discriminate.
Qed.

Lemma add_team_member_granted db tm r :
  snd (crud.add_team_member db tm r) <> None ->
  rows (crud.is_membership (project_id tm) (user_id tm)) (team_members db) = 0%nat
  /\ rows (crud.is_membership (project_id tm) (user_id tm))
          (team_members (fst (crud.add_team_member db tm r))) = 1%nat.
Proof.
  destruct (add_team_member_cases db tm r) as [E|[Hnone E]]; rewrite E; simpl.
  - congruence.
  - intros _. rewrite rows_app, (rows_find_none _ _ Hnone). split; auto.
    unfold rows. simpl.
    unfold crud.is_membership. simpl. now rewrite !Z.eqb_refl.
Qed.

Lemma add_team_member_existing db tm r :
  (1 <= rows (crud.is_membership (project_id tm) (user_id tm)) (team_members db))%nat ->
  crud.add_team_member db tm r = (db, None).
Proof.
  intros H. destruct (add_team_member_cases db tm r) as [E|[Hnone E]]; auto.
  rewrite (rows_find_none _ _ Hnone) in H. lia.
Qed.

(** C6, as amended.  A pair that already has a membership row is refused
    with [None], the one value every refusal returns, and the store is left
    as it was.  Of two calls in sequence for the same pair at most one
    succeeds, and no duplicate is made: a call succeeds only for a pair
    without a row and leaves it with exactly one, so the pair has exactly
    one row after two calls of which one succeeded, and as many as before
    (none, for a pair without a row) when both are refused. *)
Theorem add_team_member_rejects_existing db p u role1 role2 r1 r2 :
  let n := fun s => rows (crud.is_membership p u) (team_members s) in
  let s1 :=
    crud.add_team_member db {| role := role1; user_id := u; project_id := p |} r1 in
  let s2 :=
    crud.add_team_member (fst s1)
                         {| role := role2; user_id := u; project_id := p |} r2 in
  ((1 <= n db)%nat -> s1 = (db, None) /\ s2 = (db, None))
  /\ (snd s1 = None -> s1 = (db, None))
  /\ (snd s2 = None -> s2 = (fst s1, None))
  /\ ~ (snd s1 <> None /\ snd s2 <> None)
  /\ (snd s1 <> None -> n db = 0%nat /\ n (fst s1) = 1%nat)
  /\ (snd s1 <> None \/ snd s2 <> None -> n (fst s2) = 1%nat)
  /\ (snd s1 = None -> snd s2 = None -> n (fst s2) = n db).
Proof.
  intros n s1 s2.
  set (tm1 := {| role := role1; user_id := u; project_id := p |}) in *.
  set (tm2 := {| role := role2; user_id := u; project_id := p |}) in *.
  assert (H1 : snd s1 <> None -> n db = 0%nat /\ n (fst s1) = 1%nat)
    by (apply (add_team_member_granted db tm1 r1)).
  assert (H2 : snd s2 <> None -> n (fst s1) = 0%nat /\ n (fst s2) = 1%nat)
    by (apply (add_team_member_granted (fst s1) tm2 r2)).
  assert (D1 : snd s1 = None -> s1 = (db, None))
    by (apply (add_team_member_denied db tm1 r1)).
  assert (D2 : snd s2 = None -> s2 = (fst s1, None))
    by (apply (add_team_member_denied (fst s1) tm2 r2)).
  assert (C1 : {snd s1 = None} + {snd s1 <> None})
    by (destruct (snd s1); [right; discriminate | left; reflexivity]).
  assert (C2 : {snd s2 = None} + {snd s2 <> None})
    by (destruct (snd s2); [right; discriminate | left; reflexivity]).
  split.
  { intros Hrow.
    assert (E1 : s1 = (db, None)) by (apply (add_team_member_existing db tm1 r1 Hrow)).
    split; [exact E1|].
    unfold s2. rewrite E1. simpl.
    apply (add_team_member_existing db tm2 r2 Hrow). }
  split; [exact D1|]. split; [exact D2|].
  split; [intros [A B]; destruct (H1 A), (H2 B); lia|].
  split; [exact H1|].
  destruct C1 as [N1|Y1], C2 as [N2|Y2].
  - rewrite (D2 N2). simpl. rewrite (D1 N1). simpl.
    split; [intros [A|A]; congruence | auto].
  - destruct (H2 Y2) as [_ ->]. split; [auto | congruence].
  - rewrite (D2 N2). simpl. destruct (H1 Y1) as [_ ->].
    split; [auto | congruence].
  - destruct (H1 Y1), (H2 Y2); lia.
Qed.

(** ** The membership row of the owner *)

Lemma rows_le1_unique {A : Type} (f : A -> bool) (l : list A) (a b : A) :
  (rows f l <= 1)%nat -> In a l -> In b l -> f a = true -> f b = true -> a = b.
Proof.
  unfold rows. induction l as [|x l IH]; simpl; intros Hle Ha Hb Hfa Hfb;
    [contradiction|].
  destruct (f x) eqn:E; simpl in Hle.
  - assert (Hz : rows f l = 0%nat) by (unfold rows; lia).
    assert (Hno : forall y, In y l -> f y = true -> False).
    { intros y Hy Hfy. pose proof (rows_pos_In f l y Hy Hfy). lia. }
    destruct Ha as [<-|Ha], Hb as [<-|Hb]; auto; exfalso; eauto.
  - destruct Ha as [<-|Ha]; [congruence|].
    destruct Hb as [<-|Hb]; [congruence|]. auto.
Qed.

Lemma projects_add_team_member db team_member u :
  projects (fst (crud.add_team_member db team_member u)) = projects db.
Proof.
  destruct (add_team_member_cases db team_member u) as [E|[_ E]]; now rewrite E.
Qed.

Lemma projects_remove_team_member db pid uid u :
  projects (fst (crud.remove_team_member db pid uid u)) = projects db.
Proof.
  unfold crud.remove_team_member.
  destruct (find _ (projects db)); simpl; auto.
  destruct (negb _); [destruct (find (crud.is_manager_membership _ _) _)|];
    simpl; auto;
    destruct (_ =? uid); simpl; auto;
    destruct (find (crud.is_membership _ _) _); reflexivity.
Qed.

(** Where the projects of the next state come from: a project of the state
    before with the same key and the same owner, or the fresh key. *)
Lemma projects_run_origin on_team on_tasks op db P' :
  In P' (projects (run on_team on_tasks op db)) ->
  (exists P0, In P0 (projects db) /\ Project.id P0 = Project.id P'
              /\ Project.owner_id P0 = Project.owner_id P')
  \/ Project.id P' = next_key Project.id (projects db).
Proof.
  assert (Hold : In P' (projects db) ->
    (exists P0, In P0 (projects db) /\ Project.id P0 = Project.id P'
                /\ Project.owner_id P0 = Project.owner_id P')
    \/ Project.id P' = next_key Project.id (projects db)) by (left; eauto).
  destruct op; simpl; auto.
  - unfold main.register_user.
    destruct (find _ (users db)); simpl; auto.
    destruct (find _ (users db)); simpl; auto.
  - unfold crud.update_task. destruct (find _ (tasks db)); simpl; auto.
  - unfold crud.delete_task. destruct (find _ (tasks db)); simpl; auto.
  - intros H. apply in_app_or in H as [H|[<-|[]]]; auto.
  - unfold crud.update_project.
    destruct (find _ (projects db)) as [P0|] eqn:E; simpl; auto.
    apply find_some in E as [HP0 _].
    intros H. apply in_map_iff in H as [x [Hx Hin]].
    destruct (Project.id x =? Project.id P0); subst P'; [|auto].
    left. exists P0. auto.
  - unfold crud.delete_project.
    destruct (find _ (projects db)); simpl; auto.
    intros H. apply filter_In in H as [H _]. auto.
  - rewrite projects_add_team_member. auto.
  - rewrite projects_remove_team_member. auto.
Qed.

Lemma remove_team_member_keeps_owner db pid uid r P m :
  wf db -> In P (projects db) -> In m (team_members db) ->
  crud.is_membership (Project.id P) (Project.owner_id P) m = true ->
  In m (team_members (fst (crud.remove_team_member db pid uid r))).
Proof.
  intros Hwf HP Hm Hmem. unfold crud.remove_team_member.
  destruct (find _ (projects db)) as [P0|] eqn:E; simpl; auto.
  apply find_some in E as [HP0 Hid]. apply Z.eqb_eq in Hid.
  assert (Hrm : In m (team_members (fst
    (if Project.owner_id P0 =? uid then (db, false)
     else
       match find (crud.is_membership pid uid) (team_members db) with
       | Some team_member =>
           (with_team_members db
              (filter (fun m => negb (TeamMember.id m =? TeamMember.id team_member))
                      (team_members db)),
            true)
       | None => (db, false)
       end)))).
  { destruct (Project.owner_id P0 =? uid) eqn:Eo; simpl; auto.
    destruct (find (crud.is_membership _ _) (team_members db)) as [tm|] eqn:Em;
      simpl; auto.
    apply find_some in Em as [Htm Hmem'].
    apply filter_In. split; auto.
    apply negb_true_iff, Z.eqb_neq. intros Heq.
    assert (m = tm) by (eapply NoDup_key_inj; eauto; apply Hwf).
    subst m.
    apply is_membership_spec in Hmem as [H1 H1'].
    apply is_membership_spec in Hmem' as [H3 H3'].
    assert (Project.id P = pid) by congruence.
    assert (P = P0).
    { eapply NoDup_key_inj with (key := Project.id); eauto.
      - apply Hwf.
      - congruence. }
    subst P. apply Z.eqb_neq in Eo. congruence. }
  destruct (negb (Project.owner_id P0 =? r)); auto.
  destruct (find (crud.is_manager_membership _ _) (team_members db)); auto.
Qed.

Lemma delete_project_keeps on_team on_tasks db pid u m q :
  In m (team_members db) -> TeamMember.project_id m = Some q ->
  (exists P', In P' (projects (fst (crud.delete_project on_team on_tasks db pid u)))
              /\ Project.id P' = q) ->
  In m (team_members (fst (crud.delete_project on_team on_tasks db pid u))).
Proof.
  intros Hm Hq. unfold crud.delete_project.
  destruct (find _ (projects db)) as [P0|]; simpl; auto.
  intros [P' [HP' Hid]]. apply filter_In in HP' as [_ Hne].
  apply release_team_members_keeps; auto.
  rewrite Hq. simpl. rewrite <- Hid. now apply negb_true_iff in Hne.
Qed.

Lemma owner_row_kept on_team on_tasks op db P m :
  wf db -> In P (projects db) -> In m (team_members db) ->
  crud.is_membership (Project.id P) (Project.owner_id P) m = true ->
  (exists P', In P' (projects (run on_team on_tasks op db))
              /\ Project.id P' = Project.id P) ->
  In m (team_members (run on_team on_tasks op db)).
Proof.
  intros Hwf HP Hm Hmem Hex. destruct op; simpl in *; auto.
  - unfold main.register_user.
    destruct (find _ (users db)); simpl; auto.
    destruct (find _ (users db)); simpl; auto.
  - unfold crud.update_task. destruct (find _ (tasks db)); simpl; auto.
  - unfold crud.delete_task. destruct (find _ (tasks db)); simpl; auto.
  - apply in_or_app. auto.
  - unfold crud.update_project. destruct (find _ (projects db)); simpl; auto.
  - apply is_membership_spec in Hmem as [Hq _].
    eapply delete_project_keeps; eauto.
  - destruct (add_team_member_cases db team_member requester_user_id) as [E|[_ E]];
      rewrite E; simpl; auto.
    apply in_or_app. auto.
  - eapply remove_team_member_keeps_owner; eauto.
Qed.

(** C2, as amended.  In every reachable state a project has a membership
    row of its owner (a row of the project whose [user_id] is the project's
    [owner_id]) with role "owner", the one [create_project] inserts; and no
    operation takes a row of the owner away or changes the owner while the
    project exists.  The row need not be the only one with role "owner". *)
Theorem owner_membership_invariant on_team on_tasks db P :
  reachable on_team on_tasks db -> In P (projects db) ->
  (exists m, In m (team_members db)
             /\ TeamMember.project_id m = Some (Project.id P)
             /\ TeamMember.user_id m = Project.owner_id P
             /\ TeamMember.role m = Some "owner"%string)
  /\ (forall op P',
        In P' (projects (run on_team on_tasks op db)) ->
        Project.id P' = Project.id P ->
        Project.owner_id P' = Project.owner_id P
        /\ forall m, In m (team_members db) ->
             crud.is_membership (Project.id P) (Project.owner_id P) m = true ->
             In m (team_members (run on_team on_tasks op db))).
Proof.
  intros Hreach HP. apply reachable_wf in Hreach.
  destruct (wf_owner_row db Hreach P HP) as [m0 [Hm0 [Hmem0 Hrole0]]].
  split.
  - apply is_membership_spec in Hmem0 as [Hp Hu]. exists m0. auto.
  - intros op P' HP' Hid. split.
    + destruct (projects_run_origin _ _ _ _ _ HP') as [[P0 [HP0 [Hid0 Hown0]]]|Hfresh].
      * assert (P0 = P).
        { eapply NoDup_key_inj with (key := Project.id); eauto.
          - apply Hreach.
          - congruence. }
        congruence.
      * pose proof (key_lt_next Project.id (projects db) P HP). lia.
    + intros m Hm Hmem. eapply owner_row_kept; eauto.
Qed.

(** ** The project listing *)

Lemma sql_limit_covers {A : Type} (limit : Z) (l : list A) :
  limit < 0 \/ Z.of_nat (List.length l) <= limit -> sql_limit limit l = l.
Proof.
  intros H. unfold sql_limit. destruct (limit <? 0) eqn:E; auto.
  apply Z.ltb_ge in E. apply firstn_all2. lia.
Qed.

Lemma sql_limit_length {A : Type} (limit : Z) (l : list A) :
  0 <= limit -> Z.of_nat (List.length (sql_limit limit l)) <= limit.
Proof.
  intros H. unfold sql_limit.
  assert ((limit <? 0) = false) as -> by (apply Z.ltb_ge; lia).
  pose proof (firstn_le_length (Z.to_nat limit) l). lia.
Qed.

Lemma sql_limit_prefix {A : Type} (limit : Z) (l : list A) :
  exists rest, l = sql_limit limit l ++ rest.
Proof.
  unfold sql_limit. destruct (limit <? 0).
  - exists []. now rewrite app_nil_r.
  - exists (skipn (Z.to_nat limit) l). now rewrite firstn_skipn.
Qed.

Lemma count_occ_window {A : Type} (dec : forall a b : A, {a = b} + {a <> b})
    (skip limit : Z) (l : list A) (x : A) :
  (count_occ dec (offset_limit skip limit l) x <= count_occ dec l x)%nat.
Proof.
  unfold offset_limit.
  destruct (sql_limit_prefix limit (skipn (Z.to_nat skip) l)) as [rest E].
  rewrite <- (firstn_skipn (Z.to_nat skip) l) at 2.
  rewrite E at 2. rewrite !count_occ_app. lia.
Qed.

Lemma window_covers {A : Type} (skip limit : Z) (l : list A) :
  skip <= 0 -> limit < 0 \/ Z.of_nat (List.length l) <= limit ->
  offset_limit skip limit l = l.
Proof.
  intros Hs H. unfold offset_limit.
  replace (Z.to_nat skip) with 0%nat by lia. simpl.
  now apply sql_limit_covers.
Qed.

Lemma union_once (a b : list Project.row) (P : Project.row) :
  (count_occ Project.eq_dec (crud.union a b) P <= 1)%nat
  /\ (In P a \/ In P b -> count_occ Project.eq_dec (crud.union a b) P = 1%nat).
Proof.
  unfold crud.union.
  pose proof (NoDup_nodup Project.eq_dec (a ++ b)) as Hnd.
  split.
  - now apply (proj1 (NoDup_count_occ Project.eq_dec _)).
  - intros H. apply (proj1 (NoDup_count_occ' Project.eq_dec _)); auto.
    apply nodup_In, in_or_app. exact H.
Qed.

Lemma listed_once db U P :
  In P (projects db) -> Project.owner_id P = U ->
  (forall skip limit,
      (count_occ Project.eq_dec (crud.get_projects db U skip limit) P <= 1)%nat)
  /\ (forall limit,
        limit < 0
        \/ Z.of_nat (List.length (crud.union (crud.owned_projects db U)
                                             (crud.team_projects db U))) <= limit ->
        count_occ Project.eq_dec (crud.get_projects db U 0 limit) P = 1%nat).
Proof.
  intros HP Hown. unfold crud.get_projects. split.
  - intros skip limit.
    etransitivity; [apply count_occ_window | apply union_once].
  - intros limit Hlen. rewrite (window_covers 0 limit _ (Z.le_refl 0) Hlen).
    apply union_once. left.
    apply filter_In. split; auto. now apply Z.eqb_eq.
Qed.

(** C7, as amended.  After [create_project] the row (P, U, "owner") exists,
    and P is found by both sources of the listing: among the projects U
    owns and among those U has a membership row for.  The listing of U
    names P at most once whatever the window, and exactly once when the
    window ([skip = 0] and a [limit] that is negative, which the store
    reads as none, or no smaller than the listing) covers it; so it is for
    every project U owns, in every store. *)
Theorem created_project_listed_once db (data : ProjectCreate) (U : Z) :
  let db' := fst (crud.create_project db data U) in
  let P := snd (crud.create_project db data U) in
  (exists m, In m (team_members db')
             /\ TeamMember.project_id m = Some (Project.id P)
             /\ TeamMember.user_id m = U
             /\ TeamMember.role m = Some "owner"%string)
  /\ In P (crud.owned_projects db' U)
  /\ In P (crud.team_projects db' U)
  /\ (forall skip limit,
        (count_occ Project.eq_dec (crud.get_projects db' U skip limit) P <= 1)%nat)
  /\ (forall limit,
        limit < 0
        \/ Z.of_nat (List.length (crud.union (crud.owned_projects db' U)
                                             (crud.team_projects db' U))) <= limit ->
        count_occ Project.eq_dec (crud.get_projects db' U 0 limit) P = 1%nat)
  /\ (forall db2 P2,
        In P2 (projects db2) -> Project.owner_id P2 = U ->
        (forall skip limit,
            (count_occ Project.eq_dec (crud.get_projects db2 U skip limit) P2
             <= 1)%nat)
        /\ (forall limit,
              limit < 0
              \/ Z.of_nat (List.length (crud.union (crud.owned_projects db2 U)
                                                   (crud.team_projects db2 U)))
                 <= limit ->
              count_occ Project.eq_dec (crud.get_projects db2 U 0 limit) P2
              = 1%nat)).
Proof.
  intros db' P.
  assert (HP : In P (projects db'))
    by (simpl; apply in_or_app; right; left; reflexivity).
  assert (Hown : Project.owner_id P = U) by reflexivity.
  split; [|split; [|split]].
  - eexists. split; [simpl; apply in_or_app; right; left; reflexivity|].
    simpl. auto.
  - apply filter_In. split; auto. simpl. apply Z.eqb_refl.
  - unfold crud.team_projects. apply in_flat_map.
    exists P. split; auto.
    apply in_map_iff. eexists. split; [reflexivity|].
    apply filter_In. split.
    + simpl. apply in_or_app. right. left. reflexivity.
    + simpl. now rewrite !Z.eqb_refl.
  - destruct (listed_once db' U P HP Hown) as [H1 H2].
    split; [exact H1|]. split; [exact H2|].
    intros db2 P2. apply listed_once.
Qed.

(** ** Counting *)

Lemma count_rows {A : Type} (f : A -> bool) (l : list A) :
  crud.count f l = Z.of_nat (rows f l).
Proof. reflexivity. Qed.

Lemma count_nonneg {A : Type} (f : A -> bool) (l : list A) : 0 <= crud.count f l.
Proof. unfold crud.count. lia. Qed.

Lemma count_and_le {A : Type} (f g : A -> bool) (l : list A) :
  crud.count (fun x => f x && g x) l <= crud.count f l.
Proof.
  unfold crud.count. apply inj_le.
  induction l as [|a l IH]; simpl; auto.
  destruct (f a), (g a); simpl; lia.
Qed.

Lemma count_le_all {A : Type} (f : A -> bool) (l : list A) :
  crud.count f l <= crud.count (fun _ => true) l.
Proof.
  unfold crud.count. apply inj_le.
  induction l as [|a l IH]; simpl; auto.
  destruct (f a); simpl; lia.
Qed.

Lemma rows_replace {A : Type} (key : A -> Z) (f : A -> bool) (l : list A) (a a' : A) :
  NoDup (map key l) -> In a l ->
  (rows f (map (fun r => if Z.eqb (key r) (key a) then a' else r) l)
   + (if f a then 1 else 0)
   = rows f l + (if f a' then 1 else 0))%nat.
Proof.
  unfold rows. induction l as [|x l IH]; simpl; intros Hnd Hin; [contradiction|].
  inversion Hnd as [|? ? Hnin Hnd']; subst.
  destruct Hin as [->|Hin].
  - rewrite Z.eqb_refl.
    rewrite (map_ext_in _ (fun r => r)), map_id.
    + simpl. destruct (f a), (f a'); simpl; lia.
    + intros r Hr. destruct (key r =? key a) eqn:E; auto.
      apply Z.eqb_eq in E. exfalso. apply Hnin. rewrite <- E. now apply in_map.
  - destruct (key x =? key a) eqn:E.
    + apply Z.eqb_eq in E. exfalso. apply Hnin. rewrite E. now apply in_map.
    + specialize (IH Hnd' Hin). simpl. destruct (f x); simpl; lia.
Qed.

Lemma find_task_of db T :
  wf db -> In T (tasks db) ->
  find (fun t => (Task.id t =? Task.id T)
                 && (Task.assigned_user_id t =? Task.assigned_user_id T))
       (tasks db) = Some T.
Proof.
  intros Hwf HT.
  destruct (find _ (tasks db)) as [T0|] eqn:E.
  - apply find_some in E as [HT0 Hq]. apply task_query_spec in Hq as [Hid _].
    f_equal. eapply NoDup_key_inj with (key := Task.id); eauto.
    apply Hwf.
  - apply (find_none _ _ E) in HT. rewrite !Z.eqb_refl in HT. discriminate.
Qed.

Lemma for_each_total {A B : Type} (body : A -> crud.result B) (g : A -> B)
    (l : list A) :
  (forall a, In a l -> body a = inr (g a)) ->
  crud.for_each body l = inr (map g l).
Proof.
  induction l as [|a l IH]; simpl; intros H; auto.
  rewrite (H a (or_introl eq_refl)). simpl.
  rewrite IH; auto.
Qed.

(** ** Analytics *)

Section ReportingProperties.

Variable float : Type.
Variable int_truediv : Z -> Z -> float.
Variable float_mul : float -> Z -> float.
Variable float_round : float -> Z -> float.

Local Abbreviation spec_rate :=
  (completion_rate_spec int_truediv float_mul float_round).

Lemma completion_rate_expr_total (c t : Z) :
  0 <= t ->
  exists x, crud.completion_rate_expr float int_truediv float_mul c t = inr x
            /\ crud.round float float_round x 2 = spec_rate c t.
Proof.
  intros Ht. unfold crud.completion_rate_expr, crud.truediv,
    completion_rate_spec.
  destruct (0 <? t) eqn:E.
  - apply Z.ltb_lt in E.
    assert ((t =? 0) = false) as -> by (apply Z.eqb_neq; lia).
    simpl. eauto.
  - apply Z.ltb_ge in E.
    assert ((t =? 0) = true) as -> by (apply Z.eqb_eq; lia).
    simpl. eauto.
Qed.

Lemma spec_rate_zero (c : Z) : spec_rate c 0 = crud.Int 0.
Proof. reflexivity. Qed.

(** C8.  Neither statistics function raises: each returns its record(s).
    The completion rate it reports is the one the specification words, for
    the completed and total counts it reports, with
    [0 <= completed <= total]; it is the integer 0 when the total is 0, and
    the division is only ever asked for a positive total. *)
Theorem completion_rate_is_guarded db :
  (exists r,
      crud.get_system_overview float int_truediv float_mul float_round db = inr r
      /\ crud.so_total_tasks r = crud.count (fun _ => true) (tasks db)
      /\ crud.so_completed_tasks r
         = crud.count (fun t => col_eqb TaskStatus.eqb (Task.status t)
                                        TaskStatus.COMPLETED) (tasks db)
      /\ 0 <= crud.so_completed_tasks r <= crud.so_total_tasks r
      /\ crud.so_completion_rate r
         = spec_rate (crud.so_completed_tasks r) (crud.so_total_tasks r)
      /\ (crud.so_total_tasks r = 0 -> crud.so_completion_rate r = crud.Int 0))
  /\ (exists l,
        crud.get_user_task_statistics float int_truediv float_mul float_round db
        = inr l
        /\ map crud.us_user_id l = map User.id (users db)
        /\ Forall
             (fun s =>
                crud.us_total_tasks s
                = crud.count (fun t => Task.assigned_user_id t =? crud.us_user_id s)
                             (tasks db)
                /\ crud.us_completed_tasks s
                   = crud.user_tasks_in db (crud.us_user_id s) TaskStatus.COMPLETED
                /\ 0 <= crud.us_completed_tasks s <= crud.us_total_tasks s
                /\ crud.us_completion_rate s
                   = spec_rate (crud.us_completed_tasks s) (crud.us_total_tasks s)
                /\ (crud.us_total_tasks s = 0 ->
                    crud.us_completion_rate s = crud.Int 0))
             l).
Proof.
  split.
  - unfold crud.get_system_overview.
    set (total := crud.count (fun _ => true) (tasks db)).
    set (completed := crud.count _ (tasks db)).
    destruct (completion_rate_expr_total completed total (count_nonneg _ _))
      as [x [Ex Hx]].
    rewrite Ex. simpl. eexists. split; [reflexivity|]. simpl.
    split; [reflexivity|]. split; [reflexivity|].
    split; [split; [apply count_nonneg | apply count_le_all]|].
    split; [exact Hx|].
    intros E. rewrite Hx, E. apply spec_rate_zero.
  - unfold crud.get_user_task_statistics.
    set (g := fun user : User.row =>
      let total := crud.count (fun t => Task.assigned_user_id t =? User.id user)
                              (tasks db) in
      let completed := crud.user_tasks_in db (User.id user) TaskStatus.COMPLETED in
      {| crud.us_user_id := User.id user;
         crud.us_user_name := crud.or_else (User.full_name user) (User.username user);
         crud.us_user_email := User.email user;
         crud.us_total_tasks := total;
         crud.us_completed_tasks := completed;
         crud.us_in_progress_tasks :=
           crud.user_tasks_in db (User.id user) TaskStatus.IN_PROGRESS;
         crud.us_pending_tasks :=
           crud.user_tasks_in db (User.id user) TaskStatus.PENDING;
         crud.us_cancelled_tasks :=
           crud.user_tasks_in db (User.id user) TaskStatus.CANCELLED;
         crud.us_completion_rate := spec_rate completed total |}).
    exists (map g (users db)). split; [|split].
    + apply for_each_total. intros user _.
      destruct (completion_rate_expr_total
                  (crud.user_tasks_in db (User.id user) TaskStatus.COMPLETED)
                  (crud.count (fun t => Task.assigned_user_id t =? User.id user)
                              (tasks db))
                  (count_nonneg _ _)) as [x [Ex Hx]].
      rewrite Ex. simpl. unfold crud.ret, g. simpl. rewrite Hx. reflexivity.
    + rewrite map_map. reflexivity.
    + apply Forall_forall. intros s Hs.
      apply in_map_iff in Hs as [user [<- _]]. simpl.
      split; [reflexivity|]. split; [reflexivity|].
      split; [split; [apply count_nonneg | apply count_and_le]|].
      split; [reflexivity|].
      intros E. rewrite E. apply spec_rate_zero.
Qed.

End ReportingProperties.

(** ** The project of a task *)

Section TaskProject.

Variable float : Type.
Variable int_truediv : Z -> Z -> float.
Variable float_mul : float -> Z -> float.
Variable float_round : float -> Z -> float.
Variables on_team on_tasks : OnDelete.

Lemma project_statistics_total db :
  exists l,
    crud.get_project_task_statistics float int_truediv float_mul float_round db
    = inr l
    /\ map crud.ps_project_id l = map Project.id (projects db)
    /\ Forall (fun e => crud.ps_total_tasks e
                        = tasks_of_project db (crud.ps_project_id e)) l.
Proof.
  unfold crud.get_project_task_statistics.
  set (g := fun project : Project.row =>
    let total := crud.count (fun t => col_eqb Z.eqb (Task.project_id t)
                                              (Project.id project)) (tasks db) in
    let completed :=
      crud.project_tasks_in db (Project.id project) TaskStatus.COMPLETED in
    {| crud.ps_project_id := Project.id project;
       crud.ps_project_name := Project.name project;
       crud.ps_total_tasks := total;
       crud.ps_completed_tasks := completed;
       crud.ps_in_progress_tasks :=
         crud.project_tasks_in db (Project.id project) TaskStatus.IN_PROGRESS;
       crud.ps_pending_tasks :=
         crud.project_tasks_in db (Project.id project) TaskStatus.PENDING;
       crud.ps_cancelled_tasks :=
         crud.project_tasks_in db (Project.id project) TaskStatus.CANCELLED;
       crud.ps_completion_rate :=
         completion_rate_spec int_truediv float_mul float_round completed total;
       crud.ps_team_size :=
         crud.count (fun m => col_eqb Z.eqb (TeamMember.project_id m)
                                      (Project.id project)) (team_members db) |}).
  exists (map g (projects db)). split; [|split].
  - apply for_each_total. intros project _.
    destruct (completion_rate_expr_total float int_truediv float_mul float_round
                (crud.project_tasks_in db (Project.id project) TaskStatus.COMPLETED)
                (crud.count (fun t => col_eqb Z.eqb (Task.project_id t)
                                              (Project.id project)) (tasks db))
                (count_nonneg _ _)) as [x [Ex Hx]].
    rewrite Ex. simpl. unfold crud.ret, g. simpl. rewrite Hx. reflexivity.
  - rewrite map_map. reflexivity.
  - apply Forall_forall. intros e He.
    apply in_map_iff in He as [project [<- _]]. reflexivity.
Qed.

(** C10.  [create_task] stores the [project_id] of the request as it is and
    [update_task] overwrites it with the one of the patch; neither reads the
    project table or the membership rows, so the project may be any key,
    one the caller has no access to or one that does not exist.  The task
    then adds one to the raw task count of that project, which is the
    [tasks_count] of the project detail and the [total_tasks] of the
    per-project statistics. *)
Theorem task_project_is_unchecked db (data : TaskCreate) (task_update : TaskUpdate)
    (U P : Z) :
  (let r := crud.create_task db data U in
   Task.project_id (snd r) = tc_project_id data
   /\ Task.assigned_user_id (snd r) = U
   /\ In (snd r) (tasks (fst r))
   /\ (tc_project_id data = Some P ->
       tasks_of_project (fst r) P = tasks_of_project db P + 1)
   /\ (forall db2, tasks db2 = tasks db ->
         snd (crud.create_task db2 data U) = snd r
         /\ tasks (fst (crud.create_task db2 data U)) = tasks (fst r)))
  /\ (forall T,
        reachable on_team on_tasks db ->
        In T (tasks db) -> Task.assigned_user_id T = U ->
        tu_project_id task_update = Some (Some P) ->
        let r := crud.update_task db (Task.id T) task_update U in
        exists T',
          snd r = Some T'
          /\ Task.id T' = Task.id T
          /\ Task.project_id T' = Some P
          /\ In T' (tasks (fst r))
          /\ (Task.project_id T <> Some P ->
              tasks_of_project (fst r) P = tasks_of_project db P + 1)
          /\ (forall db2, tasks db2 = tasks db ->
                snd (crud.update_task db2 (Task.id T) task_update U) = snd r))
  /\ (forall s V d,
        crud.get_project_with_team s P V = Some d ->
        crud.pd_tasks_count d = tasks_of_project s P)
  /\ (forall s, exists l,
        crud.get_project_task_statistics float int_truediv float_mul float_round s
        = inr l
        /\ map crud.ps_project_id l = map Project.id (projects s)
        /\ Forall (fun e => crud.ps_total_tasks e
                            = tasks_of_project s (crud.ps_project_id e)) l).
Proof.
  split; [|split; [|split]].
  - simpl. split; [reflexivity|]. split; [reflexivity|].
    split; [apply in_or_app; right; left; reflexivity|].
    split.
    + intros E. unfold tasks_of_project. simpl.
      rewrite !count_rows, rows_app. unfold rows at 2. simpl.
      rewrite E. simpl. rewrite Z.eqb_refl. simpl. lia.
    + intros db2 E1. unfold crud.create_task. simpl. rewrite E1. auto.
  - intros T Hreach HT HU Hpatch. apply reachable_wf in Hreach. subst U.
    unfold crud.update_task.
    rewrite (find_task_of db T Hreach HT). simpl.
    exists (apply_task_update task_update T).
    split; [reflexivity|]. split; [reflexivity|].
    split; [simpl; now rewrite Hpatch|].
    split; [|split].
    + apply in_map_iff. exists T. rewrite Z.eqb_refl. auto.
    + intros Hne. unfold tasks_of_project. simpl. rewrite !count_rows.
      pose proof (rows_replace Task.id
                    (fun t => col_eqb Z.eqb (Task.project_id t) P)
                    (tasks db) T (apply_task_update task_update T)
                    (wf_tasks db Hreach) HT) as Hr.
      simpl in Hr. rewrite Hpatch in Hr. simpl in Hr. rewrite Z.eqb_refl in Hr.
      assert (col_eqb Z.eqb (Task.project_id T) P = false) as E.
      { destruct (Task.project_id T) as [q|]; simpl; auto.
        apply Z.eqb_neq. congruence. }
      rewrite E in Hr. lia.
    + intros db2 E. rewrite E, (find_task_of db T Hreach HT). reflexivity.
  - intros s V d. unfold crud.get_project_with_team.
    destruct (crud.get_project s P V); [|discriminate].
    intros [= <-]. reflexivity.
  - intros s. apply project_statistics_total.
Qed.

End TaskProject.
(** ** The user search *)

Lemma like_percent (p s : str) :
  crud.like (crud.percent :: p) s
  = crud.like p s
    || match s with
       | [] => false
       | _ :: s' => crud.like (crud.percent :: p) s'
       end.
Proof. destruct s; reflexivity. Qed.

Lemma like_any (s : str) : crud.like [crud.percent] s = true.
Proof.
  induction s as [|d s IH]; [reflexivity|].
  rewrite like_percent. rewrite IH. apply orb_true_r.
Qed.

Lemma like_literal_cons (c : codepoint) (p s : str) :
  literal c = true ->
  crud.like (c :: p) s
  = match s with
    | [] => false
    | d :: s' => N.eqb c d && crud.like p s'
    end.
Proof.
  unfold literal. rewrite andb_true_iff, !negb_true_iff. intros [H1 H2].
  simpl. rewrite H1, H2. reflexivity.
Qed.

Lemma like_literal_prefix (q s : str) :
  forallb literal q = true ->
  crud.like (q ++ [crud.percent]) s = prefixb q s.
Proof.
  revert s. induction q as [|c q IH]; intros s Hq.
  - simpl app. rewrite like_any. reflexivity.
  - simpl in Hq. apply andb_true_iff in Hq as [Hc Hq].
    simpl app. rewrite (like_literal_cons c _ s Hc).
    destruct s as [|d s]; simpl; auto.
    now rewrite IH.
Qed.

Lemma like_literal_infix (q s : str) :
  forallb literal q = true ->
  crud.like (crud.percent :: q ++ [crud.percent]) s = infixb q s.
Proof.
  intros Hq. induction s as [|d s IH].
  - rewrite like_percent, like_literal_prefix by auto.
    simpl. now rewrite orb_false_r.
  - rewrite like_percent, like_literal_prefix by auto.
    rewrite IH. reflexivity.
Qed.

Lemma literal_lower_char (c : codepoint) :
  literal c = true -> literal (crud.lower_char c) = true.
Proof.
  unfold literal, crud.lower_char, crud.percent, crud.underscore.
  rewrite !andb_true_iff, !negb_true_iff, !N.eqb_neq. intros [H1 H2].
  destruct (N.leb 65 c && N.leb c 90)%bool eqn:E; [|auto].
  apply andb_true_iff in E as [E1 E2].
  apply N.leb_le in E1, E2. split; lia.
Qed.

Lemma lower_char_fixes_wildcards :
  crud.lower_char crud.percent = crud.percent
  /\ crud.lower_char crud.underscore = crud.underscore.
Proof. split; reflexivity. Qed.

Lemma literal_lower (q : str) :
  forallb literal q = true -> forallb literal (crud.lower q) = true.
Proof.
  induction q as [|c q IH]; simpl; auto.
  rewrite !andb_true_iff. intros [Hc Hq].
  split; [now apply literal_lower_char | auto].
Qed.

(** X20.  For a fragment without [%] and [_] the query is the substring
    search of the specification: it returns, in the order of the store and
    up to the limit, the users whose email contains the fragment, letter
    case ignored. *)
Lemma search_literal_fragment db (q : str) (limit : Z) :
  forallb literal q = true ->
  crud.search_users_by_email db q limit = search_users_by_fragment db q limit.
Proof.
  intros Hq. unfold crud.search_users_by_email, search_users_by_fragment.
  f_equal. apply filter_ext. intros u. unfold crud.ilike.
  unfold crud.lower. rewrite !map_app. simpl map at 1 3.
  change (crud.lower_char crud.percent) with crud.percent.
  apply (like_literal_infix (map crud.lower_char q)).
  now apply literal_lower.
Qed.

(** C9, at the input where the code departs from it.  The fragment [___]
    is three characters long, so the endpoint lets it through; no email of
    the store contains it, so a literal search finds nobody; the query
    returns every user, and so it does for [%%%], for [_] reads as any one
    character and [%] as any run of characters. *)
Theorem search_fragment_wildcards :
  search_users_by_fragment team_db (text "___") 10 = []
  /\ crud.search_users_by_email team_db (text "___") 10 = users team_db
  /\ crud.search_users_by_email team_db (text "%%%") 10 = users team_db
  /\ main.search_users team_db (text "___")
     = inr [(1, text "alice@x.com", Some "Alice"%string);
            (2, text "bob@x.com", None);
            (3, text "carol@x.com", Some "Carol"%string)].
Proof. repeat split; vm_compute; reflexivity. Qed.

(** ** The sample stores *)

Lemma team_db_reachable : reachable NoAction NoAction team_db.
Proof. apply reachable_run_all, reachable_empty. Qed.

Lemma two_owners_db_reachable : reachable NoAction NoAction two_owners_db.
Proof. apply reachable_run_all, reachable_empty. Qed.

Lemma stale_rows_db_reachable : reachable NoAction NoAction stale_rows_db.
Proof. apply reachable_run_all, reachable_empty. Qed.

Lemma reused_key_db_reachable : reachable NoAction NoAction reused_key_db.
Proof. apply reachable_run, stale_rows_db_reachable. Qed.

Lemma twice_deleted_db_reachable : reachable NoAction NoAction twice_deleted_db.
Proof. apply reachable_run_all, reachable_empty. Qed.

Lemma hundred_projects_db_reachable : reachable NoAction NoAction hundred_projects_db.
Proof. apply reachable_run_all, reachable_empty. Qed.

(** C1 at [team_db]: Alice reads her task 1; Bob, an admin of the project
    the task belongs to, does not. *)
Lemma task_access_is_assignment_witness :
  reachable NoAction NoAction team_db
  /\ crud.get_task team_db 1 1 <> None
  /\ crud.get_task team_db 1 2 = None
  /\ (assigned_task team_db 1 2 <-> 1 = 2).
Proof.
  pose proof (task_access_is_assignment NoAction NoAction team_db 1 1
                (Build_TaskUpdate None None None None None None)
                team_db_reachable) as [Hget _].
  pose proof (task_access_is_assignment NoAction NoAction team_db 1 2
                (Build_TaskUpdate None None None None None None)
                team_db_reachable) as [_ [_ [_ [Hown _]]]].
  split; [exact team_db_reachable|].
  split; [|split].
  - apply Hget. eexists. split; [left; reflexivity|]. split; reflexivity.
  - reflexivity.
  - apply (Hown (snd (crud.create_task
                        (run_all NoAction NoAction
                           [Op_register_user alice; Op_register_user bob;
                            Op_register_user carol; Op_create_project alpha 1]
                           empty_db)
                        (task_in (Some 1)) 1))).
    + left. reflexivity.
    + reflexivity.
Defined.

(** C4 at [team_db]: Bob is an admin of project 1 and may not write it. *)
Lemma project_write_is_owner_only_witness :
  reachable NoAction NoAction team_db
  /\ crud.update_project team_db 1 (Build_ProjectUpdate None None None) 2
     = (team_db, None)
  /\ crud.delete_project NoAction NoAction team_db 1 2 = (team_db, false).
Proof.
  split; [exact team_db_reachable|].
  pose proof (project_write_is_owner_only NoAction NoAction team_db 1 2
                (Build_ProjectUpdate None None None) team_db_reachable)
    as [_ [_ [_ [_ Hadmin]]]].
  apply (Hadmin (snd (crud.create_project
                        (run_all NoAction NoAction
                           [Op_register_user alice; Op_register_user bob;
                            Op_register_user carol] empty_db)
                        alpha 1))
                {| TeamMember.id := 2; TeamMember.project_id := Some 1;
                   TeamMember.user_id := 2;
                   TeamMember.role := Some "admin"%string |}).
  - left. reflexivity.
  - reflexivity.
  - simpl. lia.
  - right. left. reflexivity.
  - reflexivity.
  - reflexivity.
Defined.

(** C5 at [team_db]: Alice, the owner of project 1, asks to remove herself. *)
Lemma owner_removal_is_denied_witness :
  reachable NoAction NoAction team_db
  /\ crud.remove_team_member team_db 1 1 1 = (team_db, false).
Proof.
  split; [exact team_db_reachable|].
  apply (owner_removal_is_denied NoAction NoAction team_db
           (snd (crud.create_project
                   (run_all NoAction NoAction
                      [Op_register_user alice; Op_register_user bob;
                       Op_register_user carol] empty_db)
                   alpha 1))
           1 team_db_reachable).
  left. reflexivity.
Defined.

(** C6, as amended, at [team_db]: Alice adds Carol twice; the first call
    succeeds, the second is refused and Carol has one row. *)
Lemma add_team_member_rejects_existing_witness :
  snd (crud.add_team_member team_db (member_of 1 3 "member") 1) <> None
  /\ snd (crud.add_team_member
            (fst (crud.add_team_member team_db (member_of 1 3 "member") 1))
            (member_of 1 3 "member") 1) = None
  /\ rows (crud.is_membership 1 3)
          (team_members
             (fst (crud.add_team_member
                     (fst (crud.add_team_member team_db (member_of 1 3 "member") 1))
                     (member_of 1 3 "member") 1)))
     = 1%nat.
Proof.
  pose proof (add_team_member_rejects_existing team_db 1 3
                (Some "member"%string) (Some "member"%string) 1 1)
    as [_ [_ [_ [_ [_ [H _]]]]]].
  split; [discriminate|]. split; [reflexivity|].
  apply H. left. discriminate.
Defined.

(** C2, as amended, at [two_owners_db]: project 1 has a row with the role
    "owner" for its owner Alice, and removing the row of Bob, which has
    that role too, keeps it. *)
Lemma owner_membership_invariant_witness :
  reachable NoAction NoAction two_owners_db
  /\ (exists m, In m (team_members two_owners_db)
                /\ TeamMember.project_id m = Some 1
                /\ TeamMember.user_id m = 1
                /\ TeamMember.role m = Some "owner"%string)
  /\ (forall m, In m (team_members two_owners_db) ->
                crud.is_membership 1 1 m = true ->
                In m (team_members
                        (run NoAction NoAction (Op_remove_team_member 1 2 1)
                             two_owners_db))).
Proof.
  split; [exact two_owners_db_reachable|].
  destruct (owner_membership_invariant NoAction NoAction two_owners_db
              (snd (crud.create_project
                      (run_all NoAction NoAction
                         [Op_register_user alice; Op_register_user bob] empty_db)
                      alpha 1))
              two_owners_db_reachable) as [Hrow Hkeep].
  - left. reflexivity.
  - split; [exact Hrow|].
    intros m Hm Hmem.
    apply (Hkeep (Op_remove_team_member 1 2 1)
                 (snd (crud.create_project
                         (run_all NoAction NoAction
                            [Op_register_user alice; Op_register_user bob] empty_db)
                         alpha 1))); auto.
    left. reflexivity.
Defined.

(** C7, as amended, at [team_db]: Alice creates a second project and lists
    her projects with the default window. *)
Lemma created_project_listed_once_witness :
  count_occ Project.eq_dec
            (crud.get_projects (fst (crud.create_project team_db alpha 1)) 1 0 100)
            (snd (crud.create_project team_db alpha 1))
  = 1%nat.
Proof.
  pose proof (created_project_listed_once team_db alpha 1)
    as [_ [_ [_ [_ [H _]]]]].
  apply H. right. apply Z.leb_le. reflexivity.
Defined.

(** C10 at [team_db]: Carol, who has no access to project 1, has a task
    without a project and points it to project 1. *)
Lemma task_project_is_unchecked_witness :
  tasks_of_project
    (fst (crud.update_task (fst (crud.create_task team_db (task_in None) 3)) 2
            (Build_TaskUpdate None None None None (Some (Some 1)) None) 3)) 1
  = tasks_of_project (fst (crud.create_task team_db (task_in None) 3)) 1 + 1
  /\ crud.get_project (fst (crud.create_task team_db (task_in None) 3)) 1 3 = None.
Proof.
  split; [|reflexivity].
  pose proof (task_project_is_unchecked unit (fun _ _ => tt) (fun _ _ => tt)
                (fun _ _ => tt) NoAction NoAction
                (fst (crud.create_task team_db (task_in None) 3))
                (task_in None)
                (Build_TaskUpdate None None None None (Some (Some 1)) None)
                3 1) as [_ [Hupd _]].
  destruct (Hupd (snd (crud.create_task team_db (task_in None) 3)))
    as [T' [_ [_ [_ [_ [Hcount _]]]]]].
  - apply (reachable_run NoAction NoAction (Op_create_task (task_in None) 3)).
    exact team_db_reachable.
  - simpl. right. left. reflexivity.
  - reflexivity.
  - reflexivity.
  - apply Hcount. discriminate.
Defined.

(** C3 at [team_db]: Carol creates a task in project 1, where she has no
    membership; the task is hers. *)
Lemma create_task_assigns_caller_witness :
  Task.assigned_user_id (snd (crud.create_task team_db (task_in (Some 1)) 3)) = 3
  /\ ((exists t0, In t0 (tasks team_db) /\ Task.id t0 = 2
                  /\ Task.assigned_user_id t0 = 3)
      \/ actor (Op_create_task (task_in (Some 1)) 3) = Some 3).
Proof.
  pose proof (create_task_assigns_caller NoAction NoAction team_db
                (task_in (Some 1)) 3) as [H1 [_ H3]].
  split; [exact H1|].
  apply (H3 (Op_create_task (task_in (Some 1)) 3)
            (snd (crud.create_task team_db (task_in (Some 1)) 3))).
  simpl. right. left. reflexivity.
Defined.

(** C8 at the empty store and at [team_db], whose one task is pending. *)
Lemma completion_rate_is_guarded_witness :
  (exists r, crud.get_system_overview sym Quot Mul Round empty_db = inr r
             /\ crud.so_completion_rate r = crud.Int 0)
  /\ (exists r, crud.get_system_overview sym Quot Mul Round team_db = inr r
                /\ crud.so_completion_rate r
                   = crud.Float (Round (Mul (Quot 0 1) 100) 2)).
Proof.
  split.
  - destruct (completion_rate_is_guarded sym Quot Mul Round empty_db)
      as [[r [E [_ [_ [_ [_ H0]]]]]] _].
    exists r. split; [exact E|]. apply H0.
    vm_compute in E. inversion E. reflexivity.
  - destruct (completion_rate_is_guarded sym Quot Mul Round team_db)
      as [[r [E [_ [_ [_ [H _]]]]]] _].
    exists r. split; [exact E|]. rewrite H.
    vm_compute in E. inversion E. reflexivity.
Defined.

(** ** Where the claims as stated fail *)

(** C2: after Alice has added Bob with the role "owner", project 1 has two
    membership rows with that role, and the one of Bob can be removed. *)
Lemma owner_role_row_is_not_unique :
  reachable NoAction NoAction two_owners_db
  /\ (exists P, In P (projects two_owners_db)
                /\ rows (has_owner_role (Project.id P)) (team_members two_owners_db)
                   = 2%nat)
  /\ snd (crud.remove_team_member two_owners_db 1 2 1) = true.
Proof.
  split; [exact two_owners_db_reachable|]. split; [|reflexivity].
  eexists. split; [left; reflexivity|]. reflexivity.
Qed.

(** C6: Carol has no membership in project 1 and asks twice to be added;
    both calls are refused and the pair has no row. *)
Lemma refused_twice_leaves_no_row :
  reachable NoAction NoAction team_db
  /\ snd (crud.add_team_member team_db (member_of 1 3 "member") 3) = None
  /\ snd (crud.add_team_member
            (fst (crud.add_team_member team_db (member_of 1 3 "member") 3))
            (member_of 1 3 "member") 3) = None
  /\ rows (crud.is_membership 1 3)
          (team_members
             (fst (crud.add_team_member
                     (fst (crud.add_team_member team_db (member_of 1 3 "member") 3))
                     (member_of 1 3 "member") 3)))
     = 0%nat.
Proof.
  split; [exact team_db_reachable|]. repeat split.
Qed.

(** C7: Alice has a hundred projects and creates one more; the listing with
    the default window of 100 rows does not name it, and no list of 100
    rows names all her projects. *)
Lemma default_window_misses_project :
  reachable NoAction NoAction hundred_projects_db
  /\ count_occ Project.eq_dec
       (crud.get_projects (fst (crud.create_project hundred_projects_db alpha 1))
                          1 0 100)
       (snd (crud.create_project hundred_projects_db alpha 1))
     = 0%nat
  /\ (forall l : list Project.row,
        (List.length l <= 100)%nat ->
        ~ incl (crud.owned_projects
                  (fst (crud.create_project hundred_projects_db alpha 1)) 1) l).
Proof.
  split; [exact hundred_projects_db_reachable|].
  split; [vm_compute; reflexivity|].
  intros l Hl Hincl.
  assert (Hnd : NoDup (crud.owned_projects
                         (fst (crud.create_project hundred_projects_db alpha 1)) 1)).
  { apply (NoDup_map_inv Project.id). apply NoDup_map_filter.
    apply (wf_create_project hundred_projects_db alpha 1).
    apply (reachable_wf NoAction NoAction), hundred_projects_db_reachable. }
  pose proof (NoDup_incl_length Hnd Hincl) as Hlen.
  assert (E : List.length (crud.owned_projects
                (fst (crud.create_project hundred_projects_db alpha 1)) 1) = 101%nat)
    by (vm_compute; reflexivity).
  rewrite E in Hlen. lia.
Qed.

(** ** Keys that are handed out again *)

(** The store gives a new row the largest key in use plus one, so the key
    of a deleted project is handed out again, and membership rows that the
    delete left behind belong to the new project.  In [reused_key_db] Bob
    owns project 1 and holds two rows of it, and Alice, the owner of the
    deleted project, reads the new one and has the standing of an owner in
    it. *)
Lemma reused_key_keeps_old_rows :
  reachable NoAction NoAction reused_key_db
  /\ map Project.id (projects reused_key_db) = [1]
  /\ map Project.owner_id (projects reused_key_db) = [2]
  /\ rows (crud.is_membership 1 2) (team_members reused_key_db) = 2%nat
  /\ rows (has_owner_role 1) (team_members reused_key_db) = 2%nat
  /\ crud.get_project reused_key_db 1 1 <> None
  /\ has_standing reused_key_db 1 1 = true.
Proof.
  split; [exact reused_key_db_reachable|].
  repeat split; vm_compute; congruence.
Qed.

(** In [twice_deleted_db] Alice holds two rows of project 1, which Bob
    owns: the team list names her twice, a call that adds her is refused
    and leaves both rows, and after Bob has removed her she has one row
    left and still reads the project. *)
Lemma removal_can_leave_a_row :
  reachable NoAction NoAction twice_deleted_db
  /\ option_map (map TeamMember.user_id) (crud.get_team_members twice_deleted_db 1 2)
     = Some [1; 1; 2]
  /\ rows (crud.is_membership 1 1) (team_members twice_deleted_db) = 2%nat
  /\ crud.add_team_member twice_deleted_db (member_of 1 1 "member") 2
     = (twice_deleted_db, None)
  /\ snd (crud.remove_team_member twice_deleted_db 1 1 2) = true
  /\ rows (crud.is_membership 1 1)
          (team_members (fst (crud.remove_team_member twice_deleted_db 1 1 2)))
     = 1%nat
  /\ crud.get_project (fst (crud.remove_team_member twice_deleted_db 1 1 2)) 1 1
     <> None.
Proof.
  split; [exact twice_deleted_db_reachable|].
  repeat split; vm_compute; congruence.
Qed.

(** * Further properties of the operations *)

(** ** Queries over lists *)

Lemma find_append {A : Type} (f : A -> bool) (l l' : list A) :
  find f (l ++ l') = match find f l with
                     | Some x => Some x
                     | None => find f l'
                     end.
Proof.
  induction l as [|a l IH]; simpl; auto.
  destruct (f a); auto.
Qed.

Lemma find_none_iff {A : Type} (f : A -> bool) (l : list A) :
  find f l = None <-> forall x, In x l -> f x = false.
Proof.
  split.
  - intros E x Hx. exact (find_none f l E x Hx).
  - intros H. destruct (find f l) as [x|] eqn:E; auto.
    apply find_some in E as [Hx Hf]. rewrite (H x Hx) in Hf. discriminate.
Qed.

Lemma find_filter_none {A : Type} (f g : A -> bool) (l : list A) :
  (forall x, In x l -> g x = true -> f x = false) ->
  find f (filter g l) = None.
Proof.
  intros H. apply find_none_iff. intros x Hx.
  apply filter_In in Hx as [Hx Hg]. auto.
Qed.

Lemma find_filter_same {A : Type} (f g : A -> bool) (l : list A) :
  (forall x, In x l -> f x = true -> g x = true) ->
  find f (filter g l) = find f l.
Proof.
  induction l as [|a l IH]; simpl; intros H; auto.
  destruct (g a) eqn:Eg; simpl.
  - destruct (f a); auto.
  - destruct (f a) eqn:Ef.
    + rewrite (H a (or_introl eq_refl) Ef) in Eg. discriminate.
    + auto.
Qed.

Lemma find_map_same {A : Type} (f : A -> bool) (g : A -> A) (l : list A) :
  (forall x, In x l -> f (g x) = f x) ->
  find f (map g l) = option_map g (find f l).
Proof.
  induction l as [|a l IH]; simpl; intros H; auto.
  rewrite (H a (or_introl eq_refl)).
  destruct (f a); simpl; auto.
Qed.

Lemma find_replace {A : Type} (key : A -> Z) (f : A -> bool) (l : list A) (a a' : A) :
  NoDup (map key l) -> find f l = Some a -> f a' = true ->
  find f (map (fun r => if key r =? key a then a' else r) l) = Some a'.
Proof.
  induction l as [|x l IH]; simpl; intros Hnd E Ha'; [discriminate|].
  inversion Hnd as [|? ? Hnin Hnd']; subst.
  destruct (f x) eqn:Ef.
  - injection E as ->. rewrite Z.eqb_refl, Ha'. reflexivity.
  - assert (Hin : In a l) by (apply find_some in E; tauto).
    destruct (key x =? key a) eqn:Ek.
    + apply Z.eqb_eq in Ek. exfalso. apply Hnin. rewrite Ek. now apply in_map.
    + rewrite Ef. auto.
Qed.

Lemma map_replace_same {A : Type} (key : A -> Z) (l : list A) (a : A) :
  NoDup (map key l) -> In a l ->
  map (fun r => if key r =? key a then a else r) l = l.
Proof.
  intros Hnd Hin. rewrite <- (map_id l) at 2. apply map_ext_in.
  intros r Hr. destruct (key r =? key a) eqn:E; auto.
  apply Z.eqb_eq in E. symmetry. eapply NoDup_key_inj; eauto.
Qed.

Lemma filter_map_frame {A : Type} (f : A -> bool) (g : A -> A) (l : list A) :
  (forall x, In x l -> g x = x \/ (f x = false /\ f (g x) = false)) ->
  filter f (map g l) = filter f l.
Proof.
  induction l as [|a l IH]; simpl; intros H; auto.
  rewrite IH by auto.
  destruct (H a (or_introl eq_refl)) as [->|[E1 E2]]; auto.
  now rewrite E1, E2.
Qed.

Lemma filter_filter_frame {A : Type} (f g : A -> bool) (l : list A) :
  (forall x, In x l -> f x = true -> g x = true) ->
  filter f (filter g l) = filter f l.
Proof.
  induction l as [|a l IH]; simpl; intros H; auto.
  destruct (g a) eqn:Eg; simpl.
  - rewrite IH by auto. reflexivity.
  - destruct (f a) eqn:Ef.
    + rewrite (H a (or_introl eq_refl) Ef) in Eg. discriminate.
    + auto.
Qed.

Lemma offset_limit_In {A : Type} (skip limit : Z) (l : list A) (x : A) :
  In x (offset_limit skip limit l) -> In x l.
Proof.
  unfold offset_limit. intros H.
  destruct (sql_limit_prefix limit (skipn (Z.to_nat skip) l)) as [rest E].
  rewrite <- (firstn_skipn (Z.to_nat skip) l). apply in_or_app. right.
  rewrite E. apply in_or_app. now left.
Qed.

Lemma offset_limit_length {A : Type} (skip limit : Z) (l : list A) :
  0 <= limit -> Z.of_nat (List.length (offset_limit skip limit l)) <= limit.
Proof. intros H. unfold offset_limit. now apply sql_limit_length. Qed.

Lemma session_with_tasks_same db :
  with_tasks db (tasks db) = db.
Proof. destruct db; reflexivity. Qed.

Lemma session_with_projects_same db :
  with_projects db (projects db) = db.
Proof. destruct db; reflexivity. Qed.

(** ** Tasks: listing, round trips and isolation *)

Lemma task_query_false_other_id (tid tid' u : Z) (t : Task.row) :
  Task.id t = tid -> tid' <> tid ->
  (Task.id t =? tid') && (Task.assigned_user_id t =? u) = false.
Proof.
  intros <- Hne. apply andb_false_iff. left. apply Z.eqb_neq. congruence.
Qed.

(** X1.  [get_tasks] returns at most [limit] rows when [limit] is not
    negative; each row is a task of the store that is assigned to the user
    and that [get_task] returns for its id; and with a window that covers
    them ([skip] not positive, [limit] negative, which the store reads as
    no limit, or no smaller than their number), the rows are exactly the
    tasks assigned to the user. *)
Theorem get_tasks_lists_own_tasks on_team on_tasks db (u skip limit : Z) :
  reachable on_team on_tasks db ->
  (0 <= limit -> Z.of_nat (List.length (crud.get_tasks db u skip limit)) <= limit)
  /\ (forall t, In t (crud.get_tasks db u skip limit) ->
        In t (tasks db) /\ Task.assigned_user_id t = u
        /\ crud.get_task db (Task.id t) u = Some t)
  /\ (skip <= 0 ->
      limit < 0
      \/ Z.of_nat (rows (fun t => Z.eqb (Task.assigned_user_id t) u) (tasks db))
         <= limit ->
      forall t, In t (crud.get_tasks db u skip limit)
                <-> In t (tasks db) /\ Task.assigned_user_id t = u).
Proof.
  intros Hreach. apply reachable_wf in Hreach. unfold crud.get_tasks.
  split; [apply offset_limit_length|]. split.
  - intros t Ht. apply offset_limit_In in Ht.
    apply filter_In in Ht as [Ht Hu]. apply Z.eqb_eq in Hu.
    split; auto. split; auto.
    unfold crud.get_task. subst u. now apply find_task_of.
  - intros Hskip Hlen. rewrite (window_covers skip limit _ Hskip Hlen).
    intros t. rewrite filter_In, Z.eqb_eq. reflexivity.
Qed.

(** X2.  A task that was just created is what [get_task] returns to its
    creator under the new id; nobody else is given it; and every lookup
    under another id answers as before. *)
Theorem create_then_get_task on_team on_tasks db (data : TaskCreate) (U : Z) :
  reachable on_team on_tasks db ->
  crud.get_task (fst (crud.create_task db data U))
                (Task.id (snd (crud.create_task db data U))) U
  = Some (snd (crud.create_task db data U))
  /\ (forall V, V <> U ->
        crud.get_task (fst (crud.create_task db data U))
                      (Task.id (snd (crud.create_task db data U))) V = None)
  /\ (forall tid V, tid <> Task.id (snd (crud.create_task db data U)) ->
        crud.get_task (fst (crud.create_task db data U)) tid V
        = crud.get_task db tid V).
Proof.
  intros Hreach. apply reachable_wf in Hreach.
  assert (Hfresh : forall V,
    find (fun t => (Task.id t =? next_key Task.id (tasks db))
                   && (Task.assigned_user_id t =? V))
         (tasks db) = None).
  { intros V. apply find_none_iff. intros x Hx.
    pose proof (key_lt_next Task.id (tasks db) x Hx).
    apply andb_false_iff. left. apply Z.eqb_neq. lia. }
  unfold crud.get_task. simpl. split; [|split].
  - rewrite find_append, Hfresh. simpl. now rewrite !Z.eqb_refl.
  - intros V HV. rewrite find_append, Hfresh. simpl.
    rewrite Z.eqb_refl. simpl.
    assert ((U =? V) = false) as -> by (apply Z.eqb_neq; congruence).
    reflexivity.
  - intros tid V Hne. rewrite find_append.
    destruct (find _ (tasks db)); auto. simpl.
    assert ((next_key Task.id (tasks db) =? tid) = false) as ->
        by (apply Z.eqb_neq; congruence).
    reflexivity.
Qed.

(** X3.  After a task has been deleted, [get_task] under its id answers
    [None] to everybody, deleting it again answers [False] and changes
    nothing, and lookups under other ids answer as before. *)
Theorem delete_then_get_task on_team on_tasks db (tid U : Z) :
  reachable on_team on_tasks db ->
  snd (crud.delete_task db tid U) = true ->
  (forall V, crud.get_task (fst (crud.delete_task db tid U)) tid V = None)
  /\ crud.delete_task (fst (crud.delete_task db tid U)) tid U
     = (fst (crud.delete_task db tid U), false)
  /\ (forall tid' V, tid' <> tid ->
        crud.get_task (fst (crud.delete_task db tid U)) tid' V
        = crud.get_task db tid' V).
Proof.
  intros Hreach. apply reachable_wf in Hreach.
  unfold crud.delete_task, crud.get_task.
  destruct (find _ (tasks db)) as [T|] eqn:E; simpl; [intros _ | discriminate].
  apply find_some in E as [HT Hq]. apply task_query_spec in Hq as [Hid HU].
  assert (Hgone : forall V,
    find (fun t => (Task.id t =? tid) && (Task.assigned_user_id t =? V))
         (filter (fun t => negb (Task.id t =? Task.id T)) (tasks db)) = None).
  { intros V. apply find_filter_none. intros x _ Hx.
    apply negb_true_iff, Z.eqb_neq in Hx.
    apply andb_false_iff. left. apply Z.eqb_neq. congruence. }
  split; [exact Hgone|]. split.
  - rewrite Hgone. reflexivity.
  - intros tid' V Hne. apply find_filter_same. intros x _ Hx.
    apply task_query_spec in Hx as [Hx _].
    apply negb_true_iff, Z.eqb_neq. congruence.
Qed.

(** X4.  An update touches no more than the request sets: the task keeps
    its id and its assignee, a field the request leaves unset keeps its
    value and a field it sets takes the new one (NULL for an explicit
    null).  The updated task is what [get_task] returns afterwards, and
    lookups under other ids answer as before. *)
Theorem update_task_is_partial on_team on_tasks db (tid U : Z) (u : TaskUpdate)
    (T' : Task.row) :
  reachable on_team on_tasks db ->
  snd (crud.update_task db tid u U) = Some T' ->
  (exists T, crud.get_task db tid U = Some T
     /\ Task.id T' = tid /\ Task.assigned_user_id T' = U
     /\ Task.title T' = setattr (tu_title u) (Task.title T)
     /\ Task.description T' = setattr (tu_description u) (Task.description T)
     /\ Task.status T' = setattr (tu_status u) (Task.status T)
     /\ Task.priority T' = setattr (tu_priority u) (Task.priority T)
     /\ Task.project_id T' = setattr (tu_project_id u) (Task.project_id T)
     /\ Task.due_date T' = setattr (tu_due_date u) (Task.due_date T))
  /\ crud.get_task (fst (crud.update_task db tid u U)) tid U = Some T'
  /\ (forall tid' V, tid' <> tid ->
        crud.get_task (fst (crud.update_task db tid u U)) tid' V
        = crud.get_task db tid' V)
  /\ List.length (tasks (fst (crud.update_task db tid u U)))
     = List.length (tasks db).
Proof.
  intros Hreach. apply reachable_wf in Hreach.
  unfold crud.update_task, crud.get_task.
  destruct (find _ (tasks db)) as [T|] eqn:E; simpl; [|discriminate].
  intros [= <-].
  pose proof E as E'. apply find_some in E' as [HT Hq].
  pose proof Hq as Hq'. apply task_query_spec in Hq' as [Hid HU].
  split; [|split; [|split]].
  - exists T. simpl. repeat split; auto.
  - apply find_replace; auto. apply Hreach.
  - intros tid' V Hne.
    rewrite find_map_same.
    + destruct (find (fun t => (Task.id t =? tid') && _) (tasks db))
        as [x|] eqn:Ex; [|reflexivity].
      unfold option_map.
      apply find_some in Ex as [_ Ex]. apply task_query_spec in Ex as [Ex _].
      assert ((Task.id x =? Task.id T) = false) as ->
          by (apply Z.eqb_neq; congruence).
      reflexivity.
    + intros x _. destruct (Task.id x =? Task.id T) eqn:Ek; auto.
      apply Z.eqb_eq in Ek. simpl.
      assert ((Task.id T =? tid') = false) as -> by (apply Z.eqb_neq; congruence).
      assert ((Task.id x =? tid') = false) as -> by (apply Z.eqb_neq; congruence).
      reflexivity.
  - apply length_map.
Qed.

Lemma apply_no_task_update (T : Task.row) : apply_task_update no_task_update T = T.
Proof. destruct T; reflexivity. Qed.

Lemma apply_no_project_update (P : Project.row) :
  apply_project_update no_project_update P = P.
Proof. destruct P; reflexivity. Qed.

(** X5.  An update request that sets no field changes nothing: the store
    comes back as it was, and the answer is the row as it is stored (or
    [None] for a caller who may not write it).  So it is for a task and for
    a project. *)
Theorem empty_update_changes_nothing on_team on_tasks db (id U : Z) :
  reachable on_team on_tasks db ->
  crud.update_task db id no_task_update U = (db, crud.get_task db id U)
  /\ crud.update_project db id no_project_update U
     = (db, find (fun p => (Project.id p =? id) && (Project.owner_id p =? U))
                 (projects db)).
Proof.
  intros Hreach. apply reachable_wf in Hreach. split.
  - unfold crud.update_task, crud.get_task.
    destruct (find _ (tasks db)) as [T|] eqn:E; auto.
    apply find_some in E as [HT _].
    rewrite apply_no_task_update, map_replace_same, session_with_tasks_same; auto.
    apply Hreach.
  - unfold crud.update_project.
    destruct (find _ (projects db)) as [P|] eqn:E; auto.
    apply find_some in E as [HP _].
    rewrite apply_no_project_update, map_replace_same, session_with_projects_same;
      auto.
    apply Hreach.
Qed.

(** X6.  Creating, updating and deleting a task on behalf of one user leave
    the tasks of every other user as they were: what [get_tasks] returns to
    another user is the same before and after. *)
Theorem task_writes_spare_other_users on_team on_tasks db (U V : Z)
    (data : TaskCreate) (u : TaskUpdate) (tid : Z) (skip limit : Z) :
  reachable on_team on_tasks db -> V <> U ->
  crud.get_tasks (fst (crud.create_task db data U)) V skip limit
  = crud.get_tasks db V skip limit
  /\ crud.get_tasks (fst (crud.update_task db tid u U)) V skip limit
     = crud.get_tasks db V skip limit
  /\ crud.get_tasks (fst (crud.delete_task db tid U)) V skip limit
     = crud.get_tasks db V skip limit.
Proof.
  intros Hreach HV. apply reachable_wf in Hreach.
  pose proof (wf_tasks db Hreach) as Hnd.
  unfold crud.get_tasks. split; [|split]; f_equal.
  - simpl. rewrite filter_app. simpl.
    assert ((U =? V) = false) as -> by (apply Z.eqb_neq; congruence).
    apply app_nil_r.
  - unfold crud.update_task.
    destruct (find _ (tasks db)) as [T|] eqn:E; simpl; auto.
    apply find_some in E as [HT Hq]. apply task_query_spec in Hq as [_ HU].
    apply filter_map_frame. intros x Hx.
    destruct (Task.id x =? Task.id T) eqn:Ek; auto.
    apply Z.eqb_eq in Ek.
    assert (x = T) by (eapply NoDup_key_inj; eauto). subst x.
    right. simpl. split; apply Z.eqb_neq; congruence.
  - unfold crud.delete_task.
    destruct (find _ (tasks db)) as [T|] eqn:E; simpl; auto.
    apply find_some in E as [HT Hq]. apply task_query_spec in Hq as [_ HU].
    apply filter_filter_frame. intros x Hx Hf. apply Z.eqb_eq in Hf.
    apply negb_true_iff, Z.eqb_neq. intros Ek.
    assert (x = T) by (eapply NoDup_key_inj; eauto). subst x. congruence.
Qed.

(** ** Projects: who can read, round trips and deletion *)

Lemma find_membership_iff db pid u :
  find (crud.is_membership pid u) (team_members db) <> None
  <-> (1 <= rows (crud.is_membership pid u) (team_members db))%nat.
Proof.
  split.
  - intros H. apply find_is_Some in H as [m [Hm Hf]].
    eapply rows_pos_In; eauto.
  - intros H E. rewrite (rows_find_none _ _ E) in H. lia.
Qed.

Lemma get_project_inv db pid u P :
  crud.get_project db pid u = Some P -> In P (projects db) /\ Project.id P = pid.
Proof.
  unfold crud.get_project.
  destruct (find _ (projects db)) as [P0|] eqn:E; [|discriminate].
  apply find_some in E as [HP0 Hid]. apply Z.eqb_eq in Hid.
  destruct (Project.owner_id P0 =? u).
  - intros [= <-]. auto.
  - destruct (find _ (team_members db)); [|discriminate].
    intros [= <-]. auto.
Qed.

Lemma get_project_Some db P u :
  wf db -> In P (projects db) ->
  (crud.get_project db (Project.id P) u = Some P
   <-> Project.owner_id P = u
       \/ (1 <= rows (crud.is_membership (Project.id P) u) (team_members db))%nat).
Proof.
  intros Hwf HP. unfold crud.get_project.
  rewrite (find_project_by_id db P Hwf HP).
  rewrite <- find_membership_iff. unfold crud.is_membership.
  destruct (Project.owner_id P =? u) eqn:Eo.
  - apply Z.eqb_eq in Eo. tauto.
  - apply Z.eqb_neq in Eo.
    destruct (find _ (team_members db)); split; auto.
    + intros _. right. discriminate.
    + discriminate.
    + intros [H|H]; [contradiction | congruence].
Qed.

Lemma in_union (a b : list Project.row) (P : Project.row) :
  In P (crud.union a b) <-> In P a \/ In P b.
Proof. unfold crud.union. rewrite nodup_In. apply in_app_iff. Qed.

Lemma in_team_projects db u P :
  In P (crud.team_projects db u)
  <-> In P (projects db)
      /\ (1 <= rows (crud.is_membership (Project.id P) u) (team_members db))%nat.
Proof.
  unfold crud.team_projects. rewrite in_flat_map. split.
  - intros [p [Hp Hin]]. apply in_map_iff in Hin as [m [-> Hm]].
    apply filter_In in Hm as [Hm Hf]. split; auto.
    eapply rows_pos_In; eauto.
  - intros [HP Hrows]. exists P. split; auto.
    apply find_membership_iff in Hrows.
    apply find_is_Some in Hrows as [m [Hm Hf]].
    apply in_map_iff. exists m. split; auto. apply filter_In. auto.
Qed.

Lemma owner_has_row db P :
  wf db -> In P (projects db) ->
  (1 <= rows (crud.is_membership (Project.id P) (Project.owner_id P))
             (team_members db))%nat.
Proof.
  intros Hwf HP. destruct (wf_owner_row db Hwf P HP) as [m [Hm [Hf _]]].
  eapply rows_pos_In; eauto.
Qed.

(** X8.  What [get_project] returns is a project of the store with the id
    asked for.  In a reachable store the owner check adds nothing to the
    membership check: a project is returned to a user exactly when the user
    has a membership row for it (the owner always has one); an id that no
    project has gives [None]. *)
Theorem project_read_access on_team on_tasks db (pid u : Z) :
  reachable on_team on_tasks db ->
  (forall P, crud.get_project db pid u = Some P ->
             In P (projects db) /\ Project.id P = pid)
  /\ (forall P, In P (projects db) ->
        (crud.get_project db (Project.id P) u = Some P
         <-> (1 <= rows (crud.is_membership (Project.id P) u)
                        (team_members db))%nat)
        /\ (crud.get_project db (Project.id P) u = None
            <-> rows (crud.is_membership (Project.id P) u) (team_members db)
                = 0%nat))
  /\ ((forall P, In P (projects db) -> Project.id P <> pid) ->
      crud.get_project db pid u = None).
Proof.
  intros Hreach. apply reachable_wf in Hreach.
  split; [intros P; apply get_project_inv|]. split.
  - intros P HP.
    assert (Hiff : crud.get_project db (Project.id P) u = Some P
                   <-> (1 <= rows (crud.is_membership (Project.id P) u)
                                  (team_members db))%nat).
    { rewrite (get_project_Some db P u Hreach HP). split.
      - intros [<-|H]; [now apply owner_has_row | exact H].
      - intros H. now right. }
    split; [exact Hiff|]. split.
    + intros E. destruct (rows _ (team_members db)) as [|k] eqn:Er; auto.
      assert (H1 : (1 <= S k)%nat) by lia.
      apply Hiff in H1. congruence.
    + intros E0.
      destruct (crud.get_project db (Project.id P) u) as [Q|] eqn:Eg; auto.
      pose proof (get_project_inv _ _ _ _ Eg) as [HQ Hid].
      assert (Q = P).
      { apply (NoDup_key_inj Project.id (projects db)); auto.
        apply (wf_projects db Hreach). }
      subst Q.
      assert (1 <= rows (crud.is_membership (Project.id P) u)
                        (team_members db))%nat by (apply Hiff; reflexivity).
      lia.
  - intros Hno. destruct (crud.get_project db pid u) as [P|] eqn:E; auto.
    apply get_project_inv in E as [HP Hid]. exfalso. exact (Hno P HP Hid).
Qed.

(** X9.  The listing and the single read agree: with a window that covers
    it, [get_projects] returns to a user exactly the projects [get_project]
    returns to that user. *)
Theorem listing_is_what_can_be_read on_team on_tasks db (u : Z) (limit : Z)
    (P : Project.row) :
  reachable on_team on_tasks db ->
  limit < 0
  \/ Z.of_nat (List.length (crud.union (crud.owned_projects db u)
                                       (crud.team_projects db u))) <= limit ->
  (In P (crud.get_projects db u 0 limit)
   <-> crud.get_project db (Project.id P) u = Some P).
Proof.
  intros Hreach Hlen. apply reachable_wf in Hreach.
  unfold crud.get_projects. rewrite (window_covers 0 limit _ (Z.le_refl 0) Hlen).
  rewrite in_union, in_team_projects. unfold crud.owned_projects.
  rewrite filter_In, Z.eqb_eq. split.
  - intros [[HP Ho]|[HP Hr]]; apply (get_project_Some db P u Hreach HP); auto.
  - intros E. pose proof (get_project_inv _ _ _ _ E) as [HP _].
    apply (get_project_Some db P u Hreach HP) in E. tauto.
Qed.

(** X10.  A project that was just created is what [get_project] returns
    to its creator under the new id, and reads under other ids answer as
    before.  Another user is given the new project exactly when the store
    already held a membership row of that user under the new id, which is
    the case when the id was the one of a deleted project whose rows
    stayed behind; without such a row the answer is [None]. *)
Theorem create_then_get_project on_team on_tasks db (data : ProjectCreate) (U : Z) :
  reachable on_team on_tasks db ->
  crud.get_project (fst (crud.create_project db data U))
                   (Project.id (snd (crud.create_project db data U))) U
  = Some (snd (crud.create_project db data U))
  /\ (forall V, V <> U ->
        crud.get_project (fst (crud.create_project db data U))
                         (Project.id (snd (crud.create_project db data U))) V
        = match find (crud.is_membership
                        (Project.id (snd (crud.create_project db data U))) V)
                     (team_members db) with
          | Some _ => Some (snd (crud.create_project db data U))
          | None => None
          end)
  /\ (forall V, V <> U ->
        rows (crud.is_membership
                (Project.id (snd (crud.create_project db data U))) V)
             (team_members db) = 0%nat ->
        crud.get_project (fst (crud.create_project db data U))
                         (Project.id (snd (crud.create_project db data U))) V
        = None)
  /\ (forall V, V <> U ->
        (1 <= rows (crud.is_membership
                      (Project.id (snd (crud.create_project db data U))) V)
                   (team_members db))%nat ->
        crud.get_project (fst (crud.create_project db data U))
                         (Project.id (snd (crud.create_project db data U))) V
        = Some (snd (crud.create_project db data U)))
  /\ (forall pid V, pid <> Project.id (snd (crud.create_project db data U)) ->
        crud.get_project (fst (crud.create_project db data U)) pid V
        = crud.get_project db pid V).
Proof.
  intros Hreach. apply reachable_wf in Hreach.
  assert (Hfresh : find (fun p => Project.id p =? next_key Project.id (projects db))
                        (projects db) = None).
  { apply find_none_iff. intros x Hx.
    pose proof (key_lt_next Project.id (projects db) x Hx).
    apply Z.eqb_neq. lia. }
  assert (Hother : forall V, V <> U ->
    crud.get_project (fst (crud.create_project db data U))
                     (Project.id (snd (crud.create_project db data U))) V
    = match find (crud.is_membership
                    (Project.id (snd (crud.create_project db data U))) V)
                 (team_members db) with
      | Some _ => Some (snd (crud.create_project db data U))
      | None => None
      end).
  { intros V HV.
    assert (Hne : (U =? V) = false) by (apply Z.eqb_neq; congruence).
    unfold crud.get_project. cbn.
    rewrite find_append, Hfresh. cbn. rewrite Z.eqb_refl. cbn. rewrite Hne.
    rewrite find_append. unfold crud.is_membership. cbn.
    destruct (find _ (team_members db)); auto.
    cbn. rewrite Z.eqb_refl. cbn. rewrite Hne. reflexivity. }
  split; [|split; [|split; [|split]]].
  - unfold crud.get_project. cbn.
    rewrite find_append, Hfresh. cbn. now rewrite !Z.eqb_refl.
  - exact Hother.
  - intros V HV H0. rewrite (Hother V HV).
    destruct (find _ (team_members db)) eqn:E; auto.
    assert (Hs : find (crud.is_membership
                         (Project.id (snd (crud.create_project db data U))) V)
                      (team_members db) <> None) by congruence.
    apply find_membership_iff in Hs. lia.
  - intros V HV H1. rewrite (Hother V HV).
    apply find_membership_iff in H1.
    destruct (find _ (team_members db)); congruence.
  - intros pid V Hne. unfold crud.get_project. cbn in *.
    rewrite find_append.
    destruct (find (fun p => Project.id p =? pid) (projects db)) as [P|].
    + destruct (Project.owner_id P =? V); auto.
      rewrite find_append.
      destruct (find _ (team_members db)); auto. cbn.
      assert ((next_key Project.id (projects db) =? pid) = false) as ->
          by (apply Z.eqb_neq; congruence).
      reflexivity.
    + cbn.
      assert ((next_key Project.id (projects db) =? pid) = false) as ->
          by (apply Z.eqb_neq; congruence).
      reflexivity.
Qed.

(** X11.  Once [delete_project] has answered [True], the project is gone
    for everybody: [get_project] answers [None], a further update or delete
    answers [None] and [False] and changes nothing, no listing names it;
    the other projects are all still there. *)
Theorem deleted_project_is_gone on_team on_tasks db (pid U : Z) :
  reachable on_team on_tasks db ->
  snd (crud.delete_project on_team on_tasks db pid U) = true ->
  (forall V, crud.get_project
               (fst (crud.delete_project on_team on_tasks db pid U)) pid V = None)
  /\ (forall V u,
        crud.update_project (fst (crud.delete_project on_team on_tasks db pid U))
                            pid u V
        = (fst (crud.delete_project on_team on_tasks db pid U), None))
  /\ (forall V,
        crud.delete_project on_team on_tasks
          (fst (crud.delete_project on_team on_tasks db pid U)) pid V
        = (fst (crud.delete_project on_team on_tasks db pid U), false))
  /\ (forall V skip limit P,
        In P (crud.get_projects
                (fst (crud.delete_project on_team on_tasks db pid U)) V skip limit) ->
        Project.id P <> pid /\ In P (projects db))
  /\ (forall P, In P (projects db) -> Project.id P <> pid ->
        In P (projects (fst (crud.delete_project on_team on_tasks db pid U)))).
Proof.
  intros Hreach. apply reachable_wf in Hreach.
  unfold crud.delete_project at 1.
  destruct (find _ (projects db)) as [P0|] eqn:E; simpl; [intros _ | discriminate].
  pose proof E as E'. apply find_some in E' as [HP0 Hq].
  apply project_query_spec in Hq as [Hid HU].
  assert (Hdb' : projects (fst (crud.delete_project on_team on_tasks db pid U))
                 = filter (fun p => negb (Project.id p =? pid)) (projects db)).
  { unfold crud.delete_project. rewrite E. simpl. now rewrite Hid. }
  set (db' := fst (crud.delete_project on_team on_tasks db pid U)) in *.
  assert (Hno : forall P, In P (projects db') -> Project.id P <> pid /\ In P (projects db)).
  { intros P HP. rewrite Hdb' in HP. apply filter_In in HP as [HP Hne].
    apply negb_true_iff, Z.eqb_neq in Hne. auto. }
  assert (Hfind : forall V,
    find (fun p => (Project.id p =? pid) && (Project.owner_id p =? V)) (projects db')
    = None).
  { intros V. apply find_none_iff. intros x Hx. apply Hno in Hx as [Hx _].
    apply andb_false_iff. left. now apply Z.eqb_neq. }
  split; [|split; [|split; [|split]]].
  - intros V. destruct (crud.get_project db' pid V) as [P|] eqn:Eg; auto.
    apply get_project_inv in Eg as [HP Hid']. apply Hno in HP as [HP _].
    contradiction.
  - intros V u. unfold crud.update_project. now rewrite Hfind.
  - intros V. unfold crud.delete_project. now rewrite Hfind.
  - intros V skip limit P HP. unfold crud.get_projects in HP.
    apply offset_limit_In in HP. apply in_union in HP.
    apply Hno. destruct HP as [HP|HP].
    + apply filter_In in HP. tauto.
    + apply in_team_projects in HP. tauto.
  - intros P HP Hne. rewrite Hdb'. apply filter_In. split; auto.
    apply negb_true_iff, Z.eqb_neq. auto.
Qed.

Lemma NoDup_window {A : Type} (skip limit : Z) (l : list A) :
  NoDup l -> NoDup (offset_limit skip limit l).
Proof.
  intros H. unfold offset_limit.
  destruct (sql_limit_prefix limit (skipn (Z.to_nat skip) l)) as [rest E].
  rewrite <- (firstn_skipn (Z.to_nat skip) l) in H.
  apply NoDup_app_remove_l in H. rewrite E in H.
  now apply NoDup_app_remove_r in H.
Qed.

(** X7.  A page of the project listing, whatever its window: it has at most
    [limit] rows when [limit] is not negative, names no project twice, and
    every project it names is one that [get_project] returns to the same
    user. *)
Theorem project_page_is_sound on_team on_tasks db (u skip limit : Z) :
  reachable on_team on_tasks db ->
  (0 <= limit ->
   Z.of_nat (List.length (crud.get_projects db u skip limit)) <= limit)
  /\ NoDup (map Project.id (crud.get_projects db u skip limit))
  /\ (forall P, In P (crud.get_projects db u skip limit) ->
        crud.get_project db (Project.id P) u = Some P).
Proof.
  intros Hreach. apply reachable_wf in Hreach.
  assert (Hin : forall P, In P (crud.get_projects db u skip limit) ->
                  In P (projects db)
                  /\ crud.get_project db (Project.id P) u = Some P).
  { intros P HP. unfold crud.get_projects in HP.
    apply offset_limit_In, in_union in HP.
    unfold crud.owned_projects in HP.
    rewrite filter_In, Z.eqb_eq, in_team_projects in HP.
    assert (HPdb : In P (projects db)) by tauto.
    split; auto.
    apply (get_project_Some db P u Hreach HPdb). tauto. }
  split; [apply offset_limit_length|]. split.
  - apply NoDup_map_NoDup_ForallPairs.
    + intros a b Ha Hb Hk.
      apply (NoDup_key_inj Project.id (projects db)); auto.
      * apply (wf_projects db Hreach).
      * now apply Hin.
      * now apply Hin.
    + unfold crud.get_projects. apply NoDup_window.
      unfold crud.union. apply NoDup_nodup.
  - intros P HP. now apply Hin.
Qed.

Lemma get_project_map db (g : Project.row -> Project.row) (pid V : Z) :
  (forall x, In x (projects db) -> Project.id (g x) = Project.id x) ->
  (forall x, In x (projects db) -> Project.owner_id (g x) = Project.owner_id x) ->
  crud.get_project (with_projects db (map g (projects db))) pid V
  = option_map g (crud.get_project db pid V).
Proof.
  intros Hid Hown. unfold crud.get_project. simpl.
  rewrite find_map_same by (intros x Hx; now rewrite Hid).
  destruct (find _ (projects db)) as [P|] eqn:E; simpl; auto.
  apply find_some in E as [HP _].
  rewrite (Hown P HP). destruct (Project.owner_id P =? V); auto.
  destruct (find _ (team_members db)); reflexivity.
Qed.

(** X12.  An update of a project keeps its id and its owner and follows the
    request field by field; the membership rows and the tasks are not
    touched.  Everybody who could read the project still can, and is given
    the updated row; reads of other projects answer as before. *)
Theorem update_project_keeps_access on_team on_tasks db (pid U : Z)
    (u : ProjectUpdate) (P' : Project.row) :
  reachable on_team on_tasks db ->
  snd (crud.update_project db pid u U) = Some P' ->
  Project.id P' = pid /\ Project.owner_id P' = U
  /\ (exists P, In P (projects db) /\ Project.id P = pid
        /\ Project.name P' = setattr (pu_name u) (Project.name P)
        /\ Project.description P' = setattr (pu_description u) (Project.description P)
        /\ Project.status P' = setattr (pu_status u) (Project.status P))
  /\ team_members (fst (crud.update_project db pid u U)) = team_members db
  /\ tasks (fst (crud.update_project db pid u U)) = tasks db
  /\ (forall V, crud.get_project (fst (crud.update_project db pid u U)) pid V
                = match crud.get_project db pid V with
                  | Some _ => Some P'
                  | None => None
                  end)
  /\ (forall pid2 V, pid2 <> pid ->
        crud.get_project (fst (crud.update_project db pid u U)) pid2 V
        = crud.get_project db pid2 V).
Proof.
  intros Hreach. apply reachable_wf in Hreach.
  unfold crud.update_project.
  destruct (find _ (projects db)) as [P|] eqn:E; simpl; [|discriminate].
  intros [= <-].
  apply find_some in E as [HP Hq]. apply project_query_spec in Hq as [Hid HU].
  split; [exact Hid|]. split; [exact HU|].
  split; [exists P; simpl; auto|].
  split; [reflexivity|]. split; [reflexivity|].
  assert (Hmap : forall pid2 V,
    crud.get_project
      (with_projects db
         (map (fun p => if Project.id p =? Project.id P
                        then apply_project_update u P else p) (projects db)))
      pid2 V
    = option_map (fun p => if Project.id p =? Project.id P
                           then apply_project_update u P else p)
                 (crud.get_project db pid2 V)).
  { intros pid2 V. apply get_project_map; intros x Hx;
      destruct (Project.id x =? Project.id P) eqn:Ek; auto;
      apply Z.eqb_eq in Ek; simpl; auto.
    assert (x = P) by (eapply NoDup_key_inj with (key := Project.id); eauto;
                       apply Hreach).
    congruence. }
  split.
  - intros V. rewrite Hmap.
    destruct (crud.get_project db pid V) as [x|] eqn:Eg; simpl; auto.
    apply get_project_inv in Eg as [_ Hx].
    assert ((Project.id x =? Project.id P) = true) as ->
        by (apply Z.eqb_eq; congruence).
    reflexivity.
  - intros pid2 V Hne. rewrite Hmap.
    destruct (crud.get_project db pid2 V) as [x|] eqn:Eg; simpl; auto.
    apply get_project_inv in Eg as [_ Hx].
    assert ((Project.id x =? Project.id P) = false) as ->
        by (apply Z.eqb_neq; congruence).
    reflexivity.
Qed.

(** ** Team membership: views, round trips and standing *)

Lemma rows_remove_key {A : Type} (key : A -> Z) (f : A -> bool) (l : list A) (a : A) :
  NoDup (map key l) -> In a l ->
  (rows f (filter (fun m => negb (Z.eqb (key m) (key a))) l)
   + (if f a then 1 else 0) = rows f l)%nat.
Proof.
  unfold rows. induction l as [|x l IH]; simpl; intros Hnd Hin; [contradiction|].
  inversion Hnd as [|? ? Hnin Hnd']; subst.
  destruct Hin as [->|Hin].
  - rewrite Z.eqb_refl. simpl.
    rewrite (proj2 (filter_ext_in_iff _ (fun _ => true) l)).
    + rewrite filter_true. destruct (f a); simpl; lia.
    + intros m Hm. apply negb_true_iff, Z.eqb_neq. intros E.
      apply Hnin. rewrite <- E. now apply in_map.
  - assert ((key x =? key a) = false) as ->.
    { apply Z.eqb_neq. intros E. apply Hnin. rewrite E. now apply in_map. }
    specialize (IH Hnd' Hin). simpl. destruct (f x); simpl; lia.
Qed.

Lemma filter_remove_fresh {A : Type} (key : A -> Z) (n : Z) (l : list A) (a : A) :
  ~ In n (map key l) -> key a = n ->
  filter (fun m => negb (key m =? n)) (l ++ [a]) = l.
Proof.
  intros Hnin Ha. rewrite filter_app. simpl. rewrite Ha, Z.eqb_refl. simpl.
  rewrite app_nil_r.
  rewrite (proj2 (filter_ext_in_iff _ (fun _ => true) l)).
  - apply filter_true.
  - intros m Hm. apply negb_true_iff, Z.eqb_neq. intros E.
    apply Hnin. rewrite <- E. now apply in_map.
Qed.

Lemma find_existsb {A : Type} (f : A -> bool) (l : list A) :
  existsb f l = match find f l with Some _ => true | None => false end.
Proof. induction l as [|a l IH]; simpl; auto. destruct (f a); auto. Qed.

Lemma standing_of_project db P r :
  wf db -> In P (projects db) ->
  has_standing db (Project.id P) r
  = (Project.owner_id P =? r)
    || match find (crud.is_manager_membership (Project.id P) r) (team_members db) with
       | Some _ => true
       | None => false
       end.
Proof.
  intros Hwf HP. unfold has_standing. rewrite <- find_existsb. f_equal.
  destruct (Project.owner_id P =? r) eqn:Eo.
  - apply existsb_exists. exists P. now rewrite Z.eqb_refl, Eo.
  - destruct (existsb _ (projects db)) eqn:Ex; auto.
    apply existsb_exists in Ex as [x [Hx Hq]].
    apply project_query_spec in Hq as [Hid Ho].
    assert (x = P) by (eapply NoDup_key_inj with (key := Project.id); eauto;
                       apply Hwf).
    subst x. apply Z.eqb_neq in Eo. contradiction.
Qed.

Lemma standing_without_project db pid r :
  wf db -> find (fun p => Project.id p =? pid) (projects db) = None ->
  forall tm uid,
    project_id tm = pid ->
    crud.add_team_member db tm r = (db, None)
    /\ crud.remove_team_member db pid uid r = (db, false).
Proof.
  intros _ E tm uid <-. unfold crud.add_team_member, crud.remove_team_member.
  now rewrite E.
Qed.

(** The outcome of [add_team_member] when the project is there. *)
Lemma add_team_member_found db (tm : TeamMemberCreate) r P :
  wf db -> In P (projects db) -> Project.id P = project_id tm ->
  crud.add_team_member db tm r
  = if has_standing db (project_id tm) r
    then match find (crud.is_membership (project_id tm) (user_id tm))
                    (team_members db) with
         | Some _ => (db, None)
         | None =>
             let row := {| TeamMember.id := next_key TeamMember.id (team_members db);
                           TeamMember.project_id := Some (project_id tm);
                           TeamMember.user_id := user_id tm;
                           TeamMember.role := role tm |} in
             (with_team_members db (team_members db ++ [row]), Some row)
         end
    else (db, None).
Proof.
  intros Hwf HP Hid. rewrite <- Hid.
  rewrite (standing_of_project db P r Hwf HP).
  unfold crud.add_team_member. rewrite <- Hid.
  rewrite (find_project_by_id db P Hwf HP).
  destruct (Project.owner_id P =? r); simpl; auto.
  destruct (find (crud.is_manager_membership _ _) _); auto.
Qed.

(** The outcome of [remove_team_member] when the project is there. *)
Lemma remove_team_member_found db (uid r : Z) P :
  wf db -> In P (projects db) ->
  crud.remove_team_member db (Project.id P) uid r
  = if has_standing db (Project.id P) r
    then if Project.owner_id P =? uid then (db, false)
         else match find (crud.is_membership (Project.id P) uid)
                         (team_members db) with
              | Some team_member =>
                  (with_team_members db
                     (filter (fun m => negb (TeamMember.id m
                                             =? TeamMember.id team_member))
                             (team_members db)), true)
              | None => (db, false)
              end
    else (db, false).
Proof.
  intros Hwf HP.
  rewrite (standing_of_project db P r Hwf HP).
  unfold crud.remove_team_member.
  rewrite (find_project_by_id db P Hwf HP).
  destruct (Project.owner_id P =? r); simpl; auto.
  destruct (find (crud.is_manager_membership _ _) _); auto.
Qed.

Lemma project_by_id db pid :
  (exists P, In P (projects db) /\ Project.id P = pid)
  \/ find (fun p => Project.id p =? pid) (projects db) = None.
Proof.
  destruct (find _ (projects db)) as [P|] eqn:E; auto.
  apply find_some in E as [HP Hid]. apply Z.eqb_eq in Hid. eauto.
Qed.

Lemma no_project_no_find db pid :
  (forall P, In P (projects db) -> Project.id P <> pid) ->
  find (fun p => Project.id p =? pid) (projects db) = None.
Proof.
  intros H. apply find_none_iff. intros x Hx. apply Z.eqb_neq. auto.
Qed.

(** X13.  The team list of [get_team_members] is the one inside the project
    detail, and both are refused exactly when [get_project] refuses.  In a
    reachable store a list that is returned holds the membership rows of
    the project and only those, each row once, and contains a row of the
    owner with role "owner" and a row of the caller.  A user can be named
    by more than one row. *)
Theorem team_views_agree on_team on_tasks db (pid u : Z) :
  reachable on_team on_tasks db ->
  crud.get_team_members db pid u
  = option_map crud.pd_team_members (crud.get_project_with_team db pid u)
  /\ (crud.get_team_members db pid u = None <-> crud.get_project db pid u = None)
  /\ (forall l, crud.get_team_members db pid u = Some l ->
        (forall m, In m l <-> In m (team_members db)
                              /\ TeamMember.project_id m = Some pid)
        /\ NoDup (map TeamMember.id l)
        /\ (exists P m, In P (projects db) /\ Project.id P = pid /\ In m l
                        /\ TeamMember.user_id m = Project.owner_id P
                        /\ TeamMember.role m = Some "owner"%string)
        /\ (exists m, In m l /\ TeamMember.user_id m = u)).
Proof.
  intros Hreach. apply reachable_wf in Hreach.
  unfold crud.get_team_members, crud.get_project_with_team.
  destruct (crud.get_project db pid u) as [P|] eqn:E; simpl.
  - split; [reflexivity|]. split; [split; discriminate|].
    intros l [= <-].
    pose proof (get_project_inv _ _ _ _ E) as [HP Hid]. subst pid.
    assert (Hin : forall m,
      In m (filter (fun m => col_eqb Z.eqb (TeamMember.project_id m) (Project.id P))
                   (team_members db))
      <-> In m (team_members db) /\ TeamMember.project_id m = Some (Project.id P)).
    { intros m. rewrite filter_In. unfold col_eqb.
      destruct (TeamMember.project_id m) as [q|].
      - rewrite Z.eqb_eq. split; intros [H1 H2]; split; congruence.
      - split; intros [_ H]; discriminate. }
    split; [exact Hin|].
    split; [apply NoDup_map_filter, (wf_team_members db Hreach)|].
    split.
    + destruct (wf_owner_row db Hreach P HP) as [m [Hm [Hmem Hrole]]].
      apply is_membership_spec in Hmem as [Hp Hu].
      exists P, m. repeat split; auto. apply Hin. auto.
    + apply (get_project_Some db P u Hreach HP) in E.
      assert (Hrow : (1 <= rows (crud.is_membership (Project.id P) u)
                                 (team_members db))%nat).
      { destruct E as [<-|E]; auto. now apply owner_has_row. }
      apply find_membership_iff, find_is_Some in Hrow as [m [Hm Hmem]].
      apply is_membership_spec in Hmem as [Hp Hu].
      exists m. split; auto. apply Hin. auto.
  - split; [reflexivity|]. split; [tauto|]. discriminate.
Qed.

(** X14.  A user who has just been added to a team could not read the
    project before and can read it now, and appears in its team list with
    the role of the request; the user is not the owner and may neither
    update nor delete the project. *)
Theorem added_member_can_read_not_write on_team on_tasks db (tm : TeamMemberCreate)
    (r : Z) (row : TeamMember.row) :
  reachable on_team on_tasks db ->
  snd (crud.add_team_member db tm r) = Some row ->
  TeamMember.project_id row = Some (project_id tm)
  /\ TeamMember.user_id row = user_id tm
  /\ TeamMember.role row = role tm
  /\ crud.get_project db (project_id tm) (user_id tm) = None
  /\ (exists P,
        crud.get_project (fst (crud.add_team_member db tm r))
                         (project_id tm) (user_id tm) = Some P
        /\ Project.owner_id P <> user_id tm)
  /\ (exists l,
        crud.get_team_members (fst (crud.add_team_member db tm r))
                              (project_id tm) (user_id tm) = Some l
        /\ In row l)
  /\ (forall u,
        crud.update_project (fst (crud.add_team_member db tm r))
                            (project_id tm) u (user_id tm)
        = (fst (crud.add_team_member db tm r), None))
  /\ (forall a b,
        crud.delete_project a b (fst (crud.add_team_member db tm r))
                            (project_id tm) (user_id tm)
        = (fst (crud.add_team_member db tm r), false)).
Proof.
  intros Hreach Hsome.
  pose proof (reachable_wf _ _ _ Hreach) as Hwf.
  pose proof (wf_add_team_member db tm r Hwf) as Hwf'.
  assert (Hgranted : snd (crud.add_team_member db tm r) <> None) by congruence.
  destruct (add_team_member_granted db tm r Hgranted) as [Hrows0 Hrows1].
  pose proof (projects_add_team_member db tm r) as Hproj.
  destruct (project_by_id db (project_id tm)) as [[P [HP Hid]]|Hnone].
  2:{ unfold crud.add_team_member in Hsome. rewrite Hnone in Hsome. discriminate. }
  assert (Hown : Project.owner_id P <> user_id tm).
  { intros Eo. pose proof (owner_has_row db P Hwf HP) as H.
    rewrite Hid, Eo in H. lia. }
  assert (Hrow : In row (team_members (fst (crud.add_team_member db tm r)))
                 /\ TeamMember.project_id row = Some (project_id tm)
                 /\ TeamMember.user_id row = user_id tm
                 /\ TeamMember.role row = role tm).
  { destruct (add_team_member_cases db tm r) as [E|[_ E]]; rewrite E in *; simpl in *.
    - discriminate.
    - injection Hsome as <-. simpl. split; auto.
      apply in_or_app. right. left. reflexivity. }
  destruct Hrow as [Hrin [Hrp [Hru Hrr]]].
  assert (HP' : In P (projects (fst (crud.add_team_member db tm r))))
    by (now rewrite Hproj).
  assert (Hread : crud.get_project (fst (crud.add_team_member db tm r))
                                   (project_id tm) (user_id tm) = Some P).
  { rewrite <- Hid. apply (get_project_Some _ P (user_id tm) Hwf' HP').
    right. rewrite Hid. lia. }
  assert (Hnowrite : find (fun p => (Project.id p =? project_id tm)
                                    && (Project.owner_id p =? user_id tm))
                          (projects (fst (crud.add_team_member db tm r))) = None).
  { rewrite Hproj. apply find_none_iff. intros x Hx.
    destruct ((Project.id x =? project_id tm) && (Project.owner_id x =? user_id tm))
      eqn:Eq; auto.
    apply project_query_spec in Eq as [Hxid Hxo].
    assert (x = P) by (eapply NoDup_key_inj with (key := Project.id); eauto;
                       [apply Hwf | congruence]).
    subst x. contradiction. }
  split; [exact Hrp|]. split; [exact Hru|]. split; [exact Hrr|].
  split; [|split; [|split; [|split]]].
  - destruct (crud.get_project db (project_id tm) (user_id tm)) as [x|] eqn:Eg; auto.
    pose proof (get_project_inv _ _ _ _ Eg) as [Hx Hxid].
    rewrite <- Hxid in Eg.
    apply (get_project_Some db x (user_id tm) Hwf Hx) in Eg.
    assert (x = P) by (eapply NoDup_key_inj with (key := Project.id); eauto;
                       [apply Hwf | congruence]).
    subst x. destruct Eg as [Eg|Eg]; [contradiction|].
    rewrite Hid in Eg. lia.
  - exists P. auto.
  - unfold crud.get_team_members. rewrite Hread.
    eexists. split; [reflexivity|].
    apply filter_In. split; auto. rewrite Hrp. simpl. apply Z.eqb_refl.
  - intros u. unfold crud.update_project. now rewrite Hnowrite.
  - intros a b. unfold crud.delete_project. now rewrite Hnowrite.
Qed.

Lemma standing_after_add db tm r pid q :
  has_standing db pid q = true ->
  has_standing (fst (crud.add_team_member db tm r)) pid q = true.
Proof.
  unfold has_standing. rewrite projects_add_team_member.
  intros H. apply orb_true_iff in H as [H|H]; apply orb_true_iff; auto.
  right. destruct (add_team_member_cases db tm r) as [E|[_ E]]; rewrite E; simpl; auto.
  rewrite existsb_app, H. reflexivity.
Qed.

(** X15.  Adding a member and removing the same member again, by the same
    requester, succeeds and puts back the membership rows as they were;
    projects and tasks are untouched and every read of a project answers as
    it did before the two calls. *)
Theorem add_then_remove_restores_team on_team on_tasks db (tm : TeamMemberCreate)
    (r : Z) :
  reachable on_team on_tasks db ->
  snd (crud.add_team_member db tm r) <> None ->
  snd (crud.remove_team_member (fst (crud.add_team_member db tm r))
                               (project_id tm) (user_id tm) r) = true
  /\ team_members
       (fst (crud.remove_team_member (fst (crud.add_team_member db tm r))
                                     (project_id tm) (user_id tm) r))
     = team_members db
  /\ projects
       (fst (crud.remove_team_member (fst (crud.add_team_member db tm r))
                                     (project_id tm) (user_id tm) r))
     = projects db
  /\ tasks
       (fst (crud.remove_team_member (fst (crud.add_team_member db tm r))
                                     (project_id tm) (user_id tm) r))
     = tasks db
  /\ (forall pid V,
        crud.get_project
          (fst (crud.remove_team_member (fst (crud.add_team_member db tm r))
                                        (project_id tm) (user_id tm) r)) pid V
        = crud.get_project db pid V).
Proof.
  intros Hreach Hgranted.
  pose proof (reachable_wf _ _ _ Hreach) as Hwf.
  pose proof (wf_add_team_member db tm r Hwf) as Hwf'.
  destruct (add_team_member_granted db tm r Hgranted) as [Hrows0 _].
  destruct (project_by_id db (project_id tm)) as [[P [HP Hid]]|Hnone].
  2:{ exfalso. apply Hgranted. unfold crud.add_team_member. now rewrite Hnone. }
  assert (Hown : (Project.owner_id P =? user_id tm) = false).
  { apply Z.eqb_neq. intros Eo. pose proof (owner_has_row db P Hwf HP) as H.
    rewrite Hid, Eo in H. lia. }
  assert (Hstand : has_standing db (project_id tm) r = true).
  { pose proof (add_team_member_found db tm r P Hwf HP Hid) as E.
    destruct (has_standing db (project_id tm) r); auto.
    rewrite E in Hgranted. simpl in Hgranted. congruence. }
  assert (Hfind : find (crud.is_membership (project_id tm) (user_id tm))
                       (team_members db) = None).
  { destruct (add_team_member_cases db tm r) as [E|[E _]]; auto.
    rewrite E in Hgranted. simpl in Hgranted. congruence. }
  pose proof (standing_after_add db tm r _ _ Hstand) as Hstand'.
  assert (HP' : In P (projects (fst (crud.add_team_member db tm r))))
    by (now rewrite projects_add_team_member).
  pose proof (remove_team_member_found _ (user_id tm) r P Hwf' HP') as Erm.
  rewrite Hid, Hstand', Hown in Erm.
  pose proof (add_team_member_found db tm r P Hwf HP Hid) as Eadd.
  rewrite Hstand, Hfind in Eadd. cbv zeta in Eadd.
  rewrite Eadd in Erm |- *. simpl in Erm.
  rewrite find_append, Hfind in Erm. simpl in Erm.
  unfold crud.is_membership in Erm at 1. simpl in Erm.
  rewrite !Z.eqb_refl in Erm. simpl in Erm.
  rewrite (filter_remove_fresh TeamMember.id
             (next_key TeamMember.id (team_members db))) in Erm;
    [| apply next_key_fresh | reflexivity].
  simpl in Erm.
  simpl. rewrite Erm. simpl.
  repeat split; reflexivity.
Qed.

(** X16.  A removal deletes one membership row of the user for the
    project: the pair has one row fewer than before.  The removed user
    cannot read the project any more exactly when that was the only row of
    the pair, and then has no row left.  The rows of every other (project,
    user) pair are as many as before, and projects and tasks are
    untouched. *)
Theorem removed_member_cannot_read on_team on_tasks db (pid uid r : Z) :
  reachable on_team on_tasks db ->
  snd (crud.remove_team_member db pid uid r) = true ->
  (rows (crud.is_membership pid uid)
        (team_members (fst (crud.remove_team_member db pid uid r))) + 1
   = rows (crud.is_membership pid uid) (team_members db))%nat
  /\ (crud.get_project (fst (crud.remove_team_member db pid uid r)) pid uid = None
      <-> rows (crud.is_membership pid uid) (team_members db) = 1%nat)
  /\ (rows (crud.is_membership pid uid) (team_members db) = 1%nat ->
      crud.get_project (fst (crud.remove_team_member db pid uid r)) pid uid = None
      /\ rows (crud.is_membership pid uid)
              (team_members (fst (crud.remove_team_member db pid uid r))) = 0%nat)
  /\ (forall p' u', p' <> pid \/ u' <> uid ->
        rows (crud.is_membership p' u')
             (team_members (fst (crud.remove_team_member db pid uid r)))
        = rows (crud.is_membership p' u') (team_members db))
  /\ projects (fst (crud.remove_team_member db pid uid r)) = projects db
  /\ tasks (fst (crud.remove_team_member db pid uid r)) = tasks db.
Proof.
  intros Hreach Hok.
  pose proof (reachable_wf _ _ _ Hreach) as Hwf.
  pose proof (wf_remove_team_member db pid uid r Hwf) as Hwf'.
  pose proof (projects_remove_team_member db pid uid r) as Hproj.
  destruct (project_by_id db pid) as [[P [HP Hid]]|Hnone].
  2:{ unfold crud.remove_team_member in Hok. rewrite Hnone in Hok. discriminate. }
  subst pid.
  pose proof (remove_team_member_found db uid r P Hwf HP) as E.
  destruct (has_standing db (Project.id P) r);
    [|rewrite E in Hok; discriminate].
  destruct (Project.owner_id P =? uid) eqn:Eo;
    [rewrite E in Hok; discriminate|].
  apply Z.eqb_neq in Eo.
  destruct (find (crud.is_membership (Project.id P) uid) (team_members db))
    as [tm0|] eqn:Ef; [|rewrite E in Hok; discriminate].
  apply find_some in Ef as [Htm0 Hmem0].
  pose proof (wf_team_members db Hwf) as Hnd.
  assert (Hrows : (rows (crud.is_membership (Project.id P) uid)
                        (team_members (fst (crud.remove_team_member
                                              db (Project.id P) uid r))) + 1
                   = rows (crud.is_membership (Project.id P) uid)
                          (team_members db))%nat).
  { rewrite E. simpl.
    pose proof (rows_remove_key TeamMember.id
                  (crud.is_membership (Project.id P) uid)
                  (team_members db) tm0 Hnd Htm0) as H.
    rewrite Hmem0 in H. exact H. }
  assert (HP' : In P (projects (fst (crud.remove_team_member
                                       db (Project.id P) uid r))))
    by (now rewrite Hproj).
  assert (Hread : crud.get_project (fst (crud.remove_team_member
                                           db (Project.id P) uid r))
                                   (Project.id P) uid = None
                  <-> rows (crud.is_membership (Project.id P) uid)
                           (team_members db) = 1%nat).
  { split.
    - intros Eg.
      destruct (rows (crud.is_membership (Project.id P) uid)
                     (team_members (fst (crud.remove_team_member
                                           db (Project.id P) uid r))))
        as [|k] eqn:Ek; [lia|].
      assert (Hs : crud.get_project (fst (crud.remove_team_member
                                            db (Project.id P) uid r))
                                    (Project.id P) uid = Some P).
      { apply (get_project_Some _ P uid Hwf' HP'). right. lia. }
      congruence.
    - intros E1.
      destruct (crud.get_project _ (Project.id P) uid) as [x|] eqn:Eg; auto.
      pose proof (get_project_inv _ _ _ _ Eg) as [Hx Hxid].
      assert (x = P).
      { apply (NoDup_key_inj Project.id
                 (projects (fst (crud.remove_team_member
                                   db (Project.id P) uid r)))); auto.
        apply (wf_projects _ Hwf'). }
      subst x.
      apply (get_project_Some _ P uid Hwf' HP') in Eg.
      destruct Eg as [Eg|Eg]; [contradiction|]. lia. }
  split; [exact Hrows|]. split; [exact Hread|].
  split; [|split; [|split]].
  - intros E1. split; [now apply Hread | lia].
  - intros p' u' Hne. rewrite E. simpl.
    pose proof (rows_remove_key TeamMember.id (crud.is_membership p' u')
                  (team_members db) tm0 Hnd Htm0) as H.
    assert (crud.is_membership p' u' tm0 = false) as Hf.
    { destruct (crud.is_membership p' u' tm0) eqn:Em; auto.
      apply is_membership_spec in Em as [E1 E2].
      apply is_membership_spec in Hmem0 as [E3 E4].
      destruct Hne as [Hne|Hne]; exfalso; apply Hne; congruence. }
    rewrite Hf in H. lia.
  - exact Hproj.
  - apply tasks_remove_team_member.
Qed.

(** X17.  Who may change a team.  In a reachable store [add_team_member]
    succeeds exactly when the project exists, the requester is its owner or
    holds a row of it with role "owner" or "admin", and the user has no row
    for it yet; [remove_team_member] succeeds exactly when the project
    exists, the requester has that standing, the user is not the owner and
    has at least one row.  A requester without the standing is refused by
    both and the store is left as it was. *)
Theorem team_write_decision on_team on_tasks db (tm : TeamMemberCreate)
    (pid uid r : Z) :
  reachable on_team on_tasks db ->
  (snd (crud.add_team_member db tm r) <> None
   <-> (exists P, In P (projects db) /\ Project.id P = project_id tm)
       /\ has_standing db (project_id tm) r = true
       /\ rows (crud.is_membership (project_id tm) (user_id tm)) (team_members db)
          = 0%nat)
  /\ (snd (crud.remove_team_member db pid uid r) = true
      <-> (exists P, In P (projects db) /\ Project.id P = pid
                     /\ Project.owner_id P <> uid)
          /\ has_standing db pid r = true
          /\ (1 <= rows (crud.is_membership pid uid) (team_members db))%nat)
  /\ (has_standing db (project_id tm) r = false ->
      crud.add_team_member db tm r = (db, None))
  /\ (has_standing db pid r = false ->
      crud.remove_team_member db pid uid r = (db, false)).
Proof.
  intros Hreach. pose proof (reachable_wf _ _ _ Hreach) as Hwf.
  split; [|split; [|split]].
  - destruct (project_by_id db (project_id tm)) as [[P [HP Hid]]|Hnone].
    + rewrite (add_team_member_found db tm r P Hwf HP Hid).
      destruct (has_standing db (project_id tm) r).
      * destruct (find _ (team_members db)) as [m|] eqn:Ef; simpl.
        -- apply find_some in Ef as [Hm Hf].
           pose proof (rows_pos_In _ _ _ Hm Hf).
           split; [congruence | intros [_ [_ H0]]; lia].
        -- split; [|discriminate]. intros _.
           split; [eauto|]. split; auto. now apply rows_find_none.
      * simpl. split; [congruence | intros [_ [H _]]; discriminate].
    + unfold crud.add_team_member. rewrite Hnone. simpl.
      split; [congruence|]. intros [[P [HP Hid]] _].
      apply (find_none _ _ Hnone) in HP. apply Z.eqb_neq in HP. contradiction.
  - destruct (project_by_id db pid) as [[P [HP Hid]]|Hnone].
    + subst pid. rewrite (remove_team_member_found db uid r P Hwf HP).
      destruct (has_standing db (Project.id P) r).
      * destruct (Project.owner_id P =? uid) eqn:Eo.
        -- apply Z.eqb_eq in Eo. simpl. split; [discriminate|].
           intros [[x [Hx [Hxid Hxo]]] _].
           assert (x = P) by (eapply NoDup_key_inj with (key := Project.id); eauto;
                              apply Hwf).
           subst x. contradiction.
        -- apply Z.eqb_neq in Eo.
           destruct (find _ (team_members db)) as [m|] eqn:Ef; simpl.
           ++ apply find_some in Ef as [Hm Hf].
              pose proof (rows_pos_In _ _ _ Hm Hf).
              split; [|reflexivity]. intros _.
              split; [eauto|]. split; auto.
           ++ apply rows_find_none in Ef.
              split; [discriminate | intros [_ [_ H1]]; lia].
      * simpl. split; [discriminate | intros [_ [H _]]; discriminate].
    + unfold crud.remove_team_member. rewrite Hnone. simpl.
      split; [discriminate|]. intros [[P [HP [Hid _]]] _].
      apply (find_none _ _ Hnone) in HP. apply Z.eqb_neq in HP. contradiction.
  - intros Hno. destruct (project_by_id db (project_id tm)) as [[P [HP Hid]]|Hnone].
    + rewrite (add_team_member_found db tm r P Hwf HP Hid), Hno. reflexivity.
    + unfold crud.add_team_member. now rewrite Hnone.
  - intros Hno. destruct (project_by_id db pid) as [[P [HP Hid]]|Hnone].
    + subst pid. rewrite (remove_team_member_found db uid r P Hwf HP), Hno.
      reflexivity.
    + unfold crud.remove_team_member. now rewrite Hnone.
Qed.

(** ** Registration and the user search *)

Lemma users_run_crud on_team on_tasks op db :
  actor op <> None -> users (run on_team on_tasks op db) = users db.
Proof.
  destruct op; simpl; intros Hop; try congruence.
  - unfold crud.update_task. destruct (find _ (tasks db)); reflexivity.
  - unfold crud.delete_task. destruct (find _ (tasks db)); reflexivity.
  - unfold crud.update_project. destruct (find _ (projects db)); reflexivity.
  - unfold crud.delete_project. destruct (find _ (projects db)); reflexivity.
  - destruct (add_team_member_cases db team_member requester_user_id) as [E|[_ E]];
      rewrite E; auto.
  - unfold crud.remove_team_member.
    destruct (find _ (projects db)); simpl; auto.
    destruct (negb _); [destruct (find (crud.is_manager_membership _ _) _)|];
      simpl; auto;
      destruct (Project.owner_id _ =? _); simpl; auto;
      destruct (find (crud.is_membership _ _) _); auto.
Qed.

Lemma str_eqb_eq (a b : str) : str_eqb a b = true <-> a = b.
Proof.
  revert b. induction a as [|c a IH]; intros [|d b]; simpl;
    try (split; [discriminate | discriminate]); [tauto|].
  rewrite andb_true_iff, N.eqb_eq, IH. split.
  - intros [-> ->]. reflexivity.
  - intros [= -> ->]. auto.
Qed.

Lemma str_eqb_refl (a : str) : str_eqb a a = true.
Proof. now apply str_eqb_eq. Qed.

Lemma find_str_none {A : Type} (key : A -> str) (v : str) (l : list A) :
  find (fun x => str_eqb (key x) v) l = None <-> ~ In v (map key l).
Proof.
  rewrite find_none_iff. split.
  - intros H Hin. apply in_map_iff in Hin as [x [<- Hx]].
    specialize (H x Hx). rewrite str_eqb_refl in H. discriminate.
  - intros H x Hx. destruct (str_eqb (key x) v) eqn:E; auto.
    apply str_eqb_eq in E. exfalso. apply H. rewrite <- E. now apply in_map.
Qed.

Lemma find_string_none {A : Type} (key : A -> string) (v : string) (l : list A) :
  find (fun x => String.eqb (key x) v) l = None <-> ~ In v (map key l).
Proof.
  rewrite find_none_iff. split.
  - intros H Hin. apply in_map_iff in Hin as [x [<- Hx]].
    specialize (H x Hx). rewrite String.eqb_refl in H. discriminate.
  - intros H x Hx. apply String.eqb_neq. intros E. apply H.
    rewrite <- E. now apply in_map.
Qed.

Lemma users_wf_register db user :
  users_wf db -> users_wf (fst (main.register_user db user)).
Proof.
  intros [Hk He Hu]. unfold main.register_user.
  destruct (find _ (users db)) eqn:E1; simpl; [constructor; auto|].
  destruct (find (fun u => String.eqb (User.username u) _) (users db)) eqn:E2;
    simpl; [constructor; auto|].
  apply find_str_none in E1. apply find_string_none in E2.
  constructor; simpl.
  - apply keys_app_fresh; auto.
  - rewrite map_app. simpl. now apply NoDup_snoc.
  - rewrite map_app. simpl. now apply NoDup_snoc.
Qed.

Lemma reachable_users_wf on_team on_tasks db :
  reachable on_team on_tasks db -> users_wf db.
Proof.
  induction 1 as [|op db Hreach IH].
  - constructor; simpl; constructor.
  - destruct op.
    1: exact (users_wf_register db user IH).
    all: match goal with
         | |- users_wf (run _ _ ?op _) =>
             pose proof (users_run_crud on_team on_tasks op db) as Eu;
             destruct IH as [Hk He Hu]; constructor; rewrite Eu; auto;
             simpl; discriminate
         end.
Qed.

(** X18.  Emails, user names and keys of the registered users are pairwise
    distinct in every reachable store.  A registration whose email or user
    name is taken is refused with status 400 and changes nothing; one whose
    email and user name are free stores the user as requested, and the
    same registration once more is refused. *)
Theorem registered_users_are_unique on_team on_tasks db (user : UserCreate) :
  reachable on_team on_tasks db ->
  NoDup (map User.email (users db))
  /\ NoDup (map User.username (users db))
  /\ NoDup (map User.id (users db))
  /\ (In (uc_email user) (map User.email (users db))
      \/ In (uc_username user) (map User.username (users db)) ->
      exists e, main.register_user db user = (db, inl e)
                /\ main.status_code e = 400)
  /\ (~ In (uc_email user) (map User.email (users db)) ->
      ~ In (uc_username user) (map User.username (users db)) ->
      exists row,
        snd (main.register_user db user) = inr row
        /\ User.email row = uc_email user
        /\ User.username row = uc_username user
        /\ User.full_name row = uc_full_name user
        /\ users (fst (main.register_user db user)) = users db ++ [row]
        /\ exists e,
             main.register_user (fst (main.register_user db user)) user
             = (fst (main.register_user db user), inl e)
             /\ main.status_code e = 400).
Proof.
  intros Hreach. destruct (reachable_users_wf _ _ _ Hreach) as [Hk He Hu].
  split; [exact He|]. split; [exact Hu|]. split; [exact Hk|].
  unfold main.register_user. split.
  - intros Htaken.
    destruct (find (fun u => str_eqb (User.email u) _) (users db)) eqn:E1;
      [eexists; split; reflexivity|].
    destruct (find (fun u => String.eqb (User.username u) _) (users db)) eqn:E2;
      [eexists; split; reflexivity|].
    apply find_str_none in E1. apply find_string_none in E2. tauto.
  - intros Hfe Hfu.
    apply find_str_none in Hfe. apply find_string_none in Hfu.
    rewrite Hfe, Hfu. simpl. eexists.
    split; [reflexivity|]. simpl. repeat (split; [reflexivity|]).
    rewrite find_append, Hfe. simpl. rewrite str_eqb_refl.
    eexists. split; reflexivity.
Qed.

Lemma infixb_nil (s : str) : infixb [] s = true.
Proof. destruct s; reflexivity. Qed.

(** X19.  The search returns at most [limit] users when [limit] is not
    negative, each of them a user of the store whose email matches the
    pattern.  The letter case of the fragment
    does not matter, and the empty fragment matches every user.  The
    endpoint refuses a fragment of fewer than 3 characters with status 400
    and otherwise returns the rows of the query with limit 10, which are at
    most 10. *)
Theorem search_is_bounded_and_sound db (q : str) (limit : Z) :
  (0 <= limit ->
   Z.of_nat (List.length (crud.search_users_by_email db q limit)) <= limit)
  /\ (forall u, In u (crud.search_users_by_email db q limit) ->
        In u (users db)
        /\ crud.ilike (User.email u) ([crud.percent] ++ q ++ [crud.percent])
           = true)
  /\ (forall q2, crud.lower q2 = crud.lower q ->
        crud.search_users_by_email db q2 limit
        = crud.search_users_by_email db q limit)
  /\ crud.search_users_by_email db [] limit = sql_limit limit (users db)
  /\ ((List.length q < 3)%nat ->
      exists e, main.search_users db q = inl e /\ main.status_code e = 400)
  /\ ((3 <= List.length q)%nat ->
      exists l, main.search_users db q = inr l
                /\ l = map (fun user => (User.id user, User.email user,
                                         User.full_name user))
                           (crud.search_users_by_email db q 10)
                /\ (List.length l <= 10)%nat).
Proof.
  unfold crud.search_users_by_email.
  split; [apply sql_limit_length|].
  split; [|split; [|split; [|split]]].
  - intros u Hu.
    destruct (sql_limit_prefix limit
                (filter (fun u => crud.ilike (User.email u)
                                             ([crud.percent] ++ q ++ [crud.percent]))
                        (users db))) as [rest E].
    assert (Hin : In u (filter (fun u => crud.ilike (User.email u)
                                           ([crud.percent] ++ q ++ [crud.percent]))
                               (users db))).
    { rewrite E. apply in_or_app. now left. }
    now apply filter_In in Hin.
  - intros q2 E. f_equal. apply filter_ext. intros u. unfold crud.ilike.
    unfold crud.lower in *. rewrite !map_app. now rewrite E.
  - f_equal. rewrite <- (filter_true (users db)) at 2.
    apply filter_ext. intros u. unfold crud.ilike.
    change (crud.lower ([crud.percent] ++ [] ++ [crud.percent]))
      with (crud.percent :: [] ++ [crud.percent]).
    rewrite like_literal_infix by reflexivity. apply infixb_nil.
  - intros Hlen. unfold main.search_users.
    apply Nat.ltb_lt in Hlen. rewrite Hlen. eexists. split; reflexivity.
  - intros Hlen. unfold main.search_users.
    apply Nat.ltb_ge in Hlen. rewrite Hlen. eexists. split; [reflexivity|].
    split; [reflexivity|].
    rewrite length_map.
    pose proof (sql_limit_length 10
                  (filter (fun u => crud.ilike (User.email u)
                                               ([crud.percent] ++ q ++ [crud.percent]))
                          (users db))) as H.
    unfold crud.search_users_by_email. lia.
Qed.

(** X20 at [team_db]: the fragment [CAROL@] has no wildcard. *)
Lemma search_literal_fragment_witness :
  crud.search_users_by_email team_db (text "CAROL@") 10
  = search_users_by_fragment team_db (text "CAROL@") 10.
Proof.
  apply (search_literal_fragment team_db (text "CAROL@") 10). reflexivity.
Defined.

(** ** The reports *)

Lemma status_partition (g : Task.row -> bool) (l : list Task.row) :
  crud.count (fun t => g t && col_eqb TaskStatus.eqb (Task.status t) TaskStatus.PENDING) l
  + crud.count (fun t => g t && col_eqb TaskStatus.eqb (Task.status t)
                                        TaskStatus.IN_PROGRESS) l
  + crud.count (fun t => g t && col_eqb TaskStatus.eqb (Task.status t)
                                        TaskStatus.COMPLETED) l
  + crud.count (fun t => g t && col_eqb TaskStatus.eqb (Task.status t)
                                        TaskStatus.CANCELLED) l
  + crud.count (fun t => g t && is_null (Task.status t)) l
  = crud.count g l.
Proof.
  rewrite !count_rows.
  assert (H : (rows (fun t => g t && col_eqb TaskStatus.eqb (Task.status t)
                                             TaskStatus.PENDING) l
               + rows (fun t => g t && col_eqb TaskStatus.eqb (Task.status t)
                                               TaskStatus.IN_PROGRESS) l
               + rows (fun t => g t && col_eqb TaskStatus.eqb (Task.status t)
                                               TaskStatus.COMPLETED) l
               + rows (fun t => g t && col_eqb TaskStatus.eqb (Task.status t)
                                               TaskStatus.CANCELLED) l
               + rows (fun t => g t && is_null (Task.status t)) l
               = rows g l)%nat).
  { unfold rows. induction l as [|a l IH]; [reflexivity|].
    simpl. destruct (g a); simpl; [|exact IH].
    destruct (Task.status a) as [[]|]; simpl; lia. }
  lia.
Qed.

Lemma priority_partition (l : list Task.row) :
  crud.count (fun t => col_eqb TaskPriority.eqb (Task.priority t) TaskPriority.LOW) l
  + crud.count (fun t => col_eqb TaskPriority.eqb (Task.priority t)
                                 TaskPriority.MEDIUM) l
  + crud.count (fun t => col_eqb TaskPriority.eqb (Task.priority t)
                                 TaskPriority.HIGH) l
  + crud.count (fun t => col_eqb TaskPriority.eqb (Task.priority t)
                                 TaskPriority.URGENT) l
  + crud.count (fun t => is_null (Task.priority t)) l
  = crud.count (fun _ => true) l.
Proof.
  rewrite !count_rows.
  assert (H : (rows (fun t => col_eqb TaskPriority.eqb (Task.priority t)
                                      TaskPriority.LOW) l
               + rows (fun t => col_eqb TaskPriority.eqb (Task.priority t)
                                        TaskPriority.MEDIUM) l
               + rows (fun t => col_eqb TaskPriority.eqb (Task.priority t)
                                        TaskPriority.HIGH) l
               + rows (fun t => col_eqb TaskPriority.eqb (Task.priority t)
                                        TaskPriority.URGENT) l
               + rows (fun t => is_null (Task.priority t)) l
               = rows (fun _ => true) l)%nat).
  { unfold rows. induction l as [|a l IH]; [reflexivity|].
    simpl. destruct (Task.priority a) as [[]|]; simpl; lia. }
  lia.
Qed.

Lemma count_all {A : Type} (l : list A) :
  crud.count (fun _ => true) l = Z.of_nat (List.length l).
Proof. unfold crud.count. now rewrite filter_true. Qed.

(** X21.  The two distributions always have their four entries, in the
    order low, medium, high, urgent and pending, in progress, completed,
    cancelled, also on an empty store, with counts that are not negative.
    The counts of a distribution and the number of tasks that hold NULL in
    the column add up to the number of tasks. *)
Theorem distributions_add_up db :
  map fst (crud.get_task_priority_distribution db)
  = [TaskPriority.LOW; TaskPriority.MEDIUM; TaskPriority.HIGH; TaskPriority.URGENT]
  /\ map fst (crud.get_task_status_distribution db)
     = [TaskStatus.PENDING; TaskStatus.IN_PROGRESS; TaskStatus.COMPLETED;
        TaskStatus.CANCELLED]
  /\ Forall (fun e => 0 <= snd e) (crud.get_task_priority_distribution db)
  /\ Forall (fun e => 0 <= snd e) (crud.get_task_status_distribution db)
  /\ total_count (crud.get_task_priority_distribution db)
     + crud.count (fun t => is_null (Task.priority t)) (tasks db)
     = crud.count (fun _ => true) (tasks db)
  /\ total_count (crud.get_task_status_distribution db)
     + crud.count (fun t => is_null (Task.status t)) (tasks db)
     = crud.count (fun _ => true) (tasks db).
Proof.
  split; [reflexivity|]. split; [reflexivity|].
  split; [repeat constructor; apply count_nonneg|].
  split; [repeat constructor; apply count_nonneg|].
  split.
  - rewrite <- (priority_partition (tasks db)).
    unfold crud.get_task_priority_distribution, total_count. simpl. lia.
  - rewrite <- (status_partition (fun _ => true) (tasks db)).
    unfold crud.get_task_status_distribution, total_count. simpl. lia.
Qed.

Section ReportTotals.

Variable float : Type.
Variable int_truediv : Z -> Z -> float.
Variable float_mul : float -> Z -> float.
Variable float_round : float -> Z -> float.
Variables on_team on_tasks : OnDelete.

Lemma active_is_pending_or_in_progress (l : list Task.row) :
  crud.count (fun t => col_in TaskStatus.eqb (Task.status t)
                              [TaskStatus.PENDING; TaskStatus.IN_PROGRESS]) l
  = crud.count (fun t => col_eqb TaskStatus.eqb (Task.status t) TaskStatus.PENDING) l
    + crud.count (fun t => col_eqb TaskStatus.eqb (Task.status t)
                                   TaskStatus.IN_PROGRESS) l.
Proof.
  rewrite !count_rows.
  assert (H : (rows (fun t => col_in TaskStatus.eqb (Task.status t)
                                     [TaskStatus.PENDING; TaskStatus.IN_PROGRESS]) l
               = rows (fun t => col_eqb TaskStatus.eqb (Task.status t)
                                        TaskStatus.PENDING) l
                 + rows (fun t => col_eqb TaskStatus.eqb (Task.status t)
                                          TaskStatus.IN_PROGRESS) l)%nat).
  { unfold rows, col_in. simpl. induction l as [|a l IH]; [reflexivity|].
    simpl. destruct (Task.status a) as [[]|]; simpl; lia. }
  lia.
Qed.

(** X22.  The overview counts every user, project and task of the store;
    its completed and active counts, the cancelled tasks and the tasks
    without a status add up to the total.  The per-user statistics have one
    entry per user, in the order of the store, named by the full name or,
    when that is missing or empty, by the user name; the four status counts
    of an entry and the user's tasks without a status add up to its
    total. *)
Theorem report_counts_add_up db :
  (exists r,
      crud.get_system_overview float int_truediv float_mul float_round db = inr r
      /\ crud.so_total_users r = Z.of_nat (List.length (users db))
      /\ crud.so_total_projects r = Z.of_nat (List.length (projects db))
      /\ crud.so_total_tasks r = Z.of_nat (List.length (tasks db))
      /\ crud.so_completed_tasks r + crud.so_active_tasks r
         + crud.count (fun t => col_eqb TaskStatus.eqb (Task.status t)
                                        TaskStatus.CANCELLED) (tasks db)
         + crud.count (fun t => is_null (Task.status t)) (tasks db)
         = crud.so_total_tasks r)
  /\ (exists l,
        crud.get_user_task_statistics float int_truediv float_mul float_round db
        = inr l
        /\ map crud.us_user_id l = map User.id (users db)
        /\ map crud.us_user_email l = map User.email (users db)
        /\ map crud.us_user_name l
           = map (fun u => match User.full_name u with
                           | Some (String c s) => String c s
                           | _ => User.username u
                           end) (users db)
        /\ Forall
             (fun s =>
                crud.us_pending_tasks s + crud.us_in_progress_tasks s
                + crud.us_completed_tasks s + crud.us_cancelled_tasks s
                + crud.count (fun t => (Task.assigned_user_id t =? crud.us_user_id s)
                                       && is_null (Task.status t)) (tasks db)
                = crud.us_total_tasks s)
             l).
Proof.
  split.
  - unfold crud.get_system_overview.
    destruct (completion_rate_expr_total float int_truediv float_mul float_round
                (crud.count (fun t => col_eqb TaskStatus.eqb (Task.status t)
                                              TaskStatus.COMPLETED) (tasks db))
                (crud.count (fun _ => true) (tasks db))
                (count_nonneg _ _)) as [x [Ex _]].
    rewrite Ex. simpl. eexists. split; [reflexivity|]. simpl.
    rewrite !count_all. repeat (split; [reflexivity|]).
    rewrite active_is_pending_or_in_progress.
    pose proof (status_partition (fun _ => true) (tasks db)) as H.
    simpl in H. rewrite count_all in H. lia.
  - unfold crud.get_user_task_statistics.
    set (g := fun user : User.row =>
      let total := crud.count (fun t => Task.assigned_user_id t =? User.id user)
                              (tasks db) in
      let completed := crud.user_tasks_in db (User.id user) TaskStatus.COMPLETED in
      {| crud.us_user_id := User.id user;
         crud.us_user_name := crud.or_else (User.full_name user) (User.username user);
         crud.us_user_email := User.email user;
         crud.us_total_tasks := total;
         crud.us_completed_tasks := completed;
         crud.us_in_progress_tasks :=
           crud.user_tasks_in db (User.id user) TaskStatus.IN_PROGRESS;
         crud.us_pending_tasks :=
           crud.user_tasks_in db (User.id user) TaskStatus.PENDING;
         crud.us_cancelled_tasks :=
           crud.user_tasks_in db (User.id user) TaskStatus.CANCELLED;
         crud.us_completion_rate :=
           completion_rate_spec int_truediv float_mul float_round completed total |}).
    exists (map g (users db)).
    split; [|split; [|split; [|split]]].
    + apply for_each_total. intros user _.
      destruct (completion_rate_expr_total float int_truediv float_mul float_round
                  (crud.user_tasks_in db (User.id user) TaskStatus.COMPLETED)
                  (crud.count (fun t => Task.assigned_user_id t =? User.id user)
                              (tasks db))
                  (count_nonneg _ _)) as [x [Ex Hx]].
      rewrite Ex. simpl. unfold crud.ret, g. simpl. rewrite Hx. reflexivity.
    + rewrite map_map. reflexivity.
    + rewrite map_map. reflexivity.
    + rewrite map_map. apply map_ext. intros u. simpl.
      destruct (User.full_name u) as [[|c s]|]; reflexivity.
    + apply Forall_forall. intros s Hs.
      apply in_map_iff in Hs as [user [<- _]]. simpl.
      unfold crud.user_tasks_in.
      exact (status_partition
               (fun t => Task.assigned_user_id t =? User.id user) (tasks db)).
Qed.

(** X23.  The per-project statistics have one entry per project, in the
    order of the store.  In a reachable store the team size of an entry is
    at least one, the row of the owner, and is the length of the team list
    the owner is shown; the four status counts of an entry and the
    project's tasks without a status add up to its total, and the
    completion rate is the guarded one. *)
Theorem project_statistics_of_reachable db :
  reachable on_team on_tasks db ->
  exists l,
    crud.get_project_task_statistics float int_truediv float_mul float_round db
    = inr l
    /\ map crud.ps_project_id l = map Project.id (projects db)
    /\ map crud.ps_project_name l = map Project.name (projects db)
    /\ Forall
         (fun e =>
            1 <= crud.ps_team_size e
            /\ (exists P members,
                  In P (projects db) /\ Project.id P = crud.ps_project_id e
                  /\ crud.get_team_members db (crud.ps_project_id e)
                                           (Project.owner_id P) = Some members
                  /\ crud.ps_team_size e = Z.of_nat (List.length members))
            /\ crud.ps_pending_tasks e + crud.ps_in_progress_tasks e
               + crud.ps_completed_tasks e + crud.ps_cancelled_tasks e
               + crud.count (fun t => col_eqb Z.eqb (Task.project_id t)
                                              (crud.ps_project_id e)
                                      && is_null (Task.status t)) (tasks db)
               = crud.ps_total_tasks e
            /\ crud.ps_completion_rate e
               = completion_rate_spec int_truediv float_mul float_round
                   (crud.ps_completed_tasks e) (crud.ps_total_tasks e))
         l.
Proof.
  intros Hreach. apply reachable_wf in Hreach.
  unfold crud.get_project_task_statistics.
  set (g := fun project : Project.row =>
    let total := crud.count (fun t => col_eqb Z.eqb (Task.project_id t)
                                              (Project.id project)) (tasks db) in
    let completed :=
      crud.project_tasks_in db (Project.id project) TaskStatus.COMPLETED in
    {| crud.ps_project_id := Project.id project;
       crud.ps_project_name := Project.name project;
       crud.ps_total_tasks := total;
       crud.ps_completed_tasks := completed;
       crud.ps_in_progress_tasks :=
         crud.project_tasks_in db (Project.id project) TaskStatus.IN_PROGRESS;
       crud.ps_pending_tasks :=
         crud.project_tasks_in db (Project.id project) TaskStatus.PENDING;
       crud.ps_cancelled_tasks :=
         crud.project_tasks_in db (Project.id project) TaskStatus.CANCELLED;
       crud.ps_completion_rate :=
         completion_rate_spec int_truediv float_mul float_round completed total;
       crud.ps_team_size :=
         crud.count (fun m => col_eqb Z.eqb (TeamMember.project_id m)
                                      (Project.id project)) (team_members db) |}).
  exists (map g (projects db)).
  split; [|split; [|split]].
  - apply for_each_total. intros project _.
    destruct (completion_rate_expr_total float int_truediv float_mul float_round
                (crud.project_tasks_in db (Project.id project) TaskStatus.COMPLETED)
                (crud.count (fun t => col_eqb Z.eqb (Task.project_id t)
                                              (Project.id project)) (tasks db))
                (count_nonneg _ _)) as [x [Ex Hx]].
    rewrite Ex. simpl. unfold crud.ret, g. simpl. rewrite Hx. reflexivity.
  - rewrite map_map. reflexivity.
  - rewrite map_map. reflexivity.
  - apply Forall_forall. intros e He.
    apply in_map_iff in He as [P [<- HP]]. simpl.
    assert (Hteam : crud.get_team_members db (Project.id P) (Project.owner_id P)
                    = Some (filter (fun m => col_eqb Z.eqb (TeamMember.project_id m)
                                                     (Project.id P))
                                   (team_members db))).
    { unfold crud.get_team_members.
      rewrite (proj2 (get_project_Some db P (Project.owner_id P) Hreach HP));
        auto. }
    split; [|split; [|split]].
    + destruct (wf_owner_row db Hreach P HP) as [m [Hm [Hmem _]]].
      apply is_membership_spec in Hmem as [Hp _].
      assert (Hf : col_eqb Z.eqb (TeamMember.project_id m) (Project.id P) = true)
        by (rewrite Hp; apply Z.eqb_refl).
      pose proof (rows_pos_In
                    (fun m => col_eqb Z.eqb (TeamMember.project_id m) (Project.id P))
                    _ _ Hm Hf) as Hpos.
      rewrite count_rows. lia.
    + exists P. eexists. split; [exact HP|]. split; [reflexivity|].
      split; [exact Hteam|]. reflexivity.
    + unfold crud.project_tasks_in.
      exact (status_partition
               (fun t => col_eqb Z.eqb (Task.project_id t) (Project.id P))
               (tasks db)).
    + reflexivity.
Qed.

End ReportTotals.
(** ** Keys *)

(** X24.  Whatever sequence of operations is run from the empty store, the
    keys of each table are pairwise distinct, the key the next row of a
    table would be given is not in use in it, and every project has a
    membership row for its owner.  Nothing keeps a (project, user) pair
    from having more than one row. *)
Theorem keys_stay_unique on_team on_tasks (ops : list operation) :
  NoDup (map User.id (users (run_all on_team on_tasks ops empty_db)))
  /\ NoDup (map Project.id (projects (run_all on_team on_tasks ops empty_db)))
  /\ NoDup (map TeamMember.id
                (team_members (run_all on_team on_tasks ops empty_db)))
  /\ NoDup (map Task.id (tasks (run_all on_team on_tasks ops empty_db)))
  /\ ~ In (next_key Project.id (projects (run_all on_team on_tasks ops empty_db)))
          (map Project.id (projects (run_all on_team on_tasks ops empty_db)))
  /\ ~ In (next_key Task.id (tasks (run_all on_team on_tasks ops empty_db)))
          (map Task.id (tasks (run_all on_team on_tasks ops empty_db)))
  /\ (forall P, In P (projects (run_all on_team on_tasks ops empty_db)) ->
        (1 <= rows (crud.is_membership (Project.id P) (Project.owner_id P))
                   (team_members (run_all on_team on_tasks ops empty_db)))%nat).
Proof.
  assert (Hreach : reachable on_team on_tasks (run_all on_team on_tasks ops empty_db))
    by (apply reachable_run_all, reachable_empty).
  pose proof (reachable_wf _ _ _ Hreach) as Hwf.
  pose proof (reachable_users_wf _ _ _ Hreach) as Hu.
  split; [apply Hu|]. split; [apply Hwf|]. split; [apply Hwf|].
  split; [apply Hwf|].
  split; [apply next_key_fresh|]. split; [apply next_key_fresh|].
  intros P HP. now apply owner_has_row.
Qed.

(** ** The further properties on the sample store *)

Lemma get_tasks_lists_own_tasks_witness :
  reachable NoAction NoAction team_db
  /\ Z.of_nat (List.length (crud.get_tasks team_db 1 0 100)) <= 100
  /\ (forall t, In t (crud.get_tasks team_db 1 0 (-1))
                <-> In t (tasks team_db) /\ Task.assigned_user_id t = 1).
Proof.
  split; [exact team_db_reachable|]. split.
  - apply (proj1 (get_tasks_lists_own_tasks NoAction NoAction team_db 1 0 100
                    team_db_reachable)).
    lia.
  - apply (proj2 (proj2 (get_tasks_lists_own_tasks NoAction NoAction team_db
                           1 0 (-1) team_db_reachable))).
    + lia.
    + left. lia.
Defined.

Lemma project_page_is_sound_witness :
  reachable NoAction NoAction team_db
  /\ crud.get_project team_db 1 2 = Some alpha_row.
Proof.
  split; [exact team_db_reachable|].
  apply (proj2 (proj2 (project_page_is_sound NoAction NoAction team_db 2 0 (-1)
                         team_db_reachable)) alpha_row).
  left. reflexivity.
Defined.

Lemma create_then_get_task_witness :
  reachable NoAction NoAction team_db
  /\ crud.get_task (fst (crud.create_task team_db (task_in None) 3))
                   (Task.id (snd (crud.create_task team_db (task_in None) 3))) 3
     = Some (snd (crud.create_task team_db (task_in None) 3)).
Proof.
  split; [exact team_db_reachable|].
  exact (proj1 (create_then_get_task NoAction NoAction team_db (task_in None) 3
                  team_db_reachable)).
Defined.

Lemma delete_then_get_task_witness :
  snd (crud.delete_task team_db 1 1) = true
  /\ crud.get_task (fst (crud.delete_task team_db 1 1)) 1 1 = None.
Proof.
  split; [reflexivity|].
  apply (delete_then_get_task NoAction NoAction team_db 1 1 team_db_reachable).
  reflexivity.
Defined.

Lemma update_task_is_partial_witness :
  exists T',
    snd (crud.update_task team_db 1 (rename_task "T1 again") 1) = Some T'
    /\ crud.get_task (fst (crud.update_task team_db 1 (rename_task "T1 again") 1))
                     1 1 = Some T'.
Proof.
  eexists. split; [reflexivity|].
  apply (update_task_is_partial NoAction NoAction team_db 1 1
           (rename_task "T1 again") _ team_db_reachable).
  reflexivity.
Defined.

Lemma empty_update_changes_nothing_witness :
  reachable NoAction NoAction team_db
  /\ crud.update_task team_db 1 no_task_update 1
     = (team_db, crud.get_task team_db 1 1).
Proof.
  split; [exact team_db_reachable|].
  exact (proj1 (empty_update_changes_nothing NoAction NoAction team_db 1 1
                  team_db_reachable)).
Defined.

Lemma task_writes_spare_other_users_witness :
  2 <> 1
  /\ crud.get_tasks (fst (crud.create_task team_db (task_in None) 2)) 1 0 100
     = crud.get_tasks team_db 1 0 100.
Proof.
  split; [discriminate|].
  apply (task_writes_spare_other_users NoAction NoAction team_db 2 1
           (task_in None) no_task_update 1 0 100 team_db_reachable).
  discriminate.
Defined.

Lemma project_read_access_witness :
  In alpha_row (projects team_db)
  /\ (crud.get_project team_db 1 2 = Some alpha_row
      <-> (1 <= rows (crud.is_membership 1 2) (team_members team_db))%nat).
Proof.
  split; [left; reflexivity|].
  apply (proj1 (proj2 (project_read_access NoAction NoAction team_db 1 2
                         team_db_reachable)) alpha_row).
  left. reflexivity.
Defined.

Lemma listing_is_what_can_be_read_witness :
  In alpha_row (crud.get_projects team_db 2 0 100)
  <-> crud.get_project team_db 1 2 = Some alpha_row.
Proof.
  apply (listing_is_what_can_be_read NoAction NoAction team_db 2 100 alpha_row
           team_db_reachable).
  right. apply Z.leb_le. reflexivity.
Defined.

(** X10 at [stale_rows_db]: Bob creates a project, which is given the key
    of the project Alice deleted; Alice, whose row stayed behind, reads
    it. *)
Lemma create_then_get_project_witness :
  reachable NoAction NoAction stale_rows_db
  /\ 1 <> 2
  /\ Project.id (snd (crud.create_project stale_rows_db alpha 2)) = 1
  /\ crud.get_project (fst (crud.create_project stale_rows_db alpha 2)) 1 1
     = Some (snd (crud.create_project stale_rows_db alpha 2)).
Proof.
  split; [exact stale_rows_db_reachable|].
  split; [discriminate|]. split; [reflexivity|].
  destruct (create_then_get_project NoAction NoAction stale_rows_db alpha 2
              stale_rows_db_reachable) as [_ [_ [_ [H _]]]].
  apply (H 1).
  - discriminate.
  - vm_compute. lia.
Defined.

Lemma deleted_project_is_gone_witness :
  snd (crud.delete_project NoAction NoAction team_db 1 1) = true
  /\ crud.get_project (fst (crud.delete_project NoAction NoAction team_db 1 1)) 1 2
     = None.
Proof.
  split; [reflexivity|].
  apply (deleted_project_is_gone NoAction NoAction team_db 1 1 team_db_reachable).
  reflexivity.
Defined.

Lemma update_project_keeps_access_witness :
  exists P',
    snd (crud.update_project team_db 1 (rename_project "Beta") 1) = Some P'
    /\ crud.get_project (fst (crud.update_project team_db 1 (rename_project "Beta") 1))
                        1 2 = Some P'.
Proof.
  eexists. split; [reflexivity|].
  pose proof (update_project_keeps_access NoAction NoAction team_db 1 1
                (rename_project "Beta") _ team_db_reachable eq_refl)
    as [_ [_ [_ [_ [_ [H _]]]]]].
  exact (H 2).
Defined.

Lemma team_views_agree_witness :
  reachable NoAction NoAction team_db
  /\ crud.get_team_members team_db 1 2
     = option_map crud.pd_team_members (crud.get_project_with_team team_db 1 2).
Proof.
  split; [exact team_db_reachable|].
  exact (proj1 (team_views_agree NoAction NoAction team_db 1 2 team_db_reachable)).
Defined.

Lemma added_member_can_read_not_write_witness :
  exists row,
    snd (crud.add_team_member team_db (member_of 1 3 "member") 1) = Some row
    /\ crud.get_project team_db 1 3 = None.
Proof.
  eexists. split; [reflexivity|].
  pose proof (added_member_can_read_not_write NoAction NoAction team_db
                (member_of 1 3 "member") 1 _ team_db_reachable eq_refl)
    as [_ [_ [_ [H _]]]].
  exact H.
Defined.

Lemma add_then_remove_restores_team_witness :
  snd (crud.add_team_member team_db (member_of 1 3 "member") 1) <> None
  /\ team_members
       (fst (crud.remove_team_member
               (fst (crud.add_team_member team_db (member_of 1 3 "member") 1))
               1 3 1))
     = team_members team_db.
Proof.
  assert (H : snd (crud.add_team_member team_db (member_of 1 3 "member") 1) <> None)
    by discriminate.
  split; [exact H|].
  exact (proj1 (proj2 (add_then_remove_restores_team NoAction NoAction team_db
                         (member_of 1 3 "member") 1 team_db_reachable H))).
Defined.

Lemma removed_member_cannot_read_witness :
  snd (crud.remove_team_member team_db 1 2 1) = true
  /\ rows (crud.is_membership 1 2) (team_members team_db) = 1%nat
  /\ crud.get_project (fst (crud.remove_team_member team_db 1 2 1)) 1 2 = None.
Proof.
  split; [reflexivity|]. split; [reflexivity|].
  destruct (removed_member_cannot_read NoAction NoAction team_db 1 2 1
              team_db_reachable eq_refl) as [_ [_ [H _]]].
  apply H. reflexivity.
Defined.

Lemma team_write_decision_witness :
  has_standing team_db 1 3 = false
  /\ crud.add_team_member team_db (member_of 1 3 "admin") 3 = (team_db, None).
Proof.
  split; [reflexivity|].
  apply (team_write_decision NoAction NoAction team_db (member_of 1 3 "admin")
           1 3 3 team_db_reachable).
  reflexivity.
Defined.

Lemma registered_users_are_unique_witness :
  exists e, main.register_user team_db alice = (team_db, inl e)
            /\ main.status_code e = 400.
Proof.
  apply (registered_users_are_unique NoAction NoAction team_db alice
           team_db_reachable).
  left. left. reflexivity.
Defined.

Lemma search_is_bounded_and_sound_witness :
  exists e, main.search_users team_db (text "ab") = inl e
            /\ main.status_code e = 400.
Proof.
  apply (search_is_bounded_and_sound team_db (text "ab") 10).
  simpl. lia.
Defined.

Lemma project_statistics_of_reachable_witness :
  exists l,
    crud.get_project_task_statistics sym Quot Mul Round team_db = inr l
    /\ map crud.ps_project_id l = [1].
Proof.
  destruct (project_statistics_of_reachable sym Quot Mul Round NoAction NoAction
              team_db team_db_reachable) as [l [E [H _]]].
  exists l. split; [exact E | exact H].
Defined.
